(** * CallerGuy: the real-time voice-call client, its call orchestration and
    the grading hand-off, embedded as state-passing programs.

    Sources embedded here:
    - [services/liveClient] (class [LiveClient]): connect, handleOpen,
      handleMessage, setMute, handleClose, disconnect;
    - [components/ActiveCall.tsx]: startCall, the transcript callback,
      handleHangUp, the unmount cleanup, the per-second tick;
    - [services/geminiService.ts]: gradeCall, validateApiKey;
    - [App.tsx]: handleEndCall;
    - further down: formatTime, the level meter and the error screen of
      [ActiveCall.tsx], the two leaderboards with [getLeaderboard].

    JavaScript objects live in a store ([Browser]); the fields of the client
    hold references into it, so that a resource stays observable after the
    field that pointed to it has been set to [null].  Exceptions are explicit:
    a computation returns a [Completion] together with the state reached,
    because a JavaScript [throw] does not roll back the mutations made before
    it.  An [async] method is run to completion, every [await] resolved on the
    spot from the settlement recorded in the store; this is the behaviour of
    calls that do not overlap.  The one overlap modelled is a [disconnect]
    made while [connect] waits for the microphone: [connect] is cut at that
    [await] into [connectUntilMicrophone] and [connectFromMicrophone], and
    other calls run between the two halves. *)

From Stdlib Require Import ZArith QArith Qminmax Reals Psatz Lia Bool.
From Stdlib Require Import String Ascii List DecimalString.
From Stdlib Require DecimalNat Sorted.
From stdpp Require Import base list.
Import ListNotations.

Set Implicit Arguments.

(** ** Exceptions and the state-and-exception monad *)

Inductive JsError : Type :=
| InvalidStateError
| NotAllowedError
| RangeError
| TypeError
| ErrorMsg (message : string).

Inductive Completion (A : Type) : Type :=
| Normal (a : A)
| Thrown (e : JsError).
Arguments Normal {A} a.
Arguments Thrown {A} e.

Definition Js (S A : Type) : Type := S -> Completion A * S.

Definition ret {S A : Type} (a : A) : Js S A := fun s => (Normal a, s).

Definition throw {S A : Type} (e : JsError) : Js S A := fun s => (Thrown e, s).

Definition bind {S A B : Type} (m : Js S A) (k : A -> Js S B) : Js S B :=
  fun s =>
    match m s with
    | (Normal a, s') => k a s'
    | (Thrown e, s') => (Thrown e, s')
    end.

(** [try { m } catch (e) { h e }]: the state reached by [m] before it threw
    is the state the handler starts from. *)
Definition tryCatch {S A : Type} (m : Js S A) (h : JsError -> Js S A) : Js S A :=
  fun s =>
    match m s with
    | (Normal a, s') => (Normal a, s')
    | (Thrown e, s') => h e s'
    end.

Definition gets {S A : Type} (f : S -> A) : Js S A := fun s => (Normal (f s), s).

Definition modify {S : Type} (f : S -> S) : Js S unit := fun s => (Normal tt, f s).

Declare Scope js_scope.
Delimit Scope js_scope with js.
Notation "x <- m ;; k" := (bind m (fun x => k))
  (at level 100, m at next level, right associativity) : js_scope.
Notation "m ;; k" := (bind m (fun _ => k))
  (at level 100, right associativity) : js_scope.
Open Scope js_scope.

(** [xs.forEach(f)] *)
Fixpoint forEach {S A : Type} (xs : list A) (f : A -> Js S unit) : Js S unit :=
  match xs with
  | [] => ret tt
  | x :: rest => f x ;; forEach rest f
  end.

Definition when {S : Type} (b : bool) (m : Js S unit) : Js S unit :=
  if b then m else ret tt.

(** ** The browser store *)

Inductive ContextState : Type := suspended | running | closed.

Definition ContextState_eqb (a b : ContextState) : bool :=
  match a, b with
  | suspended, suspended | running, running | closed, closed => true
  | _, _ => false
  end.

Record AudioContext : Type := mkAudioContext {
  ctx_state : ContextState;
  ctx_currentTime : Q;
  ctx_sampleRate : positive
}.

Inductive TrackKind : Type := AudioTrack | VideoTrack.

Record MediaStreamTrack : Type := mkTrack {
  track_kind : TrackKind;
  track_enabled : bool;
  track_ended : bool          (* readyState === 'ended' *)
}.

(** A [MediaStream] is the list of its tracks. *)
Definition MediaStream : Type := list nat.

Record AudioBuffer : Type := mkAudioBuffer {
  buf_length : nat;           (* sample frames *)
  buf_sampleRate : positive
}.

(** [AudioBuffer.duration]: length in frames over the sample rate. *)
Definition duration (b : AudioBuffer) : Q :=
  Z.of_nat (buf_length b) # buf_sampleRate b.

Record AudioBufferSourceNode : Type := mkSource {
  src_context : nat;
  src_buffer : option AudioBuffer;
  src_connected : bool;
  src_startAt : option Q;     (* the argument of start(), once called *)
  src_stopped : bool
}.

Inductive NodeKind : Type :=
| MediaStreamSource (stream : MediaStream)
| ScriptProcessor (bufferSize inputs outputs : nat).

Record AudioNode : Type := mkNode {
  node_kind : NodeKind;
  node_connections : nat      (* outgoing connections *)
}.

Record LiveSession : Type := mkSession { session_closed : bool }.

(** How a promise returned by [client.live.connect] settles. *)
Inductive Settlement : Type :=
| fulfilled (session : nat)
| rejected (e : JsError).

(** ** Application data ([types.ts]) *)

Inductive Language : Type := en | ja.

Record Persona : Type := mkPersona {
  persona_id : string;
  persona_name : string;
  persona_role : string;
  persona_company : string;
  persona_difficulty : string;
  persona_description : string;
  persona_objections : list string;
  persona_systemInstruction : string;
  persona_avatarUrl : string
}.

Record RubricItem : Type := mkRubricItem {
  category : string;
  rubric_score : Z;           (* 0-10 *)
  feedback : string
}.

Record CallSession : Type := mkCallSession {
  session_id : string;
  timestamp : Z;
  session_playerName : string;
  personaId : string;
  durationSeconds : Z;
  session_transcript : string;
  overallScore : Z;           (* 0-100 *)
  rubric : list RubricItem;
  summary : string
}.

(** What [JSON.parse] makes of a response text that parses. *)
Inductive JsonValue : Type :=
| JsonNull
| JsonObject (score : option Z) (rubric : option (list RubricItem))
             (summary : option string).

(** [response.text] *)
Inductive ResponseText : Type :=
| NoText                      (* undefined or the empty string *)
| Malformed                   (* JSON.parse throws a SyntaxError *)
| Parses (v : JsonValue).

(** How [ai.models.generateContent] settles. *)
Inductive GradingReply : Type :=
| RequestError (e : JsError)
| Response (text : ResponseText).

(** What the platform and the remote endpoint will answer. *)
Record Environment : Type := mkEnvironment {
  audioContextSupported : bool;
  microphoneGranted : bool;
  remoteAccepts : bool;
  deviceSampleRate : positive;
  GEMINI_API_KEY : option string;                 (* process.env *)
  dateNow : Z;                                    (* Date.now() *)
  (* the grading model, asked about a transcript, a persona, a language *)
  generateContent : string -> Persona -> Language -> GradingReply
}.

Record Browser : Type := mkBrowser {
  contexts : list AudioContext;
  tracks : list MediaStreamTrack;
  sources : list AudioBufferSourceNode;
  nodes : list AudioNode;
  sessions : list LiveSession;
  promises : list Settlement;
  micRequests : nat;          (* calls of getUserMedia so far *)
  env : Environment
}.

Definition set_contexts (v : list AudioContext) (b : Browser) : Browser :=
  mkBrowser v (tracks b) (sources b) (nodes b) (sessions b) (promises b)
            (micRequests b) (env b).
Definition set_tracks (v : list MediaStreamTrack) (b : Browser) : Browser :=
  mkBrowser (contexts b) v (sources b) (nodes b) (sessions b) (promises b)
            (micRequests b) (env b).
Definition set_sources (v : list AudioBufferSourceNode) (b : Browser) : Browser :=
  mkBrowser (contexts b) (tracks b) v (nodes b) (sessions b) (promises b)
            (micRequests b) (env b).
Definition set_nodes (v : list AudioNode) (b : Browser) : Browser :=
  mkBrowser (contexts b) (tracks b) (sources b) v (sessions b) (promises b)
            (micRequests b) (env b).
Definition set_sessions (v : list LiveSession) (b : Browser) : Browser :=
  mkBrowser (contexts b) (tracks b) (sources b) (nodes b) v (promises b)
            (micRequests b) (env b).
Definition set_promises (v : list Settlement) (b : Browser) : Browser :=
  mkBrowser (contexts b) (tracks b) (sources b) (nodes b) (sessions b) v
            (micRequests b) (env b).
Definition set_micRequests (v : nat) (b : Browser) : Browser :=
  mkBrowser (contexts b) (tracks b) (sources b) (nodes b) (sessions b)
            (promises b) v (env b).

(** ** The client object *)

(** One inbound [LiveServerMessage], reduced to the parts the handler reads.
    [modelAudio] is [serverContent.modelTurn.parts[0].inlineData.data] after
    base64 decoding; a missing or empty string is [None]. *)
Record LiveServerMessage : Type := mkMessage {
  inputTranscription : option string;
  outputTranscription : option string;
  modelAudio : option (list Byte.byte);
  interrupted : bool
}.

(** Calls made on the [config] callbacks, oldest first. *)
Inductive ConfigCall : Type :=
| onAudioData_model (payload : list Byte.byte)
| onTranscript_call (text : string) (isUser : bool)
| onClose_call.

Record LiveClient : Type := mkLiveClient {
  inputAudioContext : option nat;
  outputAudioContext : option nat;
  nextStartTime : Q;
  stream : option MediaStream;
  sessionPromise : option nat;
  scriptProcessor : option nat;
  sourceNode : option nat;
  isConnected : bool;
  audioQueue : list nat
}.

(** The field initialisers of the class. *)
Definition newLiveClient : LiveClient :=
  mkLiveClient None None 0 None None None None false [].

Definition set_inputAudioContext (v : option nat) (c : LiveClient) : LiveClient :=
  mkLiveClient v (outputAudioContext c) (nextStartTime c) (stream c)
    (sessionPromise c) (scriptProcessor c) (sourceNode c) (isConnected c)
    (audioQueue c).
Definition set_outputAudioContext (v : option nat) (c : LiveClient) : LiveClient :=
  mkLiveClient (inputAudioContext c) v (nextStartTime c) (stream c)
    (sessionPromise c) (scriptProcessor c) (sourceNode c) (isConnected c)
    (audioQueue c).
Definition set_nextStartTime (v : Q) (c : LiveClient) : LiveClient :=
  mkLiveClient (inputAudioContext c) (outputAudioContext c) v (stream c)
    (sessionPromise c) (scriptProcessor c) (sourceNode c) (isConnected c)
    (audioQueue c).
Definition set_stream (v : option MediaStream) (c : LiveClient) : LiveClient :=
  mkLiveClient (inputAudioContext c) (outputAudioContext c) (nextStartTime c) v
    (sessionPromise c) (scriptProcessor c) (sourceNode c) (isConnected c)
    (audioQueue c).
Definition set_sessionPromise (v : option nat) (c : LiveClient) : LiveClient :=
  mkLiveClient (inputAudioContext c) (outputAudioContext c) (nextStartTime c)
    (stream c) v (scriptProcessor c) (sourceNode c) (isConnected c)
    (audioQueue c).
Definition set_scriptProcessor (v : option nat) (c : LiveClient) : LiveClient :=
  mkLiveClient (inputAudioContext c) (outputAudioContext c) (nextStartTime c)
    (stream c) (sessionPromise c) v (sourceNode c) (isConnected c)
    (audioQueue c).
Definition set_sourceNode (v : option nat) (c : LiveClient) : LiveClient :=
  mkLiveClient (inputAudioContext c) (outputAudioContext c) (nextStartTime c)
    (stream c) (sessionPromise c) (scriptProcessor c) v (isConnected c)
    (audioQueue c).
Definition set_isConnected (v : bool) (c : LiveClient) : LiveClient :=
  mkLiveClient (inputAudioContext c) (outputAudioContext c) (nextStartTime c)
    (stream c) (sessionPromise c) (scriptProcessor c) (sourceNode c) v
    (audioQueue c).
Definition set_audioQueue (v : list nat) (c : LiveClient) : LiveClient :=
  mkLiveClient (inputAudioContext c) (outputAudioContext c) (nextStartTime c)
    (stream c) (sessionPromise c) (scriptProcessor c) (sourceNode c)
    (isConnected c) v.

(** What a method of the client runs on: the store, the object itself and
    the log of callback invocations. *)
Record Machine : Type := mkMachine {
  browser : Browser;
  this : LiveClient;
  calls : list ConfigCall
}.

Definition JsM : Type -> Type := Js Machine.

Definition onBrowser (f : Browser -> Browser) : JsM unit :=
  modify (fun s => mkMachine (f (browser s)) (this s) (calls s)).
Definition onThis (f : LiveClient -> LiveClient) : JsM unit :=
  modify (fun s => mkMachine (browser s) (f (this s)) (calls s)).
Definition call (c : ConfigCall) : JsM unit :=
  modify (fun s => mkMachine (browser s) (this s) (calls s ++ [c])).
Definition field {A : Type} (f : LiveClient -> A) : JsM A :=
  gets (fun s => f (this s)).

(** Dereferencing a field that may hold [null]. *)
Definition deref {A : Type} (o : option A) : JsM A :=
  match o with
  | Some a => ret a
  | None => throw TypeError
  end.

(** ** Platform operations *)

(** [new AudioContextClass()] *)
Definition newAudioContext : JsM nat :=
  b <- gets browser ;;
  onBrowser (set_contexts
    (contexts b ++ [mkAudioContext suspended 0 (deviceSampleRate (env b))])) ;;
  ret (length (contexts b)).

Definition with_ctx_state (st : ContextState) (c : AudioContext) : AudioContext :=
  mkAudioContext st (ctx_currentTime c) (ctx_sampleRate c).

(** [ctx.resume()]: rejects on a closed context. *)
Definition ctx_resume (id : nat) : JsM unit :=
  b <- gets browser ;;
  match contexts b !! id with
  | Some c =>
      if ContextState_eqb (ctx_state c) closed then throw InvalidStateError
      else onBrowser (set_contexts (alter (with_ctx_state running) id (contexts b)))
  | None => throw TypeError
  end.

(** [ctx.close()]: rejects on a context that is already closed. *)
Definition ctx_close (id : nat) : JsM unit :=
  b <- gets browser ;;
  match contexts b !! id with
  | Some c =>
      if ContextState_eqb (ctx_state c) closed then throw InvalidStateError
      else onBrowser (set_contexts (alter (with_ctx_state closed) id (contexts b)))
  | None => throw TypeError
  end.

(** [ctx.state !== 'closed'] *)
Definition ctx_not_closed (b : Browser) (id : nat) : bool :=
  match contexts b !! id with
  | Some c => negb (ContextState_eqb (ctx_state c) closed)
  | None => true
  end.

(** [ctx.currentTime] *)
Definition currentTime (b : Browser) (id : nat) : Q :=
  match contexts b !! id with
  | Some c => ctx_currentTime c
  | None => 0
  end.

(** [navigator.mediaDevices.getUserMedia({audio: ...})] *)
Definition getUserMedia : JsM MediaStream :=
  b <- gets browser ;;
  onBrowser (set_micRequests (S (micRequests b))) ;;
  if microphoneGranted (env b) then
    onBrowser (set_tracks (tracks b ++ [mkTrack AudioTrack true false])) ;;
    ret [length (tracks b)]
  else throw NotAllowedError.

Definition with_enabled (v : bool) (t : MediaStreamTrack) : MediaStreamTrack :=
  mkTrack (track_kind t) v (track_ended t).
Definition with_ended (t : MediaStreamTrack) : MediaStreamTrack :=
  mkTrack (track_kind t) (track_enabled t) true.

(** [track.enabled = v] *)
Definition track_setEnabled (v : bool) (id : nat) : JsM unit :=
  onBrowser (fun b => set_tracks (alter (with_enabled v) id (tracks b)) b).

(** [track.stop()] *)
Definition track_stop (id : nat) : JsM unit :=
  onBrowser (fun b => set_tracks (alter with_ended id (tracks b)) b).

Definition is_audio (b : Browser) (id : nat) : bool :=
  match tracks b !! id with
  | Some t => match track_kind t with AudioTrack => true | VideoTrack => false end
  | None => false
  end.

(** [stream.getAudioTracks()] *)
Definition getAudioTracks (b : Browser) (s : MediaStream) : list nat :=
  List.filter (is_audio b) s.

(** [stream.getTracks()] *)
Definition getTracks (s : MediaStream) : list nat := s.

(** [client.live.connect({...})]: the promise is returned at once; how it
    settles is the remote endpoint's decision. *)
Definition live_connect : JsM nat :=
  b <- gets browser ;;
  (if remoteAccepts (env b) then
     onBrowser (fun b => set_promises (promises b ++ [fulfilled (length (sessions b))])
                           (set_sessions (sessions b ++ [mkSession false]) b))
   else
     onBrowser (fun b => set_promises
                           (promises b ++ [rejected (ErrorMsg "session rejected")]) b)) ;;
  ret (length (promises b)).

(** [await p] for a promise of a session. *)
Definition await (p : nat) : JsM nat :=
  b <- gets browser ;;
  match promises b !! p with
  | Some (fulfilled s) => ret s
  | Some (rejected e) => throw e
  | None => throw TypeError
  end.

(** [session.close()] *)
Definition session_close (id : nat) : JsM unit :=
  onBrowser (fun b => set_sessions (alter (fun _ => mkSession true) id (sessions b)) b).

Definition createNode (k : NodeKind) : JsM nat :=
  b <- gets browser ;;
  onBrowser (set_nodes (nodes b ++ [mkNode k 0])) ;;
  ret (length (nodes b)).

(** [node.connect(destination)] *)
Definition node_connect (id : nat) : JsM unit :=
  onBrowser (fun b => set_nodes
    (alter (fun n => mkNode (node_kind n) (S (node_connections n))) id (nodes b)) b).

(** [node.disconnect()] *)
Definition node_disconnect (id : nat) : JsM unit :=
  onBrowser (fun b => set_nodes
    (alter (fun n => mkNode (node_kind n) 0) id (nodes b)) b).

(** [ctx.createBufferSource()] *)
Definition createBufferSource (ctx : nat) : JsM nat :=
  b <- gets browser ;;
  onBrowser (set_sources (sources b ++ [mkSource ctx None false None false])) ;;
  ret (length (sources b)).

Definition onSource (f : AudioBufferSourceNode -> AudioBufferSourceNode) (id : nat)
  : JsM unit :=
  onBrowser (fun b => set_sources (alter f id (sources b)) b).

(** [source.buffer = buf] *)
Definition source_setBuffer (buf : AudioBuffer) : nat -> JsM unit :=
  onSource (fun s => mkSource (src_context s) (Some buf) (src_connected s)
                              (src_startAt s) (src_stopped s)).

(** [source.connect(ctx.destination)] *)
Definition source_connect : nat -> JsM unit :=
  onSource (fun s => mkSource (src_context s) (src_buffer s) true
                              (src_startAt s) (src_stopped s)).

(** [source.start(t)]: a second call throws.  (So would a negative [t]; the
    handler passes the cursor lifted to the output clock, which starts at 0
    and only moves forward, so that case is left out.) *)
Definition source_start (t : Q) (id : nat) : JsM unit :=
  b <- gets browser ;;
  match sources b !! id with
  | Some s =>
      match src_startAt s with
      | Some _ => throw InvalidStateError
      | None => onSource (fun s => mkSource (src_context s) (src_buffer s)
                            (src_connected s) (Some t) (src_stopped s)) id
      end
  | None => throw TypeError
  end.

(** [source.stop()]: throws on a source that was never started. *)
Definition source_stop (id : nat) : JsM unit :=
  b <- gets browser ;;
  match sources b !! id with
  | Some s =>
      match src_startAt s with
      | Some _ => onSource (fun s => mkSource (src_context s) (src_buffer s)
                              (src_connected s) (src_startAt s) true) id
      | None => throw InvalidStateError
      end
  | None => throw TypeError
  end.

(** The output clock moves on: every running context advances by [dt]. *)
Definition advanceClock (dt : Q) (b : Browser) : Browser :=
  set_contexts
    (List.map (fun c =>
       match ctx_state c with
       | running => mkAudioContext running (ctx_currentTime c + dt) (ctx_sampleRate c)
       | _ => c
       end) (contexts b)) b.

(** ** [LiveClient]: connecting *)

(** [handleOpen], the [onopen] callback.  The [onaudioprocess] closure it
    installs is [Capture.onaudioprocess] below. *)
Definition handleOpen : JsM unit :=
  c <- gets this ;;
  match inputAudioContext c, stream c, sessionPromise c with
  | Some _, Some s, Some _ =>
      sn <- createNode (MediaStreamSource s) ;;
      onThis (set_sourceNode (Some sn)) ;;
      sp <- createNode (ScriptProcessor 2048 1 1) ;;
      onThis (set_scriptProcessor (Some sp)) ;;
      node_connect sn ;;
      node_connect sp
  | _, _, _ => ret tt
  end.

(** [connect], lines 38-50: both contexts are created, then resumed. *)
Definition openPipelines : JsM unit :=
  b <- gets browser ;;
  if negb (audioContextSupported (env b)) then
    throw (ErrorMsg "AudioContext not supported in this browser")
  else
    i <- newAudioContext ;;
    onThis (set_inputAudioContext (Some i)) ;;
    o <- newAudioContext ;;
    onThis (set_outputAudioContext (Some o)) ;;
    (f <- field inputAudioContext ;; id <- deref f ;; ctx_resume id) ;;
    (f <- field outputAudioContext ;; id <- deref f ;; ctx_resume id).

(** [connect], lines 53-65. *)
Definition requestMicrophone : JsM unit :=
  tryCatch (s <- getUserMedia ;; onThis (set_stream (Some s)))
           (fun e => throw e).

(** [connect], lines 67-84. *)
Definition openSession : JsM unit :=
  p <- live_connect ;;
  onThis (set_sessionPromise (Some p)).

(** While [connect] is suspended on the session promise, the SDK delivers
    [onopen] for a session that the remote end accepted. *)
Definition deliverOpen : JsM unit :=
  b <- gets browser ;;
  f <- field sessionPromise ;;
  match f with
  | Some p =>
      match promises b !! p with
      | Some (fulfilled _) => handleOpen
      | _ => ret tt
      end
  | None => ret tt
  end.

(** [await this.sessionPromise]; awaiting [null] yields [null]. *)
Definition awaitSessionPromise : JsM (option nat) :=
  f <- field sessionPromise ;;
  match f with
  | Some p => s <- await p ;; ret (Some s)
  | None => ret None
  end.

(** [connect], lines 87-94. *)
Definition awaitSession : JsM unit :=
  tryCatch (_ <- awaitSessionPromise ;; onThis (set_isConnected true))
           (fun e => throw e).

Definition connect : JsM unit :=
  c <- gets this ;;
  if isConnected c then ret tt
  else
    openPipelines ;;
    requestMicrophone ;;
    openSession ;;
    deliverOpen ;;
    awaitSession.

(** ** [LiveClient]: mute, close, disconnect *)

Definition setMute (mute : bool) : JsM unit :=
  f <- field stream ;;
  match f with
  | Some s =>
      b <- gets browser ;;
      forEach (getAudioTracks b s) (track_setEnabled (negb mute))
  | None => ret tt
  end.

Definition handleClose : JsM unit :=
  onThis (set_isConnected false) ;;
  call onClose_call.

(** The [onerror] callback given to the SDK. *)
Definition onerror : JsM unit := call onClose_call.

(** [this.audioQueue.forEach(source => { try { source.stop(); } catch (e) {} })] *)
Definition stopQueued : JsM unit :=
  q <- field audioQueue ;;
  forEach q (fun source => tryCatch (source_stop source) (fun _ => ret tt)).

(** [disconnect], lines 236-285.  Its [await]s, of the session promise and
    of the two [close()], are resolved on the spot: this is the call with
    nothing else running meanwhile.  Made in the middle of a suspended
    [connect] (further down, [connectUntilMicrophone]), it runs while the
    microphone promise is still pending. *)
Definition disconnect : JsM unit :=
  stopQueued ;;
  onThis (set_audioQueue []) ;;
  (f <- field sourceNode ;;
   match f with
   | Some n => node_disconnect n ;; onThis (set_sourceNode None)
   | None => ret tt
   end) ;;
  (f <- field scriptProcessor ;;
   match f with
   | Some n => node_disconnect n ;; onThis (set_scriptProcessor None)
   | None => ret tt
   end) ;;
  (f <- field stream ;;
   match f with
   | Some s => forEach (getTracks s) track_stop ;; onThis (set_stream None)
   | None => ret tt
   end) ;;
  (f <- field sessionPromise ;;
   match f with
   | Some _ =>
       tryCatch (session <- awaitSessionPromise ;;
                 match session with
                 | Some s => session_close s
                 | None => ret tt
                 end)
                (fun _ => ret tt) ;;
       onThis (set_sessionPromise None)
   | None => ret tt
   end) ;;
  (f <- field inputAudioContext ;;
   b <- gets browser ;;
   match f with
   | Some id =>
       when (ctx_not_closed b id) (tryCatch (ctx_close id) (fun _ => ret tt))
   | None => ret tt
   end) ;;
  onThis (set_inputAudioContext None) ;;
  (f <- field outputAudioContext ;;
   b <- gets browser ;;
   match f with
   | Some id =>
       when (ctx_not_closed b id) (tryCatch (ctx_close id) (fun _ => ret tt))
   | None => ret tt
   end) ;;
  onThis (set_outputAudioContext None) ;;
  onThis (set_isConnected false).

(** ** [LiveClient]: inbound messages *)

Definition Qltb (a b : Q) : bool := negb (Qle_bool b a).

Section Inbound.

(** [decodeAudioData(data, ctx, sampleRate, numChannels)] of [utils/audioUtils]
    lives in another module: the handler is parametric in it.  It yields a
    buffer or throws. *)
Variable decodeAudioData : list Byte.byte -> positive -> nat -> Completion AudioBuffer.

(** [handleMessage], lines 175-194: drift correction, then the buffer is
    queued at the cursor and the cursor moves past it. *)
Definition scheduleBuffer (audioBuffer : AudioBuffer) : JsM unit :=
  f <- field outputAudioContext ;;
  octx <- deref f ;;
  b <- gets browser ;;
  c <- gets this ;;
  when (Qltb (nextStartTime c) (currentTime b octx))
       (onThis (set_nextStartTime (currentTime b octx))) ;;
  source <- createBufferSource octx ;;
  source_setBuffer audioBuffer source ;;
  source_connect source ;;
  onThis (fun c => set_audioQueue (audioQueue c ++ [source]) c) ;;
  t <- field nextStartTime ;;
  source_start t source ;;
  onThis (fun c => set_nextStartTime (nextStartTime c + duration audioBuffer)%Q c).

(** [handleMessage], lines 153-195: one audio payload. *)
Definition playChunk (audioData : list Byte.byte) : JsM unit :=
  (* new Int16Array(audioData.buffer) needs an even byte length *)
  (if Nat.odd (length audioData) then throw RangeError else ret tt) ;;
  call (onAudioData_model audioData) ;;
  audioBuffer <- (fun s => (decodeAudioData audioData 24000%positive 1, s)) ;;
  scheduleBuffer audioBuffer.

(** [handleMessage], lines 198-212. *)
Definition handleInterruption : JsM unit :=
  stopQueued ;;
  onThis (set_audioQueue []) ;;
  f <- field outputAudioContext ;;
  octx <- deref f ;;
  b <- gets browser ;;
  onThis (set_nextStartTime (currentTime b octx)).

Definition handleMessage (message : LiveServerMessage) : JsM unit :=
  tryCatch
    (f <- field outputAudioContext ;;
     match f with
     | None => ret tt
     | Some _ =>
         match inputTranscription message with
         | Some text => call (onTranscript_call text true)
         | None => ret tt
         end ;;
         match outputTranscription message with
         | Some text => call (onTranscript_call text false)
         | None => ret tt
         end ;;
         match modelAudio message with
         | Some audioData => playChunk audioData
         | None => ret tt
         end ;;
         when (interrupted message) handleInterruption
     end)
    (fun _ => ret tt).

(** The [onended] callback of a scheduled source: [indexOf] and [splice]. *)
Fixpoint removeFirst (x : nat) (l : list nat) : list nat :=
  match l with
  | [] => []
  | y :: rest => if Nat.eqb x y then rest else y :: removeFirst x rest
  end.

Definition onended (source : nat) : JsM unit :=
  onThis (fun c => set_audioQueue (removeFirst source (audioQueue c)) c).

(** A stretch of the session: the clock moves, messages arrive. *)
Inductive Event : Type :=
| Elapse (dt : Q)
| Inbound (message : LiveServerMessage)
| Ended (source : nat).

Definition step (s : Machine) (e : Event) : Machine :=
  match e with
  | Elapse dt => mkMachine (advanceClock dt (browser s)) (this s) (calls s)
  | Inbound m => snd (handleMessage m s)
  | Ended src => snd (onended src s)
  end.

Definition run (s : Machine) (es : list Event) : Machine := fold_left step es s.

(** The buffer a message puts on the output, if it carries audio that the
    handler gets through decoding while an output context exists. *)
Definition chunkOf (s : Machine) (message : LiveServerMessage)
  : option (nat * AudioBuffer) :=
  match outputAudioContext (this s), modelAudio message with
  | Some octx, Some audioData =>
      if Nat.odd (length audioData) then None
      else match decodeAudioData audioData 24000%positive 1 with
           | Normal audioBuffer => Some (octx, audioBuffer)
           | Thrown _ => None
           end
  | _, _ => None
  end.

End Inbound.

(** The cursor, lifted to the clock when it has fallen behind it. *)
Definition lifted (cursor now : Q) : Q := if Qltb cursor now then now else cursor.

(** [s'] is [s] with one more source, playing [buf] on context [octx] from
    the lifted cursor, tracked at the end of the queue, and the cursor moved
    to the end of that buffer. *)
Definition scheduled_at (s s' : Machine) (octx : nat) (buf : AudioBuffer) : Prop :=
  let start := lifted (nextStartTime (this s)) (currentTime (browser s) octx) in
  sources (browser s') =
    sources (browser s) ++ [mkSource octx (Some buf) true (Some start) false]
  /\ audioQueue (this s') = audioQueue (this s) ++ [length (sources (browser s))]
  /\ nextStartTime (this s') = (start + duration buf)%Q.

Definition unscheduled (s s' : Machine) : Prop :=
  sources (browser s') = sources (browser s)
  /\ audioQueue (this s') = audioQueue (this s)
  /\ nextStartTime (this s') = nextStartTime (this s).

(** The playback interval of a source that has a buffer and was started. *)
Definition interval (src : AudioBufferSourceNode) : option (Q * Q) :=
  match src_startAt src, src_buffer src with
  | Some a, Some buf => Some (a, (a + duration buf)%Q)
  | _, _ => None
  end.

(** Every source of [l] has its interval, and an earlier one ends no later
    than a later one starts. *)
Definition no_overlap (l : list AudioBufferSourceNode) : Prop :=
  (forall i si, l !! i = Some si -> is_Some (interval si))
  /\ (forall i j si sj a b a' b',
        i < j -> l !! i = Some si -> l !! j = Some sj ->
        interval si = Some (a, b) -> interval sj = Some (a', b') -> (b <= a')%Q).

(** An event that is not an interruption. *)
Definition quiet (e : Event) : Prop :=
  match e with
  | Inbound m => interrupted m = false
  | _ => True
  end.

(** Modelled from the spec: [decodeAudioData] of [utils/audioUtils], whose
    source is missing.  The spec (4.1) makes it a byte-level conversion from 16-bit
    wire PCM to a playable buffer at the given rate, without resampling: two
    bytes per sample, [numChannels] samples per frame.  Used only to run the
    handler on concrete payloads. *)
Definition pcm16Decoder (data : list Byte.byte) (sampleRate : positive)
  (numChannels : nat) : Completion AudioBuffer :=
  Normal (mkAudioBuffer (Nat.div (Nat.div (length data) 2) numChannels) sampleRate).


(** ** Call orchestration ([ActiveCall.tsx]) and the application ([App.tsx]) *)

Inductive AppState : Type := DASHBOARD | IN_CALL | FEEDBACK | LEADERBOARD.

Record App : Type := mkApp {
  appState : AppState;
  language : Language;
  selectedPersona : option Persona;
  currentSession : option CallSession;
  sessions_history : list CallSession;            (* the [sessions] state *)
  playerName : string;
  isProcessing : bool;
  coldcall_sessions : option (list CallSession)   (* the localStorage item *)
}.

Inductive CallStatus : Type := connecting | connected | error.

(** The only callback ever given to [setTimeout] by the call screen's
    transcript handler: [() => handleHangUp()]. *)
Inductive TimerAction : Type := HangUp.

(** The component: React state, refs, the variables of the effect closure
    ([clientObj] is the object [client] points to, [ignore]), the pending
    timeouts with their due times in milliseconds, whether the one interval
    is still armed, and the calls made on the [onEndCall] prop. *)
Record ActiveCall : Type := mkActiveCall {
  persona : Persona;
  status : CallStatus;
  call_duration : nat;
  transcript : string;
  isMuted : bool;
  errorMessage : string;
  clientObj : option LiveClient;
  liveClientRef : bool;       (* liveClientRef.current points to the client *)
  timerRef : option nat;
  intervalArmed : bool;
  transcriptRef : string;
  isMountedRef : bool;
  ignore : bool;
  timeouts : list (Z * TimerAction);
  clock : Z;
  onEndCall_calls : list string
}.

Record Page : Type := mkPage {
  page_browser : Browser;
  app : App;
  activeCall : ActiveCall
}.

Definition JsP : Type -> Type := Js Page.

Definition onApp (f : App -> App) : JsP unit :=
  modify (fun p => mkPage (page_browser p) (f (app p)) (activeCall p)).
Definition onCall (f : ActiveCall -> ActiveCall) : JsP unit :=
  modify (fun p => mkPage (page_browser p) (app p) (f (activeCall p))).

Definition set_appState (v : AppState) (a : App) : App :=
  mkApp v (language a) (selectedPersona a) (currentSession a) (sessions_history a)
        (playerName a) (isProcessing a) (coldcall_sessions a).
Definition set_currentSession (v : option CallSession) (a : App) : App :=
  mkApp (appState a) (language a) (selectedPersona a) v (sessions_history a)
        (playerName a) (isProcessing a) (coldcall_sessions a).
Definition set_sessions_history (v : list CallSession) (a : App) : App :=
  mkApp (appState a) (language a) (selectedPersona a) (currentSession a) v
        (playerName a) (isProcessing a) (coldcall_sessions a).
Definition set_isProcessing (v : bool) (a : App) : App :=
  mkApp (appState a) (language a) (selectedPersona a) (currentSession a)
        (sessions_history a) (playerName a) v (coldcall_sessions a).
Definition set_coldcall_sessions (v : option (list CallSession)) (a : App) : App :=
  mkApp (appState a) (language a) (selectedPersona a) (currentSession a)
        (sessions_history a) (playerName a) (isProcessing a) v.

Definition set_status (v : CallStatus) (a : ActiveCall) : ActiveCall :=
  mkActiveCall (persona a) v (call_duration a) (transcript a) (isMuted a)
    (errorMessage a) (clientObj a) (liveClientRef a) (timerRef a) (intervalArmed a)
    (transcriptRef a) (isMountedRef a) (ignore a) (timeouts a) (clock a)
    (onEndCall_calls a).
Definition set_call_duration (v : nat) (a : ActiveCall) : ActiveCall :=
  mkActiveCall (persona a) (status a) v (transcript a) (isMuted a)
    (errorMessage a) (clientObj a) (liveClientRef a) (timerRef a) (intervalArmed a)
    (transcriptRef a) (isMountedRef a) (ignore a) (timeouts a) (clock a)
    (onEndCall_calls a).
Definition set_transcript (v : string) (a : ActiveCall) : ActiveCall :=
  mkActiveCall (persona a) (status a) (call_duration a) v (isMuted a)
    (errorMessage a) (clientObj a) (liveClientRef a) (timerRef a) (intervalArmed a)
    (transcriptRef a) (isMountedRef a) (ignore a) (timeouts a) (clock a)
    (onEndCall_calls a).
Definition set_isMuted (v : bool) (a : ActiveCall) : ActiveCall :=
  mkActiveCall (persona a) (status a) (call_duration a) (transcript a) v
    (errorMessage a) (clientObj a) (liveClientRef a) (timerRef a) (intervalArmed a)
    (transcriptRef a) (isMountedRef a) (ignore a) (timeouts a) (clock a)
    (onEndCall_calls a).
Definition set_errorMessage (v : string) (a : ActiveCall) : ActiveCall :=
  mkActiveCall (persona a) (status a) (call_duration a) (transcript a) (isMuted a)
    v (clientObj a) (liveClientRef a) (timerRef a) (intervalArmed a)
    (transcriptRef a) (isMountedRef a) (ignore a) (timeouts a) (clock a)
    (onEndCall_calls a).
Definition set_clientObj (v : option LiveClient) (a : ActiveCall) : ActiveCall :=
  mkActiveCall (persona a) (status a) (call_duration a) (transcript a) (isMuted a)
    (errorMessage a) v (liveClientRef a) (timerRef a) (intervalArmed a)
    (transcriptRef a) (isMountedRef a) (ignore a) (timeouts a) (clock a)
    (onEndCall_calls a).
Definition set_liveClientRef (v : bool) (a : ActiveCall) : ActiveCall :=
  mkActiveCall (persona a) (status a) (call_duration a) (transcript a) (isMuted a)
    (errorMessage a) (clientObj a) v (timerRef a) (intervalArmed a)
    (transcriptRef a) (isMountedRef a) (ignore a) (timeouts a) (clock a)
    (onEndCall_calls a).
Definition set_timerRef (v : option nat) (a : ActiveCall) : ActiveCall :=
  mkActiveCall (persona a) (status a) (call_duration a) (transcript a) (isMuted a)
    (errorMessage a) (clientObj a) (liveClientRef a) v (intervalArmed a)
    (transcriptRef a) (isMountedRef a) (ignore a) (timeouts a) (clock a)
    (onEndCall_calls a).
Definition set_intervalArmed (v : bool) (a : ActiveCall) : ActiveCall :=
  mkActiveCall (persona a) (status a) (call_duration a) (transcript a) (isMuted a)
    (errorMessage a) (clientObj a) (liveClientRef a) (timerRef a) v
    (transcriptRef a) (isMountedRef a) (ignore a) (timeouts a) (clock a)
    (onEndCall_calls a).
Definition set_transcriptRef (v : string) (a : ActiveCall) : ActiveCall :=
  mkActiveCall (persona a) (status a) (call_duration a) (transcript a) (isMuted a)
    (errorMessage a) (clientObj a) (liveClientRef a) (timerRef a) (intervalArmed a)
    v (isMountedRef a) (ignore a) (timeouts a) (clock a) (onEndCall_calls a).
Definition set_isMountedRef (v : bool) (a : ActiveCall) : ActiveCall :=
  mkActiveCall (persona a) (status a) (call_duration a) (transcript a) (isMuted a)
    (errorMessage a) (clientObj a) (liveClientRef a) (timerRef a) (intervalArmed a)
    (transcriptRef a) v (ignore a) (timeouts a) (clock a) (onEndCall_calls a).
Definition set_ignore (v : bool) (a : ActiveCall) : ActiveCall :=
  mkActiveCall (persona a) (status a) (call_duration a) (transcript a) (isMuted a)
    (errorMessage a) (clientObj a) (liveClientRef a) (timerRef a) (intervalArmed a)
    (transcriptRef a) (isMountedRef a) v (timeouts a) (clock a) (onEndCall_calls a).
Definition set_timeouts (v : list (Z * TimerAction)) (a : ActiveCall) : ActiveCall :=
  mkActiveCall (persona a) (status a) (call_duration a) (transcript a) (isMuted a)
    (errorMessage a) (clientObj a) (liveClientRef a) (timerRef a) (intervalArmed a)
    (transcriptRef a) (isMountedRef a) (ignore a) v (clock a) (onEndCall_calls a).
Definition set_clock (v : Z) (a : ActiveCall) : ActiveCall :=
  mkActiveCall (persona a) (status a) (call_duration a) (transcript a) (isMuted a)
    (errorMessage a) (clientObj a) (liveClientRef a) (timerRef a) (intervalArmed a)
    (transcriptRef a) (isMountedRef a) (ignore a) (timeouts a) v (onEndCall_calls a).
Definition set_onEndCall_calls (v : list string) (a : ActiveCall) : ActiveCall :=
  mkActiveCall (persona a) (status a) (call_duration a) (transcript a) (isMuted a)
    (errorMessage a) (clientObj a) (liveClientRef a) (timerRef a) (intervalArmed a)
    (transcriptRef a) (isMountedRef a) (ignore a) (timeouts a) (clock a) v.

(** A method call on the client object from the component.  The [config]
    callbacks it may trigger are not dispatched here: [connect], [disconnect]
    and [setMute] invoke none of them. *)
Definition onClient {A : Type} (m : JsM A) : JsP A :=
  fun p =>
    match clientObj (activeCall p) with
    | None => (Thrown TypeError, p)
    | Some c =>
        let r := m (mkMachine (page_browser p) c []) in
        (fst r, mkPage (browser (snd r)) (app p)
                       (set_clientObj (Some (this (snd r))) (activeCall p)))
    end.

(** ** Grading ([geminiService.ts]) *)

Record Grading : Type := mkGrading {
  grading_score : Z;
  grading_rubric : list RubricItem;
  grading_summary : string
}.

(** [x || d] on a number that may be missing: [0] is falsy. *)
Definition numberOr (x : option Z) (d : Z) : Z :=
  match x with
  | Some z => if Z.eqb z 0 then d else z
  | None => d
  end.

(** [x || d] on a string that may be missing: the empty string is falsy. *)
Definition stringOr (x : option string) (d : string) : string :=
  match x with
  | Some s => if String.eqb s "" then d else s
  | None => d
  end.

(** [x || d] on an array that may be missing: every array is truthy. *)
Definition arrayOr {A : Type} (x : option (list A)) (d : list A) : list A :=
  match x with
  | Some l => l
  | None => d
  end.

(** [JSON.parse(response.text || '{}')] *)
Definition JSON_parse {S : Type} (text : ResponseText) : Js S JsonValue :=
  match text with
  | NoText => ret (JsonObject None None None)
  | Malformed => throw (ErrorMsg "SyntaxError")
  | Parses v => ret v
  end.

Definition gradeCall (transcript : string) (persona : Persona) (lang : Language)
  : JsP Grading :=
  tryCatch
    (b <- gets page_browser ;;
     match GEMINI_API_KEY (env b) with
     | None => throw (ErrorMsg "Missing API Key")
     | Some apiKey =>
         if String.eqb apiKey "" then throw (ErrorMsg "Missing API Key")
         else
           match generateContent (env b) transcript persona lang with
           | RequestError e => throw e
           | Response text =>
               result <- JSON_parse text ;;
               match result with
               | JsonNull => throw TypeError
               | JsonObject score rubric summary =>
                   ret (mkGrading (numberOr score 0) (arrayOr rubric [])
                                  (stringOr summary "No summary available."))
               end
           end
     end)
    (fun _ =>
       ret (mkGrading 50
              [mkRubricItem "System Error" 0 "Could not analyze transcript."]
              "Error grading call. Please try again.")).

(** [App.handleEndCall] *)
Definition handleEndCall (transcript : string) : JsP unit :=
  a <- gets app ;;
  match selectedPersona a with
  | None => ret tt
  | Some selected =>
      onApp (set_isProcessing true) ;;
      grading <- gradeCall transcript selected (language a) ;;
      b <- gets page_browser ;;
      let newSession :=
        mkCallSession (NilZero.string_of_int (Z.to_int (dateNow (env b))))
                      (dateNow (env b)) (playerName a) (persona_id selected)
                      0 transcript (grading_score grading)
                      (grading_rubric grading) (grading_summary grading) in
      let newSessions := newSession :: sessions_history a in
      onApp (set_sessions_history newSessions) ;;
      onApp (set_coldcall_sessions (Some newSessions)) ;;
      onApp (set_currentSession (Some newSession)) ;;
      onApp (set_isProcessing false) ;;
      onApp (set_appState FEEDBACK)
  end.

(** ** The call screen's handlers *)

(** [err.message] *)
Definition error_message (e : JsError) : string :=
  match e with
  | ErrorMsg m => m
  | NotAllowedError => "Permission denied"
  | InvalidStateError => "The object is in an invalid state."
  | RangeError => "Invalid typed array length"
  | TypeError => "Cannot read properties of null"
  end.

Definition API_KEY_NOT_FOUND : string :=
  "API Key not found. Please check your deployment settings. Ensure you have set 'GEMINI_API_KEY' in your environment variables.".

Definition startCall : JsP unit :=
  tryCatch
    (b <- gets page_browser ;;
     match GEMINI_API_KEY (env b) with
     | None => throw (ErrorMsg API_KEY_NOT_FOUND)
     | Some apiKey =>
         if String.eqb apiKey "" then throw (ErrorMsg API_KEY_NOT_FOUND)
         else
           onCall (set_clientObj (Some newLiveClient)) ;;
           onCall (set_liveClientRef true) ;;
           onClient connect ;;
           c <- gets activeCall ;;
           if ignore c then onClient disconnect
           else
             when (isMountedRef c)
               (onCall (set_status connected) ;;
                onCall (set_timerRef (Some 1%nat)) ;;
                onCall (set_intervalArmed true))
     end)
    (fun err =>
       c <- gets activeCall ;;
       when (isMountedRef c && negb (ignore c))
         (onCall (set_status error) ;;
          onCall (set_errorMessage
                    (stringOr (Some (error_message err)) "Connection failed")))).

(** The callback of the one-second interval. *)
Definition tick : JsP unit :=
  c <- gets activeCall ;;
  when (intervalArmed c && isMountedRef c)
       (onCall (fun c => set_call_duration (S (call_duration c)) c)).

(** The function returned by the effect: runs when the component unmounts. *)
Definition cleanup : JsP unit :=
  onCall (set_ignore true) ;;
  onCall (set_isMountedRef false) ;;
  (c <- gets activeCall ;;
   match timerRef c with
   | Some _ => onCall (set_intervalArmed false) ;; onCall (set_timerRef None)
   | None => ret tt
   end) ;;
  (c <- gets activeCall ;;
   match clientObj c with
   | Some _ => tryCatch (onClient disconnect) (fun _ => ret tt)
   | None => ret tt
   end) ;;
  onCall (set_liveClientRef false).

(** [onEndCall(t)]: the prop is [App.handleEndCall]. *)
Definition onEndCall (t : string) : JsP unit :=
  onCall (fun c => set_onEndCall_calls (onEndCall_calls c ++ [t]) c) ;;
  handleEndCall t.

Definition handleHangUp : JsP unit :=
  (c <- gets activeCall ;;
   when (liveClientRef c) (tryCatch (onClient disconnect) (fun _ => ret tt))) ;;
  (c <- gets activeCall ;;
   match timerRef c with
   | Some _ => onCall (set_intervalArmed false)
   | None => ret tt
   end) ;;
  c <- gets activeCall ;;
  onEndCall (transcriptRef c).

(** [haystack.includes(needle)] *)
Fixpoint includes (needle haystack : string) : bool :=
  if String.prefix needle haystack then true
  else match haystack with
       | EmptyString => false
       | String _ rest => includes needle rest
       end.

Definition END_CALL : string := "[[END_CALL]]".

(** [setTimeout(cb, delay)] *)
Definition setTimeout (cb : TimerAction) (delay : Z) : JsP unit :=
  onCall (fun c => set_timeouts (timeouts c ++ [((clock c + delay)%Z, cb)]) c).

(** [`${isUser ? 'You' : persona.name}: ${text}\n`] *)
Definition transcriptLine (persona : Persona) (text : string) (isUser : bool) : string :=
  ((if isUser then "You" else persona_name persona)
     ++ ": " ++ text ++ String "010" EmptyString)%string.

(** The [onTranscript] callback handed to the client. *)
Definition onTranscript (text : string) (isUser : bool) : JsP unit :=
  c <- gets activeCall ;;
  when (isMountedRef c)
    (let line := transcriptLine (persona c) text isUser in
     onCall (fun c => set_transcriptRef (transcriptRef c ++ line) c) ;;
     onCall (fun c => set_transcript (transcript c ++ line) c) ;;
     when (negb isUser && includes END_CALL text) (setTimeout HangUp 3000)).

Definition handleToggleMute : JsP unit :=
  c <- gets activeCall ;;
  let newState := negb (isMuted c) in
  onCall (set_isMuted newState) ;;
  when (liveClientRef c) (onClient (setMute newState)).

(** The event loop: the clock reaches [t] and every timeout whose delay has
    elapsed by then runs, in registration order; none runs earlier. *)
Definition runAction (a : TimerAction) : JsP unit :=
  match a with
  | HangUp => handleHangUp
  end.

Definition isDue (now : Z) (t : Z * TimerAction) : bool := Z.leb (fst t) now.

Definition advanceTo (t : Z) : JsP unit :=
  onCall (fun c => set_clock (Z.max (clock c) t) c) ;;
  c <- gets activeCall ;;
  onCall (set_timeouts (List.filter (fun d => negb (isDue (clock c) d)) (timeouts c))) ;;
  forEach (List.filter (isDue (clock c)) (timeouts c)) (fun d => runAction (snd d)).

(** ** The capture callback ([handleOpen], lines 105-131) *)

Module Capture.

Local Open Scope R_scope.

(** JavaScript numbers are read as real numbers here: the loudness estimate
    needs a square root.  The script processor delivers frames of 2048
    samples; on the empty frame the quotient is [NaN] in JavaScript and [0]
    here, and neither exceeds the threshold. *)
Definition sumSquares (inputData : list R) : R :=
  fold_left (fun sum x => sum + x * x) inputData 0.

Definition rms (inputData : list R) : R :=
  sqrt (sumSquares inputData / INR (length inputData)).

(** [createPcmBlob(inputData, sampleRate)] of [utils/audioUtils] is not part
    of the sources embedded here; the frame handed to it is kept as it is. *)
Record PcmBlob : Type := createPcmBlob {
  blob_samples : list R;
  blob_sampleRate : positive
}.

Inductive CaptureEffect : Type :=
| onAudioData (visualizerValue : R)
| sendRealtimeInput (media : PcmBlob).

Definition sampleRate (b : Browser) (ctx : nat) : positive :=
  match contexts b !! ctx with
  | Some c => ctx_sampleRate c
  | None => 1%positive
  end.

Definition onaudioprocess (s : Machine) (inputData : list R) : list CaptureEffect :=
  match inputAudioContext (this s) with
  | None => []
  | Some ctx =>
      (if Rlt_dec (1 / 100) (rms inputData)
       then [onAudioData (Rmin 1 (rms inputData * 5))]
       else [])
      ++ match sessionPromise (this s) with
         | Some p =>
             match promises (browser s) !! p with
             | Some (fulfilled _) =>
                 [sendRealtimeInput (createPcmBlob inputData (sampleRate (browser s) ctx))]
             | _ => []
             end
         | None => []
         end
  end.

End Capture.

Open Scope string_scope.
Open Scope list_scope.

(** ** Notions used in the statements *)

(** [f] applied at every index of [ids], in order. *)
Definition alterAll {A : Type} (f : A -> A) (ids : list nat) (l : list A) : list A :=
  fold_left (fun acc id => alter f id acc) ids l.

(** The audio tracks of the client's stream, if it holds one. *)
Definition micTracks (s : Machine) : list nat :=
  match stream (this s) with
  | Some st => getAudioTracks (browser s) st
  | None => []
  end.

(** A source that has been started and not stopped can still sound. *)
Definition audible (src : AudioBufferSourceNode) : bool :=
  match src_startAt src with
  | Some _ => negb (src_stopped src)
  | None => false
  end.

(** What [try { source.stop() } catch (e) {}] leaves of a source. *)
Definition stopIfStarted (src : AudioBufferSourceNode) : AudioBufferSourceNode :=
  match src_startAt src with
  | Some _ => mkSource (src_context src) (src_buffer src) (src_connected src)
                       (src_startAt src) true
  | None => src
  end.

(** The client after [disconnect]: every reference dropped. *)
Definition released (c : LiveClient) : LiveClient :=
  mkLiveClient None None (nextStartTime c) None None None None false [].

(** Sample data for the worked instances. *)
Definition sampleEnv : Environment :=
  mkEnvironment true true true 48000 (Some "key"%string) 1730505600000
    (fun _ _ _ => Response (Parses (JsonObject (Some 87%Z) None (Some "Good call."%string)))).

Definition emptyBrowser (e : Environment) : Browser :=
  mkBrowser [] [] [] [] [] [] 0 e.

Definition freshMachine (e : Environment) : Machine :=
  mkMachine (emptyBrowser e) newLiveClient [].

(** The machine once [connect] has gone through. *)
Definition connectedMachine : Machine := snd (connect (freshMachine sampleEnv)).

(** What [disconnect] leaves of each table of the store. *)
Definition closeCtx (f : option nat) (l : list AudioContext) : list AudioContext :=
  match f with
  | Some id => alter (with_ctx_state closed) id l
  | None => l
  end.

Definition discNode (f : option nat) (l : list AudioNode) : list AudioNode :=
  match f with
  | Some n => alter (fun x => mkNode (node_kind x) 0) n l
  | None => l
  end.

Definition stopTracks (f : option MediaStream) (l : list MediaStreamTrack)
  : list MediaStreamTrack :=
  match f with
  | Some st => alterAll with_ended (getTracks st) l
  | None => l
  end.

Definition closeSettled (f : option nat) (b : Browser) : list LiveSession :=
  match f with
  | Some p =>
      match promises b !! p with
      | Some (fulfilled sid) => alter (fun _ => mkSession true) sid (sessions b)
      | _ => sessions b
      end
  | None => sessions b
  end.

Definition disconnected (s : Machine) : Machine :=
  mkMachine
    (mkBrowser
       (closeCtx (outputAudioContext (this s))
          (closeCtx (inputAudioContext (this s)) (contexts (browser s))))
       (stopTracks (stream (this s)) (tracks (browser s)))
       (alterAll stopIfStarted (audioQueue (this s)) (sources (browser s)))
       (discNode (scriptProcessor (this s))
          (discNode (sourceNode (this s)) (nodes (browser s))))
       (closeSettled (sessionPromise (this s)) (browser s))
       (promises (browser s)) (micRequests (browser s)) (env (browser s)))
    (released (this s)) (calls s).

(** The machine once [scheduleBuffer buf] has run with output context [octx]. *)
Definition scheduledMachine (octx : nat) (buf : AudioBuffer) (s : Machine) : Machine :=
  let start := lifted (nextStartTime (this s)) (currentTime (browser s) octx) in
  mkMachine
    (set_sources
       (sources (browser s) ++ [mkSource octx (Some buf) true (Some start) false])
       (browser s))
    (set_nextStartTime (start + duration buf)%Q
       (set_audioQueue (audioQueue (this s) ++ [length (sources (browser s))]) (this s)))
    (calls s).

(** The invariant of a quiet stretch that started with [n] sources in the
    store: the sources created since do not overlap and all end at or before
    the cursor. *)
Definition playback_inv (n : nat) (s : Machine) : Prop :=
  n <= length (sources (browser s))
  /\ no_overlap (drop n (sources (browser s)))
  /\ (forall i si a b, drop n (sources (browser s)) !! i = Some si ->
        interval si = Some (a, b) -> (b <= nextStartTime (this s))%Q).

(** The machine once the interruption block has run with output context
    [octx]. *)
Definition interruptedMachine (octx : nat) (s : Machine) : Machine :=
  mkMachine
    (set_sources (alterAll stopIfStarted (audioQueue (this s)) (sources (browser s)))
                 (browser s))
    (set_nextStartTime (currentTime (browser s) octx) (set_audioQueue [] (this s)))
    (calls s).

(** Sample traffic: a tenth of a second of silence at 24 kHz, 16 bit. *)
Definition silence100ms : list Byte.byte := repeat Byte.x00 4800.

Definition audioMessage (data : list Byte.byte) : LiveServerMessage :=
  mkMessage None None (Some data) false.

Definition sampleEvents : list Event :=
  [Elapse (1 # 2); Inbound (audioMessage silence100ms);
   Inbound (audioMessage silence100ms); Elapse 1;
   Inbound (mkMessage None (Some "Hello."%string) None false);
   Inbound (audioMessage silence100ms)].

(** The connected machine with one chunk playing. *)
Definition playingMachine : Machine :=
  run pcm16Decoder connectedMachine
      [Elapse (1 # 2); Inbound (audioMessage silence100ms)].

(** The grading call fails: no API key, the request is refused, or the
    response text does not parse to an object. *)
Definition gradingFails (e : Environment) (transcript : string) (persona : Persona)
  (lang : Language) : bool :=
  match GEMINI_API_KEY e with
  | None => true
  | Some apiKey =>
      if String.eqb apiKey "" then true
      else match generateContent e transcript persona lang with
           | RequestError _ => true
           | Response Malformed => true
           | Response (Parses JsonNull) => true
           | Response _ => false
           end
  end.

(** The value of the [catch] branch of [gradeCall]. *)
Definition degradedGrading : Grading :=
  mkGrading 50 [mkRubricItem "System Error" 0 "Could not analyze transcript."]
            "Error grading call. Please try again.".

(** The record [handleEndCall] builds from a grading. *)
Definition recordOf (p : Page) (selected : Persona) (transcript : string) (g : Grading)
  : CallSession :=
  mkCallSession (NilZero.string_of_int (Z.to_int (dateNow (env (page_browser p)))))
                (dateNow (env (page_browser p))) (playerName (app p))
                (persona_id selected) 0 transcript (grading_score g)
                (grading_rubric g) (grading_summary g).

Definition samplePersona : Persona :=
  mkPersona "p1" "Mr. Johnson (Location)" "Group Leader" "School Trip" "Normal"
            "Curious about hotel location." ["Why are we 1 hour away?"%string]
            "You are Mr. Johnson." "https://api.dicebear.com/7.x/avataaars/svg?seed=Johnson".

(** The component as it mounts: the initial values of its state and refs. *)
Definition mountedCall (persona : Persona) : ActiveCall :=
  mkActiveCall persona connecting 0 "" false "" None false None false "" true false [] 0 [].

Definition samplePage (e : Environment) : Page :=
  mkPage (emptyBrowser e)
         (mkApp IN_CALL en (Some samplePersona) None [] "Ann" false None)
         (mountedCall samplePersona).

(** An environment without the API key; one that refuses the microphone; one
    whose remote end rejects the session. *)
Definition envNoKey : Environment :=
  mkEnvironment true true true 48000 None 1730505600000
    (fun _ _ _ => RequestError (ErrorMsg "unreachable")).
Definition envMicDenied : Environment :=
  mkEnvironment true false true 48000 (Some "key"%string) 1730505600000
    (fun _ _ _ => RequestError (ErrorMsg "unreachable")).
Definition envRejected : Environment :=
  mkEnvironment true true false 48000 (Some "key"%string) 1730505600000
    (fun _ _ _ => RequestError (ErrorMsg "unreachable")).

(** [k] ticks of the interval, one after the other. *)
Fixpoint ticks (k : nat) : JsP unit :=
  match k with
  | O => ret tt
  | S k' => tick ;; ticks k'
  end.

(** The page once the client of the call screen has been disconnected
    through [liveClientRef] (nothing happens when the ref is empty). *)
Definition afterDisconnect (p : Page) : Page :=
  match liveClientRef (activeCall p), clientObj (activeCall p) with
  | true, Some c =>
      mkPage (browser (disconnected (mkMachine (page_browser p) c [])))
             (app p)
             (set_clientObj (Some (released c)) (activeCall p))
  | _, _ => p
  end.

(** [if (timerRef.current) clearInterval(timerRef.current)] *)
Definition disarm (a : ActiveCall) : ActiveCall :=
  match timerRef a with
  | Some _ => set_intervalArmed false a
  | None => a
  end.

(** The page [handleHangUp] hands to [App.handleEndCall]: client
    disconnected, interval disarmed, the call on the prop recorded. *)
Definition hungUp (p : Page) : Page :=
  let q := afterDisconnect p in
  mkPage (page_browser q) (app q)
         (set_onEndCall_calls
            (onEndCall_calls (activeCall q) ++ [transcriptRef (activeCall q)])
            (disarm (activeCall q))).

(** A connected call that has lasted five seconds, with one line of
    transcript. *)
Definition fiveSecondCall : Page :=
  snd (onTranscript "Hey TD, I have a question about the hotel." false
         (snd (ticks 5 (snd (startCall (samplePage sampleEnv)))))).

(** A context that has been created and resumed. *)
Definition resumedContext (b : Browser) : AudioContext :=
  mkAudioContext running 0 (deviceSampleRate (env b)).

(** The machine [connect] leaves when the microphone is refused: both
    contexts exist and run, nothing else was acquired. *)
Definition micRefused (b : Browser) (cl : list ConfigCall) : Machine :=
  mkMachine
    (mkBrowser (contexts b ++ [resumedContext b; resumedContext b])
               (tracks b) (sources b) (nodes b) (sessions b) (promises b)
               (S (micRequests b)) (env b))
    (mkLiveClient (Some (length (contexts b))) (Some (S (length (contexts b)))) 0
                  None None None None false [])
    cl.

(** The machine [connect] leaves when the remote end rejects the session:
    both contexts run, the microphone track is live, the promise is
    rejected. *)
Definition sessionRefused (b : Browser) (cl : list ConfigCall) : Machine :=
  mkMachine
    (mkBrowser (contexts b ++ [resumedContext b; resumedContext b])
               (tracks b ++ [mkTrack AudioTrack true false])
               (sources b) (nodes b) (sessions b)
               (promises b ++ [rejected (ErrorMsg "session rejected")])
               (S (micRequests b)) (env b))
    (mkLiveClient (Some (length (contexts b))) (Some (S (length (contexts b)))) 0
                  (Some [length (tracks b)]) (Some (length (promises b)))
                  None None false [])
    cl.

(** The page once [startCall] has caught the failure [e] of a [connect]
    that left the machine [m]. *)
Definition failedCall (p : Page) (m : Machine) (e : JsError) : Page :=
  mkPage (browser m) (app p)
    (set_errorMessage (stringOr (Some (error_message e)) "Connection failed")
       (set_status error
          (set_clientObj (Some (this m))
             (set_liveClientRef true
                (set_clientObj (Some newLiveClient) (activeCall p)))))).

(** [if (timerRef.current) { clearInterval(...); timerRef.current = null }] *)
Definition stopTimer (a : ActiveCall) : ActiveCall :=
  match timerRef a with
  | Some _ => set_timerRef None (set_intervalArmed false a)
  | None => a
  end.

(** The page once the effect's cleanup has run. *)
Definition unmounted (p : Page) : Page :=
  let a := stopTimer (set_isMountedRef false (set_ignore true (activeCall p))) in
  match clientObj (activeCall p) with
  | Some cl =>
      mkPage (browser (disconnected (mkMachine (page_browser p) cl []))) (app p)
             (set_liveClientRef false (set_clientObj (Some (released cl)) a))
  | None => mkPage (page_browser p) (app p) (set_liveClientRef false a)
  end.

(** ** Notions used in the proofs *)

(** [runs m f]: from every state, [m] completes normally in state [f s]. *)
Definition runs {S : Type} (m : Js S unit) (f : S -> S) : Prop :=
  forall s, m s = (Normal tt, f s).

(** An update of one table of the store. *)
Definition onTracks (f : list MediaStreamTrack -> list MediaStreamTrack) (s : Machine)
  : Machine :=
  mkMachine (set_tracks (f (tracks (browser s))) (browser s)) (this s) (calls s).

Definition onSources
  (f : list AudioBufferSourceNode -> list AudioBufferSourceNode) (s : Machine) : Machine :=
  mkMachine (set_sources (f (sources (browser s))) (browser s)) (this s) (calls s).

(** A bare interruption event. *)
Definition interruption : LiveServerMessage := mkMessage None None None true.

(** The ways [connect] can fail at the start of a call. *)
Inductive ConnectFailure : Type :=
| NoCredential
| NoAudioContext
| MicrophoneRefused
| SessionRejected.

Definition connectFailure (e : Environment) : option ConnectFailure :=
  match GEMINI_API_KEY e with
  | None => Some NoCredential
  | Some apiKey =>
      if String.eqb apiKey "" then Some NoCredential
      else if negb (audioContextSupported e) then Some NoAudioContext
      else if negb (microphoneGranted e) then Some MicrophoneRefused
      else if negb (remoteAccepts e) then Some SessionRejected
      else None
  end.

(** What the client holds, and the store with it, when the failure is
    surfaced. *)
Definition heldAtFailure (f : ConnectFailure) (p : Page) : option Machine :=
  match f with
  | NoCredential => None
  | NoAudioContext => Some (mkMachine (page_browser p) newLiveClient [])
  | MicrophoneRefused => Some (micRefused (page_browser p) [])
  | SessionRejected => Some (sessionRefused (page_browser p) [])
  end.

(** ** A connection that goes through, and the traffic it carries *)

(** The machine [connect] leaves on a new client when the platform has audio
    contexts, the microphone is granted and the remote end accepts: two
    running contexts, one live microphone track, an open session behind a
    fulfilled promise, and the capture chain of [handleOpen], each node
    connected once. *)
Definition established (b : Browser) (cl : list ConfigCall) : Machine :=
  mkMachine
    (mkBrowser (contexts b ++ [resumedContext b; resumedContext b])
               (tracks b ++ [mkTrack AudioTrack true false])
               (sources b)
               (nodes b ++ [mkNode (MediaStreamSource [length (tracks b)]) 1;
                            mkNode (ScriptProcessor 2048 1 1) 1])
               (sessions b ++ [mkSession false])
               (promises b ++ [fulfilled (length (sessions b))])
               (S (micRequests b)) (env b))
    (mkLiveClient (Some (length (contexts b))) (Some (S (length (contexts b)))) 0
                  (Some [length (tracks b)]) (Some (length (promises b)))
                  (Some (S (length (nodes b)))) (Some (length (nodes b))) true [])
    cl.

(** The callbacks one message triggers on a client that has an output
    context, in the order of the calls: the two transcripts, then the level of
    the model's audio, which is reported before the payload is decoded. *)
Definition callbacksOf (m : LiveServerMessage) : list ConfigCall :=
  match inputTranscription m with
  | Some text => [onTranscript_call text true]
  | None => []
  end
  ++ match outputTranscription m with
     | Some text => [onTranscript_call text false]
     | None => []
     end
  ++ match modelAudio m with
     | Some audioData =>
         if Nat.odd (length audioData) then [] else [onAudioData_model audioData]
     | None => []
     end.

Section InboundOutcome.

Variable decodeAudioData : list Byte.byte -> positive -> nat -> Completion AudioBuffer.

(** The machine once [handleMessage] has returned. *)
Definition afterMessage (s : Machine) (m : LiveServerMessage) : Machine :=
  match outputAudioContext (this s) with
  | None => s
  | Some octx =>
      let s1 := mkMachine (browser s) (this s) (calls s ++ callbacksOf m) in
      let flush := fun x : Machine =>
                     if interrupted m then interruptedMachine octx x else x in
      match modelAudio m with
      | None => flush s1
      | Some audioData =>
          if Nat.odd (length audioData) then s1
          else match decodeAudioData audioData 24000%positive 1 with
               | Normal audioBuffer => flush (scheduledMachine octx audioBuffer s1)
               | Thrown _ => s1
               end
      end
  end.

End InboundOutcome.

(** Every queued source is in the store and has been started, and no source
    is queued twice. *)
Definition queue_inv (s : Machine) : Prop :=
  NoDup (audioQueue (this s))
  /\ (forall id, id ∈ audioQueue (this s) ->
        exists src, sources (browser s) !! id = Some src /\ is_Some (src_startAt src)).

(** What [disconnect] leaves of an established connection: the same store
    with every resource of the connection released. *)
Definition torndown (b : Browser) (cl : list ConfigCall) : Machine :=
  mkMachine
    (mkBrowser (contexts b ++ [mkAudioContext closed 0 (deviceSampleRate (env b));
                               mkAudioContext closed 0 (deviceSampleRate (env b))])
               (tracks b ++ [mkTrack AudioTrack true true])
               (sources b)
               (nodes b ++ [mkNode (MediaStreamSource [length (tracks b)]) 0;
                            mkNode (ScriptProcessor 2048 1 1) 0])
               (sessions b ++ [mkSession true])
               (promises b ++ [fulfilled (length (sessions b))])
               (S (micRequests b)) (env b))
    newLiveClient cl.

(** ** The call screen, further *)

(** The page once [startCall] has seen [connect] go through and leave the
    machine [m], on a screen that is still mounted: the call is connected
    and the one-second interval is armed. *)
Definition connectedCall (p : Page) (m : Machine) : Page :=
  mkPage (browser m) (app p)
    (set_intervalArmed true
       (set_timerRef (Some 1%nat)
          (set_status connected
             (set_clientObj (Some (this m))
                (set_liveClientRef true
                   (set_clientObj (Some newLiveClient) (activeCall p))))))).

(** The page once [startCall] has seen [connect] go through with the flag
    [ignore] set: the client is disconnected again and nothing else changes. *)
Definition abandonedCall (p : Page) (m : Machine) : Page :=
  mkPage (browser (disconnected (mkMachine (browser m) (this m) []))) (app p)
    (set_clientObj (Some (released (this m)))
       (set_liveClientRef true (set_clientObj (Some newLiveClient) (activeCall p)))).

(** The button of the error screen: [onClick={() => onEndCall('')}]. *)
Definition returnToDashboard : JsP unit := onEndCall "".

(** ** Grading, further *)

(** The value [gradeCall] resolves to: the fixed grading of the [catch]
    branch when the call fails, and otherwise the fields of the parsed
    reply, each with its [||] default ([response.text || '{}'] makes a
    reply without text the empty object). *)
Definition gradingOf (e : Environment) (transcript : string) (persona : Persona)
  (lang : Language) : Grading :=
  if gradingFails e transcript persona lang then degradedGrading
  else match generateContent e transcript persona lang with
       | Response (Parses (JsonObject score rubric summary)) =>
           mkGrading (numberOr score 0) (arrayOr rubric [])
                     (stringOr summary "No summary available.")
       | _ => mkGrading 0 [] "No summary available."
       end.

(** [validateApiKey]: [!!process.env.GEMINI_API_KEY]. *)
Definition validateApiKey (e : Environment) : bool :=
  match GEMINI_API_KEY e with
  | Some apiKey => negb (String.eqb apiKey "")
  | None => false
  end.

(** ** The duration shown on the call screen ([formatTime]) *)

(** [n.toString()] for a non-negative integer. *)
Definition toString (n : nat) : string := NilZero.string_of_uint (Nat.to_uint n).

(** [s.padStart(targetLength, c)] with a pad of one character. *)
Definition padStart (targetLength : nat) (c : ascii) (s : string) : string :=
  string_of_list_ascii (repeat c (targetLength - String.length s)) ++ s.

Definition formatTime (seconds : nat) : string :=
  let mins := Nat.div seconds 60 in
  let secs := Nat.modulo seconds 60 in
  toString mins ++ ":" ++ padStart 2 "0" (toString secs).

(** The character of a decimal digit. *)
Definition digit (d : nat) : ascii := ascii_of_nat (48 + d).

(** ** The level meter: the model's audio ([handleMessage], lines 156-165),
    the smoothing of [ActiveCall.tsx] and [renderVisualizer] *)

Module Meter.

Local Open Scope R_scope.
















End Meter.

(** ** The leaderboard ([Leaderboard], given the [sessions] of [App]) *)

Section Sort.

Variable A : Type.
Variable compareFn : A -> A -> Z.

(** [x] goes before the first element that [compareFn] does not put
    before it. *)
Fixpoint insertSorted (x : A) (l : list A) : list A :=
  match l with
  | [] => [x]
  | y :: rest =>
      if (compareFn x y <=? 0)%Z then x :: l else y :: insertSorted x rest
  end.

(** [[...l].sort(compareFn)].  The sort of the platform is stable; it is
    modelled as insertion from the right, which is stable too. *)
Definition sort (l : list A) : list A := fold_right insertSorted [] l.

End Sort.

(** The comparison function of the leaderboard. *)
Definition byScoreThenTime (a b : CallSession) : Z :=
  if negb (Z.eqb (overallScore b) (overallScore a))
  then (overallScore b - overallScore a)%Z
  else (timestamp b - timestamp a)%Z.

Definition sorted (sessions : list CallSession) : list CallSession :=
  sort byScoreThenTime sessions.

(** [a] may stand above [b] on the board: a higher score, or the same score
    and not older. *)
Definition ranksAbove (a b : CallSession) : Prop :=
  (overallScore b < overallScore a)%Z
  \/ (overallScore a = overallScore b /\ (timestamp b <= timestamp a)%Z).

(** ** The global leaderboard ([services/supabaseClient],
    [components/Leaderboard.tsx]) *)

Record LeaderboardEntry : Type := mkEntry {
  entry_id : option string;
  player_name : string;
  entry_persona_id : string;
  score : Z;
  entry_summary : option string;
  entry_transcript : option string;
  entry_rubric : option string;
  duration_seconds : option Z;
  created_at : option string
}.

(** How the query of [getLeaderboard] ends: it throws, or it returns
    [{ data, error }]. *)
Inductive QueryOutcome : Type :=
| QueryThrows (e : JsError)
| QueryReturns (data : option (list LeaderboardEntry)) (hasError : bool).

(** The exported [supabase]: [null] without the environment variables, and
    otherwise a client, of which only the leaderboard query with its limit
    is used here. *)
Definition Supabase : Type := option (nat -> QueryOutcome).

(** [getLeaderboard(limit)]: it never rejects. *)
Definition getLeaderboard (supabase : Supabase) (limit : nat) : list LeaderboardEntry :=
  match supabase with
  | None => []
  | Some query =>
      match query limit with
      | QueryThrows _ => []
      | QueryReturns data hasError =>
          if hasError then []
          else match data with
               | Some entries => entries
               | None => []
               end
      end
  end.

(** The item [coldcall_sessions] of local storage as [fetchLeaderboard]
    meets it. *)
Inductive SavedItem : Type :=
| Absent                      (* null or the empty string *)
| Unparsable                  (* JSON.parse throws *)
| Saved (sessions : list CallSession).

Section Board.

(** [new Date(t).toISOString()] belongs to the platform; it throws on a time
    out of range. *)
Variable toISOString : Z -> Completion string.

Definition entryOf (s : CallSession) : Completion LeaderboardEntry :=
  match toISOString (timestamp s) with
  | Normal iso =>
      Normal (mkEntry (Some (session_id s)) (session_playerName s) (personaId s)
                      (overallScore s) (Some (summary s)) None None None (Some iso))
  | Thrown e => Thrown e
  end.

(** [sessions.map(s => ({...}))] *)
Fixpoint mapEntries (sessions : list CallSession) : Completion (list LeaderboardEntry) :=
  match sessions with
  | [] => Normal []
  | s :: rest =>
      match entryOf s with
      | Normal entry =>
          match mapEntries rest with
          | Normal entries => Normal (entry :: entries)
          | Thrown e => Thrown e
          end
      | Thrown e => Thrown e
      end
  end.

(** [fetchLeaderboard], step 2: [localData] stays empty when the item is
    missing or anything in the [try] block throws. *)
Definition localData (saved : SavedItem) : list LeaderboardEntry :=
  match saved with
  | Saved sessions =>
      match mapEntries sessions with
      | Normal entries => entries
      | Thrown _ => []
      end
  | _ => []
  end.

(** The comparison function of [combined.sort]. *)
Definition byScore (a b : LeaderboardEntry) : Z := (score b - score a)%Z.

(** [fetchLeaderboard]: the value given to [setEntries]. *)
Definition fetchLeaderboard (supabase : Supabase) (saved : SavedItem)
  : list LeaderboardEntry :=
  let globalData := getLeaderboard supabase 20 in
  let combined := globalData ++ localData saved in
  take 20 (sort byScore combined).

End Board.

(** ** From the client's callbacks to the call screen *)

(** The [config] object that [startCall] hands to the client (lines 41-67),
    applied to one logged call.  [onAudioData] only moves the level meter,
    which is kept apart ([Meter.smooth]); [onClose] only writes to the
    console. *)
Definition deliver (c : ConfigCall) : JsP unit :=
  match c with
  | onTranscript_call text isUser => onTranscript text isUser
  | onAudioData_model _ => ret tt
  | onClose_call => ret tt
  end.

(** The lines that a sequence of callbacks adds to the transcript. *)
Fixpoint linesOf (persona : Persona) (cs : list ConfigCall) : string :=
  match cs with
  | [] => ""
  | onTranscript_call text isUser :: rest =>
      transcriptLine persona text isUser ++ linesOf persona rest
  | _ :: rest => linesOf persona rest
  end.

(** The remote end closes the session: the SDK calls [handleClose], which
    calls the screen's [onClose]. *)
Definition remoteClose : JsP unit :=
  onClient handleClose ;; deliver onClose_call.

(** ** Playback across interruptions *)

(** The source has finished playing by the clock of context [octx]. *)
Definition ended_by_now (s : Machine) (octx : nat) (src : AudioBufferSourceNode) : Prop :=
  match interval src with
  | Some (_, b) => (b <= currentTime (browser s) octx)%Q
  | None => True
  end.

(** An event that can occur in state [s]: time does not run backwards, and
    the platform fires [onended] for a source only once its buffer has
    played to the end. *)
Definition timely (s : Machine) (octx : nat) (e : Event) : Prop :=
  match e with
  | Elapse dt => (0 <= dt)%Q
  | Inbound _ => True
  | Ended id => forall src, sources (browser s) !! id = Some src -> ended_by_now s octx src
  end.

Section Timely.

Variable decodeAudioData : list Byte.byte -> positive -> nat -> Completion AudioBuffer.

Fixpoint timely_run (s : Machine) (octx : nat) (es : list Event) : Prop :=
  match es with
  | [] => True
  | e :: rest => timely s octx e /\ timely_run (step decodeAudioData s e) octx rest
  end.

End Timely.

(** The invariant of playback on the output context [octx], for the sources
    created since the store held [n] of them: a source that can still sound
    ends at or before the cursor or the clock, is queued unless it has
    played to the end, and ends before any later such source starts. *)
Definition sounding_inv (n octx : nat) (s : Machine) : Prop :=
  outputAudioContext (this s) = Some octx
  /\ (forall id src, n <= id -> sources (browser s) !! id = Some src ->
        audible src = true ->
        exists a b, interval src = Some (a, b)
                    /\ ((b <= nextStartTime (this s))%Q
                        \/ (b <= currentTime (browser s) octx)%Q)
                    /\ (id ∈ audioQueue (this s)
                        \/ (b <= currentTime (browser s) octx)%Q))
  /\ (forall i j si sj a b a' b',
        n <= i -> i < j ->
        sources (browser s) !! i = Some si -> sources (browser s) !! j = Some sj ->
        audible si = true -> audible sj = true ->
        interval si = Some (a, b) -> interval sj = Some (a', b') -> (b <= a')%Q).

(** Sample traffic with an interruption: two chunks, the first plays to its
    end, then a message that carries a chunk and the interruption flag,
    then another chunk. *)
Definition interruptedEvents : list Event :=
  [Elapse (1 # 2); Inbound (audioMessage silence100ms);
   Inbound (audioMessage silence100ms); Elapse (1 # 4); Ended 0;
   Inbound (mkMessage None None (Some silence100ms) true);
   Inbound (audioMessage silence100ms)].

(** ** A call as the screen sees it *)

(** Something happens to the client of the call screen, and the [config]
    callbacks the client makes meanwhile run on the screen, in the order of
    the calls.  The screen's callbacks touch neither the client nor the
    store, so running them once the client's handler has returned gives the
    state that running each at its call gives.  Without a client there is
    nothing to happen. *)
Definition clientEvent (decodeAudioData : list Byte.byte -> positive -> nat -> Completion AudioBuffer)
  (e : Event) : JsP unit :=
  fun p =>
    match clientObj (activeCall p) with
    | None => (Normal tt, p)
    | Some c =>
        let s := step decodeAudioData (mkMachine (page_browser p) c []) e in
        forEach (calls s) deliver
                (mkPage (browser s) (app p)
                        (set_clientObj (Some (this s)) (activeCall p)))
    end.

(** A stretch of a call in which no timeout falls due: events of the
    client, and firings of the one-second interval. *)
Inductive CallEvent : Type :=
| OfClient (e : Event)
| Second.

Definition callStep (decodeAudioData : list Byte.byte -> positive -> nat -> Completion AudioBuffer)
  (p : Page) (e : CallEvent) : Page :=
  match e with
  | OfClient e => snd (clientEvent decodeAudioData e p)
  | Second => snd (tick p)
  end.

Definition callRun (decodeAudioData : list Byte.byte -> positive -> nat -> Completion AudioBuffer)
  (p : Page) (es : list CallEvent) : Page :=
  fold_left (callStep decodeAudioData) es p.

(** The client's share of a stretch, and the number of seconds in it. *)
Fixpoint clientEvents (es : list CallEvent) : list Event :=
  match es with
  | [] => []
  | OfClient e :: rest => e :: clientEvents rest
  | Second :: rest => clientEvents rest
  end.

Fixpoint seconds (es : list CallEvent) : nat :=
  match es with
  | [] => 0
  | OfClient _ :: rest => seconds rest
  | Second :: rest => S (seconds rest)
  end.

(** The timeouts that a sequence of callbacks registers at time [now]: one
    hang-up, three seconds on, for every line of the model that contains
    the end marker. *)
Fixpoint hangUpsDue (now : Z) (cs : list ConfigCall) : list (Z * TimerAction) :=
  match cs with
  | [] => []
  | onTranscript_call text isUser :: rest =>
      (if negb isUser && includes END_CALL text
       then [((now + 3000)%Z, HangUp)] else [])
      ++ hangUpsDue now rest
  | _ :: rest => hangUpsDue now rest
  end.

(** The screen after a stretch that started on the activeCall [a] with the
    application [ap], when the client has reached the machine [s] and the
    interval has fired [k] times. *)
Definition duringCall (ap : App) (a : ActiveCall) (s : Machine) (k : nat) : Page :=
  mkPage (browser s) ap
    (set_call_duration (k + call_duration a)
       (set_timeouts (timeouts a ++ hangUpsDue (clock a) (calls s))
          (set_transcript (transcript a ++ linesOf (persona a) (calls s))
             (set_transcriptRef (transcriptRef a ++ linesOf (persona a) (calls s))
                (set_clientObj (Some (this s)) a))))).

(** Two machines hold the same resources in the same condition: they
    differ at most in the sources, the queue, the cursor, the clocks and
    the callback log. *)
Definition sameHoldings (s s0 : Machine) : Prop :=
  tracks (browser s) = tracks (browser s0)
  /\ nodes (browser s) = nodes (browser s0)
  /\ sessions (browser s) = sessions (browser s0)
  /\ promises (browser s) = promises (browser s0)
  /\ (ctx_state <$> contexts (browser s)) = (ctx_state <$> contexts (browser s0))
  /\ inputAudioContext (this s) = inputAudioContext (this s0)
  /\ outputAudioContext (this s) = outputAudioContext (this s0)
  /\ stream (this s) = stream (this s0)
  /\ sessionPromise (this s) = sessionPromise (this s0)
  /\ scriptProcessor (this s) = scriptProcessor (this s0)
  /\ sourceNode (this s) = sourceNode (this s0).

(** Sample stretch of a call: the persona speaks a chunk with its caption,
    a second passes, the user answers, the persona ends the call. *)
Definition sampleCall : list CallEvent :=
  [OfClient (Elapse (1 # 2));
   OfClient (Inbound (mkMessage None (Some "Hello, who is this?"%string)
                                (Some silence100ms) false));
   Second;
   OfClient (Inbound (mkMessage (Some "It is Ann from TD."%string) None None false));
   OfClient (Inbound (mkMessage None (Some "Not interested. [[END_CALL]]"%string)
                                None false));
   Second].

(** ** A [disconnect] while [connect] is suspended *)





(** * Proofs *)

Unset Implicit Arguments.

(** Close a conjunction of closed equations by evaluation. *)
Ltac evaluate :=
  lazymatch goal with
  | |- _ /\ _ => split; [evaluate|evaluate]
  | |- ~ _ => vm_compute; discriminate
  | |- _ => vm_compute; reflexivity
  end.

(** ** Running computations that cannot fail *)

Lemma runs_seq {S : Type} (m k : Js S unit) (f g : S -> S) :
  runs m f -> runs k g -> runs (m ;; k) (fun s => g (f s)).
Proof.
  intros Hm Hk s. unfold bind. rewrite Hm. apply Hk.
Qed.

Lemma runs_gets {S A : Type} (proj : S -> A) (k : A -> Js S unit) (F : A -> S -> S) :
  (forall a, runs (k a) (F a)) ->
  runs (x <- gets proj ;; k x) (fun s => F (proj s) s).
Proof.
  intros Hk s. unfold bind, gets. apply Hk.
Qed.

Lemma runs_modify {S : Type} (f : S -> S) : runs (modify f) f.
Proof. intros s. reflexivity. Qed.

Lemma runs_ret {S : Type} : runs (ret tt : Js S unit) (fun s => s).
Proof. intros s. reflexivity. Qed.

Lemma runs_ext {S : Type} (m : Js S unit) (f g : S -> S) :
  runs m f -> (forall s, f s = g s) -> runs m g.
Proof. intros Hm Hfg s. rewrite Hm, Hfg. reflexivity. Qed.

Lemma runs_forEach {S A : Type} (step : A -> S -> S) (body : A -> Js S unit) :
  (forall a, runs (body a) (step a)) ->
  forall xs, runs (forEach xs body) (fun s => fold_left (fun acc a => step a acc) xs s).
Proof.
  intros Hbody xs. induction xs as [|x xs IH]; intros s; simpl.
  - reflexivity.
  - unfold bind. rewrite Hbody. apply IH.
Qed.

(** ** Index-wise updates *)

Lemma alterAll_lookup {A : Type} (f : A -> A) (ids : list nat) (l : list A) (id : nat) :
  (forall x, f (f x) = f x) ->
  alterAll f ids l !! id =
    if bool_decide (id ∈ ids) then f <$> l !! id else l !! id.
Proof.
  intros Hf. revert l. induction ids as [|a ids IH]; intros l.
  - reflexivity.
  - unfold alterAll in *. simpl. rewrite IH.
    destruct (decide (a = id)) as [->|Hne].
    + rewrite list_lookup_alter_eq.
      rewrite (bool_decide_eq_true_2 (id ∈ id :: ids)) by apply list_elem_of_here.
      destruct (l !! id) as [x|]; simpl; [rewrite Hf|]; destruct (bool_decide _); reflexivity.
    + rewrite list_lookup_alter_ne by assumption.
      destruct (decide (id ∈ ids)) as [Hin|Hnin].
      * rewrite !bool_decide_eq_true_2; [reflexivity| |assumption].
        apply list_elem_of_further; assumption.
      * rewrite !bool_decide_eq_false_2; [reflexivity| |assumption].
        intros Hin. apply elem_of_cons in Hin. destruct Hin; congruence.
Qed.

Lemma alterAll_length {A : Type} (f : A -> A) (ids : list nat) (l : list A) :
  length (alterAll f ids l) = length l.
Proof.
  revert l. induction ids as [|a ids IH]; intros l; [reflexivity|].
  unfold alterAll in *. simpl. rewrite IH. apply length_alter.
Qed.

(** ** Loops over tracks and sources *)

Lemma onTracks_id (s : Machine) : onTracks (fun l => l) s = s.
Proof. destruct s as [[] ? ?]; reflexivity. Qed.

Lemma onSources_id (s : Machine) : onSources (fun l => l) s = s.
Proof. destruct s as [[] ? ?]; reflexivity. Qed.

Lemma fold_onTracks (f : MediaStreamTrack -> MediaStreamTrack) (ids : list nat) (s : Machine) :
  fold_left (fun acc id => onTracks (alter f id) acc) ids s
  = onTracks (alterAll f ids) s.
Proof.
  revert s. induction ids as [|a ids IH]; intros s; simpl.
  - symmetry. apply onTracks_id.
  - rewrite IH. reflexivity.
Qed.

Lemma fold_onSources (f : AudioBufferSourceNode -> AudioBufferSourceNode)
      (ids : list nat) (s : Machine) :
  fold_left (fun acc id => onSources (alter f id) acc) ids s
  = onSources (alterAll f ids) s.
Proof.
  revert s. induction ids as [|a ids IH]; intros s; simpl.
  - symmetry. apply onSources_id.
  - rewrite IH. reflexivity.
Qed.

Lemma runs_setEnabled_all (v : bool) (ids : list nat) :
  runs (forEach ids (track_setEnabled v)) (onTracks (alterAll (with_enabled v) ids)).
Proof.
  eapply runs_ext.
  - apply (runs_forEach (fun id => onTracks (alter (with_enabled v) id))).
    intros id s. reflexivity.
  - intros s. apply fold_onTracks.
Qed.

Lemma runs_stop_all_tracks (ids : list nat) :
  runs (forEach ids track_stop) (onTracks (alterAll with_ended ids)).
Proof.
  eapply runs_ext.
  - apply (runs_forEach (fun id => onTracks (alter with_ended id))).
    intros id s. reflexivity.
  - intros s. apply fold_onTracks.
Qed.

Lemma alter_fixed {A : Type} (f : A -> A) (i : nat) (l : list A) :
  (forall x, l !! i = Some x -> f x = x) -> alter f i l = l.
Proof.
  revert i. induction l as [|y l IH]; intros i H; [reflexivity|].
  destruct i as [|i]; simpl.
  - f_equal. apply H. reflexivity.
  - f_equal. apply IH. intros x Hx. apply H. exact Hx.
Qed.

(** One guarded [stop()] is [stopIfStarted] at that index. *)
Lemma runs_guarded_stop (id : nat) :
  runs (tryCatch (source_stop id) (fun _ => ret tt)) (onSources (alter stopIfStarted id)).
Proof.
  intros s. unfold tryCatch, source_stop, bind, gets.
  destruct (sources (browser s) !! id) as [src|] eqn:E.
  - destruct (src_startAt src) as [t|] eqn:Et.
    + unfold onSource, onBrowser, modify, onSources. simpl. do 3 f_equal.
      apply list_alter_ext; [|reflexivity].
      intros x Hx. rewrite E in Hx. inversion Hx; subst x.
      unfold stopIfStarted. rewrite Et. reflexivity.
    + unfold throw, ret, onSources. f_equal.
      rewrite alter_fixed.
      * symmetry. apply onSources_id.
      * intros x Hx. rewrite E in Hx. inversion Hx; subst x.
        unfold stopIfStarted. rewrite Et. reflexivity.
  - unfold throw, ret, onSources. f_equal.
    rewrite alter_fixed.
    + symmetry. apply onSources_id.
    + intros x Hx. rewrite E in Hx. discriminate.
Qed.

Lemma runs_stopQueued :
  runs stopQueued (fun s => onSources (alterAll stopIfStarted (audioQueue (this s))) s).
Proof.
  unfold stopQueued, field.
  apply (runs_gets (fun s => audioQueue (this s))
           (fun q => forEach q (fun source => tryCatch (source_stop source) (fun _ => ret tt)))
           (fun q => onSources (alterAll stopIfStarted q))).
  intros q. eapply runs_ext.
  - apply (runs_forEach (fun id => onSources (alter stopIfStarted id))).
    apply runs_guarded_stop.
  - intros s. apply fold_onSources.
Qed.

Lemma with_enabled_idem (v : bool) (t : MediaStreamTrack) :
  with_enabled v (with_enabled v t) = with_enabled v t.
Proof. reflexivity. Qed.

Lemma with_ended_idem (t : MediaStreamTrack) : with_ended (with_ended t) = with_ended t.
Proof. reflexivity. Qed.

Lemma stopIfStarted_idem (src : AudioBufferSourceNode) :
  stopIfStarted (stopIfStarted src) = stopIfStarted src.
Proof. unfold stopIfStarted. destruct src as [c b k [t|] st]; reflexivity. Qed.

Lemma stopIfStarted_silent (src : AudioBufferSourceNode) :
  audible (stopIfStarted src) = false.
Proof. unfold stopIfStarted, audible. destruct src as [c b k [t|] st]; reflexivity. Qed.

(** ** [setMute] *)

Lemma setMute_runs (mute : bool) :
  runs (setMute mute)
       (fun s => onTracks (alterAll (with_enabled (negb mute)) (micTracks s)) s).
Proof.
  intros s. unfold setMute, field, bind, gets, micTracks.
  destruct (stream (this s)) as [st|].
  - apply runs_setEnabled_all.
  - unfold ret. f_equal. symmetry. apply onTracks_id.
Qed.

Lemma micTracks_onTracks_enabled (v : bool) (ids : list nat) (s : Machine) :
  micTracks (onTracks (alterAll (with_enabled v) ids) s) = micTracks s.
Proof.
  unfold micTracks. simpl. destruct (stream (this s)) as [st|]; [|reflexivity].
  unfold getAudioTracks. apply filter_ext. intros id.
  unfold is_audio. destruct s as [[] ? ?]; simpl.
  rewrite alterAll_lookup by apply with_enabled_idem.
  destruct (bool_decide _); [|reflexivity].
  destruct (_ !! id) as [t|]; reflexivity.
Qed.

(** C8. [setMute(b)] never fails and only writes the [enabled] flag of the
    audio tracks of the client's stream, to [not b]: the client object, the
    callback log and every other part of the store (contexts, queued sources,
    nodes, sessions, promises, the count of microphone requests) are left as
    they were.  [setMute(true)] followed by [setMute(false)] leaves every
    microphone track enabled, on the same stream and without a further
    [getUserMedia] request. *)
Theorem C8_setMute_frame_and_restore (s : Machine) (mute : bool) :
  let s1 := snd (setMute mute s) in
  let s2 := snd (setMute false (snd (setMute true s))) in
  fst (setMute mute s) = Normal tt
  /\ this s1 = this s
  /\ calls s1 = calls s
  /\ set_tracks (tracks (browser s)) (browser s1) = browser s
  /\ (forall id : nat,
        tracks (browser s1) !! id =
          if bool_decide (id ∈ micTracks s)
          then with_enabled (negb mute) <$> tracks (browser s) !! id
          else tracks (browser s) !! id)
  /\ fst (setMute false (snd (setMute true s))) = Normal tt
  /\ (forall id : nat, id ∈ micTracks s ->
        exists t, tracks (browser s2) !! id = Some t /\ track_enabled t = true)
  /\ this s2 = this s
  /\ micRequests (browser s2) = micRequests (browser s).
Proof.
  cbv zeta. rewrite !setMute_runs. cbn [fst snd].
  rewrite micTracks_onTracks_enabled.
  repeat split.
  - destruct s as [[] ? ?]; reflexivity.
  - intros id. cbn. apply alterAll_lookup, with_enabled_idem.
  - intros id Hin. cbn.
    rewrite !alterAll_lookup by apply with_enabled_idem.
    rewrite bool_decide_eq_true_2 by assumption.
    unfold micTracks in Hin. destruct (stream (this s)) as [st|].
    + unfold getAudioTracks in Hin. apply list_elem_of_In, filter_In in Hin.
      destruct Hin as [_ Haudio]. unfold is_audio in Haudio.
      destruct (tracks (browser s) !! id) as [t|]; [|discriminate].
      eexists. split; reflexivity.
    + inversion Hin.
Qed.

(** ** [disconnect], phase by phase *)

Lemma runs_release_sourceNode :
  runs (f <- field sourceNode ;;
        match f with
        | Some n => node_disconnect n ;; onThis (set_sourceNode None)
        | None => ret tt
        end)
       (fun s => mkMachine
                   (set_nodes (discNode (sourceNode (this s)) (nodes (browser s))) (browser s))
                   (set_sourceNode None (this s)) (calls s)).
Proof. intros [[] [] ?]. cbn. destruct sourceNode0; reflexivity. Qed.

Lemma runs_release_scriptProcessor :
  runs (f <- field scriptProcessor ;;
        match f with
        | Some n => node_disconnect n ;; onThis (set_scriptProcessor None)
        | None => ret tt
        end)
       (fun s => mkMachine
                   (set_nodes (discNode (scriptProcessor (this s)) (nodes (browser s)))
                              (browser s))
                   (set_scriptProcessor None (this s)) (calls s)).
Proof. intros [[] [] ?]. cbn. destruct scriptProcessor0; reflexivity. Qed.

Lemma runs_release_stream :
  runs (f <- field stream ;;
        match f with
        | Some s => forEach (getTracks s) track_stop ;; onThis (set_stream None)
        | None => ret tt
        end)
       (fun s => mkMachine
                   (set_tracks (stopTracks (stream (this s)) (tracks (browser s))) (browser s))
                   (set_stream None (this s)) (calls s)).
Proof.
  intros s. unfold field, bind at 1, gets.
  destruct (stream (this s)) as [st|] eqn:E.
  - unfold bind. rewrite runs_stop_all_tracks.
    destruct s as [[] [] ?]. cbn in *. subst. reflexivity.
  - destruct s as [[] [] ?]. cbn in *. subst. reflexivity.
Qed.

Lemma runs_release_session :
  runs (f <- field sessionPromise ;;
        match f with
        | Some _ =>
            tryCatch (session <- awaitSessionPromise ;;
                      match session with
                      | Some s => session_close s
                      | None => ret tt
                      end)
                     (fun _ => ret tt) ;;
            onThis (set_sessionPromise None)
        | None => ret tt
        end)
       (fun s => mkMachine
                   (set_sessions (closeSettled (sessionPromise (this s)) (browser s))
                                 (browser s))
                   (set_sessionPromise None (this s)) (calls s)).
Proof.
  intros [[] [] ?]. cbn.
  destruct sessionPromise0 as [p|]; [|reflexivity].
  unfold bind, tryCatch, awaitSessionPromise, field, gets, await, bind, gets. cbn.
  destruct (promises0 !! p) as [[sid|e]|]; reflexivity.
Qed.

Lemma with_closed_fixed (l : list AudioContext) (id : nat) (c : AudioContext) :
  l !! id = Some c -> ContextState_eqb (ctx_state c) closed = true ->
  alter (with_ctx_state closed) id l = l.
Proof.
  intros Hl Hc. apply alter_fixed. intros x Hx. rewrite Hl in Hx.
  inversion Hx; subst x. destruct c as [[] ? ?]; try discriminate. reflexivity.
Qed.

Lemma runs_close_context (proj : LiveClient -> option nat) :
  runs (f <- field proj ;;
        b <- gets browser ;;
        match f with
        | Some id => when (ctx_not_closed b id) (tryCatch (ctx_close id) (fun _ => ret tt))
        | None => ret tt
        end)
       (fun s => mkMachine
                   (set_contexts (closeCtx (proj (this s)) (contexts (browser s))) (browser s))
                   (this s) (calls s)).
Proof.
  intros s. unfold field, bind, gets.
  destruct (proj (this s)) as [id|]; [|destruct s as [[] ? ?]; reflexivity].
  unfold ctx_not_closed, when, tryCatch, ctx_close, bind, gets, closeCtx.
  destruct (contexts (browser s) !! id) as [c|] eqn:E.
  - destruct (ContextState_eqb (ctx_state c) closed) eqn:Ec; cbn.
    + rewrite (with_closed_fixed _ _ _ E Ec). destruct s as [[] ? ?]; reflexivity.
    + rewrite E, Ec. reflexivity.
  - cbn. rewrite E. cbn. rewrite alter_fixed.
    + destruct s as [[] ? ?]; reflexivity.
    + intros x Hx. rewrite E in Hx. discriminate.
Qed.

Lemma runs_onThis (f : LiveClient -> LiveClient) :
  runs (onThis f) (fun s => mkMachine (browser s) (f (this s)) (calls s)).
Proof. intros s. reflexivity. Qed.

(** Reduce projections and field updates on explicit records only. *)
Ltac records :=
  cbn [browser this calls
       contexts tracks sources nodes sessions promises micRequests env
       set_contexts set_tracks set_sources set_nodes set_sessions set_promises
       set_micRequests
       inputAudioContext outputAudioContext nextStartTime stream sessionPromise
       scriptProcessor sourceNode isConnected audioQueue
       set_inputAudioContext set_outputAudioContext set_nextStartTime set_stream
       set_sessionPromise set_scriptProcessor set_sourceNode set_isConnected
       set_audioQueue onSources onTracks released fst snd].

Tactic Notation "records" "in" hyp(H) :=
  cbn [browser this calls
       contexts tracks sources nodes sessions promises micRequests env
       set_contexts set_tracks set_sources set_nodes set_sessions set_promises
       set_micRequests
       inputAudioContext outputAudioContext nextStartTime stream sessionPromise
       scriptProcessor sourceNode isConnected audioQueue
       set_inputAudioContext set_outputAudioContext set_nextStartTime set_stream
       set_sessionPromise set_scriptProcessor set_sourceNode set_isConnected
       set_audioQueue onSources onTracks released fst snd] in H.

(** Run the first computation of a sequence with its [runs] lemma. *)
Ltac phase L := unfold bind at 1; rewrite L; records.

Lemma disconnect_runs : runs disconnect disconnected.
Proof.
  intros [[] [] ?]. unfold disconnect, disconnected. records.
  phase runs_stopQueued.
  phase runs_onThis.
  phase runs_release_sourceNode.
  phase runs_release_scriptProcessor.
  phase runs_release_stream.
  phase runs_release_session.
  phase (runs_close_context inputAudioContext).
  phase runs_onThis.
  phase (runs_close_context outputAudioContext).
  phase runs_onThis.
  rewrite runs_onThis. reflexivity.
Qed.

Lemma discNode_hit (l : list AudioNode) (n : nat) (node : AudioNode) :
  discNode (Some n) l !! n = Some node -> node_connections node = 0.
Proof.
  cbn. rewrite list_lookup_alter_eq. destruct (l !! n); [|discriminate].
  intros H. inversion H. reflexivity.
Qed.

Lemma discNode_keeps (f : option nat) (l : list AudioNode) (n : nat) (node : AudioNode) :
  (forall x, l !! n = Some x -> node_connections x = 0) ->
  discNode f l !! n = Some node -> node_connections node = 0.
Proof.
  intros Hl. destruct f as [m|]; [|apply Hl].
  destruct (decide (m = n)) as [->|Hne]; [apply discNode_hit|].
  cbn. rewrite list_lookup_alter_ne by exact Hne. apply Hl.
Qed.

Lemma closeCtx_hit (l : list AudioContext) (id : nat) (ctx : AudioContext) :
  closeCtx (Some id) l !! id = Some ctx -> ctx_state ctx = closed.
Proof.
  cbn. rewrite list_lookup_alter_eq. destruct (l !! id); [|discriminate].
  intros H. inversion H. reflexivity.
Qed.

Lemma closeCtx_keeps (f : option nat) (l : list AudioContext) (id : nat)
      (ctx : AudioContext) :
  (forall x, l !! id = Some x -> ctx_state x = closed) ->
  closeCtx f l !! id = Some ctx -> ctx_state ctx = closed.
Proof.
  intros Hl. destruct f as [m|]; [|apply Hl].
  destruct (decide (m = id)) as [->|Hne]; [apply closeCtx_hit|].
  cbn. rewrite list_lookup_alter_ne by exact Hne. apply Hl.
Qed.

Lemma disconnect_again (s : Machine) : disconnected (disconnected s) = disconnected s.
Proof. destruct s as [[] [] ?]. reflexivity. Qed.

(** What [disconnected] has released. *)
Lemma disconnected_releases (s : Machine) :
  (forall id src, id ∈ audioQueue (this s) ->
     sources (browser (disconnected s)) !! id = Some src -> audible src = false)
  /\ (forall n node, sourceNode (this s) = Some n \/ scriptProcessor (this s) = Some n ->
        nodes (browser (disconnected s)) !! n = Some node -> node_connections node = 0)
  /\ (forall st id t, stream (this s) = Some st -> id ∈ getTracks st ->
        tracks (browser (disconnected s)) !! id = Some t -> track_ended t = true)
  /\ (forall p sid session, sessionPromise (this s) = Some p ->
        promises (browser s) !! p = Some (fulfilled sid) ->
        sessions (browser (disconnected s)) !! sid = Some session ->
        session_closed session = true)
  /\ (forall id ctx,
        inputAudioContext (this s) = Some id \/ outputAudioContext (this s) = Some id ->
        contexts (browser (disconnected s)) !! id = Some ctx -> ctx_state ctx = closed).
Proof.
  split; [|split; [|split; [|split]]].
  - intros id src Hin Hsrc. unfold disconnected in Hsrc. records in Hsrc.
    rewrite alterAll_lookup in Hsrc by apply stopIfStarted_idem.
    rewrite bool_decide_eq_true_2 in Hsrc by assumption.
    destruct (sources (browser s) !! id) as [x|]; [|discriminate].
    inversion Hsrc. apply stopIfStarted_silent.
  - intros n node Hn Hnode. unfold disconnected in Hnode. records in Hnode.
    destruct Hn as [Hn|Hn]; rewrite Hn in Hnode.
    + revert Hnode. apply discNode_keeps. intros x. apply discNode_hit.
    + exact (discNode_hit _ _ _ Hnode).
  - intros st id t Hst Hin Ht. unfold disconnected in Ht. records in Ht.
    rewrite Hst in Ht. unfold stopTracks in Ht.
    rewrite alterAll_lookup in Ht by apply with_ended_idem.
    rewrite bool_decide_eq_true_2 in Ht by assumption.
    destruct (_ !! id); [|discriminate]. inversion Ht. reflexivity.
  - intros p sid session Hp Hsettled Hsession.
    unfold disconnected in Hsession. records in Hsession.
    rewrite Hp in Hsession. unfold closeSettled in Hsession.
    rewrite Hsettled in Hsession. rewrite list_lookup_alter_eq in Hsession.
    destruct (_ !! sid); [|discriminate]. inversion Hsession. reflexivity.
  - intros id ctx Hid Hctx. unfold disconnected in Hctx. records in Hctx.
    destruct Hid as [Hid|Hid]; rewrite Hid in Hctx.
    + revert Hctx. apply closeCtx_keeps. intros x. apply closeCtx_hit.
    + exact (closeCtx_hit _ _ _ Hctx).
Qed.

(** [disconnect] run on its own, to completion, from any state of the
    client and of the store: it completes normally and releases what the
    client holds when it is called.  Every source that was queued is silent
    and the queue is empty; the source node and the script processor have
    no connection left and their fields are [null]; every track of the
    stream has ended; the session of a fulfilled session promise is closed,
    and a rejected promise is absorbed; both audio contexts are closed and
    their fields [null].  A further call completes normally too and changes
    nothing. *)
Lemma disconnect_releases_what_is_held (s : Machine) :
  let s' := snd (disconnect s) in
  fst (disconnect s) = Normal tt
  /\ this s' = released (this s)
  /\ (forall id src, id ∈ audioQueue (this s) ->
        sources (browser s') !! id = Some src -> audible src = false)
  /\ (forall n node, sourceNode (this s) = Some n \/ scriptProcessor (this s) = Some n ->
        nodes (browser s') !! n = Some node -> node_connections node = 0)
  /\ (forall st id t, stream (this s) = Some st -> id ∈ getTracks st ->
        tracks (browser s') !! id = Some t -> track_ended t = true)
  /\ (forall p sid session, sessionPromise (this s) = Some p ->
        promises (browser s) !! p = Some (fulfilled sid) ->
        sessions (browser s') !! sid = Some session -> session_closed session = true)
  /\ (forall id ctx, inputAudioContext (this s) = Some id \/ outputAudioContext (this s) = Some id ->
        contexts (browser s') !! id = Some ctx -> ctx_state ctx = closed)
  /\ disconnect s' = (Normal tt, s').
Proof.
  cbv zeta. rewrite (disconnect_runs s). cbn [fst snd].
  destruct (disconnected_releases s) as (H1 & H2 & H3 & H4 & H5).
  repeat (split; [first [reflexivity | assumption]|]).
  rewrite disconnect_runs, disconnect_again. reflexivity.
Qed.

(** ** [connect] on a connected client *)

(** C10. On a client whose [isConnected] flag is set, [connect] returns at
    once: it completes normally and the whole machine (the client's fields,
    the store with its contexts, tracks, sessions and request count, the
    callback log) is exactly what it was. *)
Theorem C10_connect_when_connected_is_noop (s : Machine) :
  isConnected (this s) = true -> connect s = (Normal tt, s).
Proof.
  intros H. unfold connect, bind, gets. rewrite H. reflexivity.
Qed.

Lemma C10_connect_when_connected_witness :
  isConnected (this connectedMachine) = true
  /\ connect connectedMachine = (Normal tt, connectedMachine).
Proof.
  split; [reflexivity|].
  apply (C10_connect_when_connected_is_noop connectedMachine). reflexivity.
Defined.

(** ** Scheduling one buffer *)

Lemma alter_last {A : Type} (f : A -> A) (l : list A) (x : A) :
  alter f (length l) (l ++ [x]) = l ++ [f x].
Proof. induction l as [|y l IH]; simpl; [reflexivity|]. f_equal. exact IH. Qed.

Lemma lookup_last {A : Type} (l : list A) (x : A) : (l ++ [x]) !! length l = Some x.
Proof. induction l as [|y l IH]; simpl; [reflexivity|exact IH]. Qed.

Lemma scheduleBuffer_runs (buf : AudioBuffer) (octx : nat) (s : Machine) :
  outputAudioContext (this s) = Some octx ->
  scheduleBuffer buf s = (Normal tt, scheduledMachine octx buf s).
Proof.
  intros Ho. destruct s as [b c cl]. cbn in Ho.
  unfold scheduleBuffer, scheduledMachine, lifted, field, deref, bind at 1, gets.
  cbn [this]. rewrite Ho. unfold bind at 1, ret. unfold bind at 1, bind at 1.
  cbn [browser this].
  destruct (Qltb (nextStartTime c) (currentTime b octx)) eqn:Elt.
  all: unfold when, createBufferSource, source_setBuffer, source_connect, source_start,
         onSource, onThis, onBrowser, modify, bind, gets, ret; cbn.
  all: rewrite !alter_last, lookup_last; cbn.
  all: rewrite !alter_last; destruct b, c; reflexivity.
Qed.

Arguments scheduleBuffer : simpl never.
Arguments scheduledMachine : simpl never.

(** ** Inbound messages *)

Section InboundFacts.

Variable decodeAudioData : list Byte.byte -> positive -> nat -> Completion AudioBuffer.

Local Abbreviation handle := (handleMessage decodeAudioData).
Local Abbreviation chunk := (chunkOf decodeAudioData).
Local Abbreviation step1 := (step decodeAudioData).
Local Abbreviation runs_through := (run decodeAudioData).

Lemma runs_transcript (o : option string) (isUser : bool) :
  runs (match o with
        | Some text => call (onTranscript_call text isUser)
        | None => ret tt
        end)
       (fun s => mkMachine (browser s) (this s)
                   (calls s ++ match o with
                               | Some text => [onTranscript_call text isUser]
                               | None => []
                               end)).
Proof.
  intros [b c cl]. destruct o; [reflexivity|].
  unfold ret. cbn. rewrite app_nil_r. reflexivity.
Qed.

(** The audio part of a message, on a client with an output context: either
    the chunk is scheduled, or an exception leaves store and client alone. *)
Lemma playChunk_outcome (data : list Byte.byte) (s : Machine) (octx : nat) :
  outputAudioContext (this s) = Some octx ->
  match chunk s (mkMessage None None (Some data) false) with
  | Some (o, buf) =>
      o = octx
      /\ exists cl, playChunk decodeAudioData data s
                 = (Normal tt, scheduledMachine o buf (mkMachine (browser s) (this s) cl))
  | None =>
      exists e cl, playChunk decodeAudioData data s
                   = (Thrown e, mkMachine (browser s) (this s) cl)
  end.
Proof.
  intros Ho. destruct s as [b c cl]. cbn [this] in Ho.
  unfold chunkOf, playChunk. cbn [this modelAudio]. rewrite Ho.
  unfold bind at 1. destruct (Nat.odd (length data)).
  - eexists _, _. reflexivity.
  - unfold ret at 1. unfold bind at 1, call, modify. unfold bind at 1.
    cbn [browser this calls].
    destruct (decodeAudioData data 24000%positive 1) as [buf|e].
    + split; [reflexivity|]. eexists.
      rewrite (scheduleBuffer_runs buf octx) by exact Ho. reflexivity.
    + eexists _, _. reflexivity.
Qed.

Lemma chunkOf_message (m : LiveServerMessage) (s : Machine) :
  chunk s m = match modelAudio m with
              | Some data => chunk s (mkMessage None None (Some data) false)
              | None => None
              end.
Proof.
  unfold chunkOf. cbn [modelAudio].
  destruct (outputAudioContext (this s)), (modelAudio m); reflexivity.
Qed.

Lemma handleMessage_quiet_run (m : LiveServerMessage) (s : Machine) :
  interrupted m = false ->
  exists s', handle m s = (Normal tt, s')
    /\ match chunk s m with
       | Some (octx, buf) =>
           browser s' = browser (scheduledMachine octx buf s)
           /\ this s' = this (scheduledMachine octx buf s)
       | None => browser s' = browser s /\ this s' = this s
       end.
Proof.
  intros Hq. rewrite chunkOf_message.
  unfold handleMessage, tryCatch, field, bind at 1, gets. rewrite Hq.
  destruct (outputAudioContext (this s)) as [octx|] eqn:Ho.
  2: { unfold ret. eexists. split; [reflexivity|]. unfold chunkOf. rewrite Ho.
       destruct (modelAudio m); split; reflexivity. }
  phase (runs_transcript (inputTranscription m) true).
  phase (runs_transcript (outputTranscription m) false).
  set (s1 := mkMachine (browser s) (this s) _).
  assert (Ho1 : outputAudioContext (this s1) = Some octx) by exact Ho.
  unfold bind at 1.
  destruct (modelAudio m) as [data|].
  - pose proof (playChunk_outcome data s1 octx Ho1) as Hplay.
    change (chunk s1 (mkMessage None None (Some data) false))
      with (chunk s (mkMessage None None (Some data) false)) in Hplay.
    destruct (chunk s (mkMessage None None (Some data) false)) as [[o buf]|].
    + destruct Hplay as [_ [cl ->]]. unfold when, ret. eexists. split; [reflexivity|].
      split; reflexivity.
    + destruct Hplay as (e & cl & ->). eexists. split; [reflexivity|].
      split; reflexivity.
  - unfold when, ret. eexists. split; [reflexivity|]. split; reflexivity.
Qed.

(** A message without the interruption flag: the handler completes normally;
    the store and the client are those of [scheduledMachine] when the message
    carries a chunk that decodes, and untouched otherwise. *)
Lemma handleMessage_quiet (m : LiveServerMessage) (s : Machine) :
  interrupted m = false ->
  fst (handle m s) = Normal tt
  /\ match chunk s m with
     | Some (octx, buf) =>
         browser (snd (handle m s)) = browser (scheduledMachine octx buf s)
         /\ this (snd (handle m s)) = this (scheduledMachine octx buf s)
     | None =>
         browser (snd (handle m s)) = browser s
         /\ this (snd (handle m s)) = this s
     end.
Proof.
  intros Hq. destruct (handleMessage_quiet_run m s Hq) as (s' & -> & H).
  split; [reflexivity|exact H].
Qed.

Lemma duration_nonneg (buf : AudioBuffer) : (0 <= duration buf)%Q.
Proof.
  unfold duration, Qle. simpl. rewrite Z.mul_1_r. apply Nat2Z.is_nonneg.
Qed.

Lemma lifted_ge_cursor (cursor now : Q) : (cursor <= lifted cursor now)%Q.
Proof.
  unfold lifted, Qltb. destruct (Qle_bool now cursor) eqn:E; simpl.
  - apply Qle_refl.
  - apply Qlt_le_weak, Qnot_le_lt. intros H. apply Qle_bool_iff in H. congruence.
Qed.

Lemma lifted_ge_now (cursor now : Q) : (now <= lifted cursor now)%Q.
Proof.
  unfold lifted, Qltb. destruct (Qle_bool now cursor) eqn:E; simpl.
  - apply Qle_bool_iff. exact E.
  - apply Qle_refl.
Qed.

(** What one quiet event does to the sources and the cursor. *)
Lemma step_quiet (e : Event) (s : Machine) :
  quiet e ->
  (sources (browser (step1 s e)) = sources (browser s)
   /\ nextStartTime (this (step1 s e)) = nextStartTime (this s))
  \/ exists octx buf, scheduled_at s (step1 s e) octx buf.
Proof.
  intros Hq. destruct e as [dt|m|src]; simpl in *.
  - left. split; reflexivity.
  - destruct (handleMessage_quiet m s Hq) as [_ H].
    destruct (chunk s m) as [[octx buf]|].
    + right. exists octx, buf. destruct H as [Hb Ht].
      unfold scheduled_at. rewrite Hb, Ht. repeat split.
    + left. destruct H as [Hb Ht]. rewrite Hb, Ht. split; reflexivity.
  - left. split; reflexivity.
Qed.

Lemma playback_inv_step (n : nat) (e : Event) (s : Machine) :
  quiet e -> playback_inv n s ->
  playback_inv n (step1 s e)
  /\ (nextStartTime (this s) <= nextStartTime (this (step1 s e)))%Q.
Proof.
  intros Hq (Hn & [Hsome Hord] & Hend).
  destruct (step_quiet e s Hq) as [[Hs Hc]|(octx & buf & Hs & _ & Hc)].
  - unfold playback_inv. rewrite Hs, Hc. repeat split; auto. apply Qle_refl.
  - set (start := lifted (nextStartTime (this s)) (currentTime (browser s) octx)) in *.
    assert (Hstart : (nextStartTime (this s) <= start)%Q) by apply lifted_ge_cursor.
    assert (Hdur := duration_nonneg buf).
    assert (Hnew : interval (mkSource octx (Some buf) true (Some start) false)
                   = Some (start, (start + duration buf)%Q)) by reflexivity.
    unfold playback_inv. rewrite Hs, Hc.
    rewrite drop_app_le by exact Hn.
    clearbody start. clear Hs Hc.
    set (d := duration buf) in *. clearbody d.
    set (cursor := nextStartTime (this s)) in *. clearbody cursor.
    split; [|lra].
    split; [rewrite length_app; simpl; lia|].
    split; [split|].
    + intros i si Hi. apply lookup_snoc_Some in Hi.
      destruct Hi as [[_ Hi]|[_ <-]]; [eauto|]. rewrite Hnew. eexists; reflexivity.
    + intros i j si sj a b a' b' Hij Hi Hj Ii Ij.
      apply lookup_snoc_Some in Hi. apply lookup_snoc_Some in Hj.
      destruct Hj as [[_ Hj]|[Hjl <-]].
      * destruct Hi as [[_ Hi]|[Hil _]]; [eauto|].
        apply lookup_lt_Some in Hj. lia.
      * rewrite Hnew in Ij. inversion Ij; subst a' b'.
        destruct Hi as [[_ Hi]|[Hil _]]; [|lia].
        specialize (Hend i si a b Hi Ii). lra.
    + intros i si a b Hi Ii. apply lookup_snoc_Some in Hi.
      destruct Hi as [[_ Hi]|[_ <-]].
      * specialize (Hend i si a b Hi Ii). lra.
      * rewrite Hnew in Ii. inversion Ii; subst a b. lra.
Qed.

Lemma playback_inv_run (n : nat) (es : list Event) (s : Machine) :
  Forall quiet es -> playback_inv n s ->
  playback_inv n (runs_through s es)
  /\ (nextStartTime (this s) <= nextStartTime (this (runs_through s es)))%Q.
Proof.
  intros Hq. revert s. induction Hq as [|e es He _ IH]; intros s Hinv; simpl.
  - split; [exact Hinv|apply Qle_refl].
  - destruct (playback_inv_step n e s He Hinv) as [Hinv' Hle].
    destruct (IH _ Hinv') as [Hinv'' Hle'].
    split; [exact Hinv''|]. eapply Qle_trans; eassumption.
Qed.

Lemma playback_inv_init (s : Machine) :
  playback_inv (length (sources (browser s))) s.
Proof.
  unfold playback_inv. rewrite drop_all. split; [lia|].
  split; [split|]; intros; discriminate.
Qed.

(** C1. Along any sequence of events without an interruption (inbound
    messages, clock advances, sources ending): the cursor never decreases
    from one point of the sequence to a later one; a message that carries a
    chunk which decodes creates exactly one source, started at the cursor
    lifted to the output clock, and moves the cursor to that start plus the
    buffer's duration, while any other message leaves sources, queue and
    cursor alone; and the sources scheduled during the sequence have
    pairwise non-overlapping playback intervals, in scheduling order. *)
Theorem C1_cursor_monotone_no_overlap (s : Machine) (es : list Event) :
  Forall quiet es ->
  (forall es1 es2, es = es1 ++ es2 ->
     (nextStartTime (this (runs_through s es1))
      <= nextStartTime (this (runs_through s es)))%Q)
  /\ (forall es1 m es2, es = es1 ++ Inbound m :: es2 ->
        let s1 := runs_through s es1 in
        match chunk s1 m with
        | Some (octx, buf) => scheduled_at s1 (step1 s1 (Inbound m)) octx buf
        | None => unscheduled s1 (step1 s1 (Inbound m))
        end)
  /\ no_overlap (drop (length (sources (browser s)))
                      (sources (browser (runs_through s es)))).
Proof.
  intros Hq. split; [|split].
  - intros es1 es2 ->. apply Forall_app in Hq. destruct Hq as [Hq1 Hq2].
    unfold run. rewrite fold_left_app.
    destruct (playback_inv_run _ es2 _ Hq2
                (playback_inv_init (fold_left (step decodeAudioData) es1 s))) as [_ H].
    exact H.
  - intros es1 m es2 -> s1. apply Forall_app in Hq. destruct Hq as [_ Hq].
    apply Forall_cons in Hq. destruct Hq as [Hm _]. simpl in Hm.
    destruct (handleMessage_quiet m s1 Hm) as [_ H]. simpl.
    destruct (chunk s1 m) as [[octx buf]|]; destruct H as [Hb Ht].
    + unfold scheduled_at. rewrite Hb, Ht. repeat split.
    + unfold unscheduled. rewrite Hb, Ht. repeat split.
  - destruct (playback_inv_run _ es s Hq (playback_inv_init s)) as [(_ & H & _) _].
    exact H.
Qed.

Lemma handleInterruption_runs (octx : nat) (s : Machine) :
  outputAudioContext (this s) = Some octx ->
  handleInterruption s = (Normal tt, interruptedMachine octx s).
Proof.
  intros Ho. unfold handleInterruption, bind at 1. rewrite runs_stopQueued.
  destruct s as [b c cl]. cbn in *. rewrite Ho. cbn. destruct b, c; reflexivity.
Qed.

(** A message with the interruption flag, handled while an output context
    exists and whose audio part, if any, goes through: the interruption
    block runs on what the audio part left. *)
Lemma handleMessage_interrupted_run (m : LiveServerMessage) (s : Machine) (octx : nat) :
  interrupted m = true ->
  outputAudioContext (this s) = Some octx ->
  modelAudio m = None \/ is_Some (chunk s m) ->
  exists s',
    handle m s = (Normal tt, s')
    /\ browser s' = browser (interruptedMachine octx
                              match chunk s m with
                              | Some (o, buf) => scheduledMachine o buf s
                              | None => s
                              end)
    /\ this s' = this (interruptedMachine octx
                         match chunk s m with
                         | Some (o, buf) => scheduledMachine o buf s
                         | None => s
                         end).
Proof.
  intros Hi Ho Haudio. rewrite chunkOf_message in *.
  unfold handleMessage, tryCatch, field, bind at 1, gets. rewrite Hi, Ho.
  phase (runs_transcript (inputTranscription m) true).
  phase (runs_transcript (outputTranscription m) false).
  set (s1 := mkMachine (browser s) (this s) _).
  assert (Ho1 : outputAudioContext (this s1) = Some octx) by exact Ho.
  unfold bind at 1.
  destruct (modelAudio m) as [data|].
  - pose proof (playChunk_outcome data s1 octx Ho1) as Hplay.
    change (chunk s1 (mkMessage None None (Some data) false))
      with (chunk s (mkMessage None None (Some data) false)) in Hplay.
    destruct (chunk s (mkMessage None None (Some data) false)) as [[o buf]|].
    + destruct Hplay as [-> [cl ->]]. unfold when.
      rewrite (handleInterruption_runs octx) by exact Ho.
      eexists. split; [reflexivity|]. split; reflexivity.
    + destruct Haudio as [?|[? ?]]; discriminate.
  - unfold ret at 1. unfold when.
    rewrite (handleInterruption_runs octx) by exact Ho.
    eexists. split; [reflexivity|]. split; reflexivity.
Qed.

Lemma handleMessage_interrupted (m : LiveServerMessage) (s : Machine) (octx : nat) :
  interrupted m = true ->
  outputAudioContext (this s) = Some octx ->
  modelAudio m = None \/ is_Some (chunk s m) ->
  let mid := match chunk s m with
             | Some (o, buf) => scheduledMachine o buf s
             | None => s
             end in
  fst (handle m s) = Normal tt
  /\ browser (snd (handle m s)) = browser (interruptedMachine octx mid)
  /\ this (snd (handle m s)) = this (interruptedMachine octx mid).
Proof.
  intros Hi Ho Haudio.
  destruct (handleMessage_interrupted_run m s octx Hi Ho Haudio) as (s' & -> & H).
  split; [reflexivity|exact H].
Qed.

(** The interruption block, once reached.  A message that carries the
    interruption flag, handled while the output context exists, and whose
    audio part, if it has one, got through without an exception: the handler
    completes normally; the queue is empty; every source the queue tracked,
    the one this very message may have added included, is silent; the cursor
    equals the output clock; a buffer scheduled straight away starts exactly
    at the clock, and one scheduled after the clock moved on starts at or
    after the clock of that moment. *)
Lemma interruption_flushes_and_resets
        (s : Machine) (m : LiveServerMessage) (octx : nat) :
  interrupted m = true ->
  outputAudioContext (this s) = Some octx ->
  modelAudio m = None \/ is_Some (chunk s m) ->
  let s' := snd (handle m s) in
  fst (handle m s) = Normal tt
  /\ audioQueue (this s') = []
  /\ (forall id src,
        id ∈ audioQueue (this s) \/ id = length (sources (browser s)) ->
        sources (browser s') !! id = Some src -> audible src = false)
  /\ nextStartTime (this s') = currentTime (browser s') octx
  /\ (forall buf,
        scheduled_at s' (snd (scheduleBuffer buf s')) octx buf
        /\ lifted (nextStartTime (this s')) (currentTime (browser s') octx)
           = currentTime (browser s') octx)
  /\ (forall dt buf,
        let later := step1 s' (Elapse dt) in
        scheduled_at later (snd (scheduleBuffer buf later)) octx buf
        /\ (currentTime (browser later) octx
            <= lifted (nextStartTime (this later)) (currentTime (browser later) octx))%Q).
Proof.
  intros Hi Ho Haudio.
  destruct (handleMessage_interrupted m s octx Hi Ho Haudio) as (Hok & Hb & Ht).
  cbv zeta in *.
  set (mid := match chunk s m with
              | Some (o, buf) => scheduledMachine o buf s
              | None => s
              end) in *.
  assert (Ho' : outputAudioContext (this (snd (handle m s))) = Some octx).
  { rewrite Ht. cbn. subst mid. destruct (chunk s m) as [[o buf]|]; exact Ho. }
  assert (Hcur : nextStartTime (this (snd (handle m s)))
                 = currentTime (browser (snd (handle m s))) octx).
  { rewrite Ht, Hb. destruct (browser mid); reflexivity. }
  split; [exact Hok|]. split; [rewrite Ht; reflexivity|].
  split; [|split; [exact Hcur|split]].
  - intros id src Hid Hsrc. rewrite Hb in Hsrc. cbn in Hsrc.
    rewrite alterAll_lookup in Hsrc by apply stopIfStarted_idem.
    assert (Hin : id ∈ audioQueue (this mid) \/ sources (browser mid) !! id = None).
    { subst mid. destruct (chunk s m) as [[o buf]|].
      - left. unfold scheduledMachine. cbn. apply elem_of_app.
        destruct Hid as [Hid| ->]; [left; exact Hid|right; apply list_elem_of_here].
      - destruct Hid as [Hid| ->]; [left; exact Hid|right].
        apply lookup_ge_None. lia. }
    destruct Hin as [Hin|Hnone].
    + rewrite bool_decide_eq_true_2 in Hsrc by exact Hin.
      destruct (sources (browser mid) !! id); [|discriminate].
      inversion Hsrc. apply stopIfStarted_silent.
    + rewrite Hnone in Hsrc. destruct (bool_decide _); discriminate.
  - intros buf. rewrite (scheduleBuffer_runs buf octx _ Ho'). split.
    + unfold scheduled_at, scheduledMachine. cbn. repeat split.
    + rewrite Hcur. unfold lifted, Qltb.
      rewrite (proj2 (Qle_bool_iff _ _) (Qle_refl _)). reflexivity.
  - intros dt buf. cbn [step].
    rewrite (scheduleBuffer_runs buf octx) by exact Ho'. split.
    + unfold scheduled_at, scheduledMachine. cbn. repeat split.
    + apply lifted_ge_now.
Qed.

End InboundFacts.

(** ** Worked instances for the inbound path *)

Lemma C1_cursor_monotone_no_overlap_witness :
  Forall quiet sampleEvents
  /\ no_overlap
       (drop (length (sources (browser connectedMachine)))
             (sources (browser (run pcm16Decoder connectedMachine sampleEvents)))).
Proof.
  assert (H : Forall quiet sampleEvents) by (repeat constructor).
  split; [exact H|].
  exact (proj2 (proj2 (C1_cursor_monotone_no_overlap pcm16Decoder connectedMachine
                         sampleEvents H))).
Defined.

(** C2. An interruption whose message also carries an audio payload of odd
    byte length is not carried out.  While one chunk is playing, a message
    with the interruption flag alone empties the queue, silences the source
    and puts the cursor on the output clock; so does a message with the flag
    and a payload of whole samples, whose own source is silenced with the
    rest.  With a payload of one byte [new Int16Array] throws, the handler's
    catch-all absorbs the exception and the interruption block is never
    reached: the handler completes normally, no callback is made, the queued
    source keeps sounding, the queue still holds it, and the cursor stays
    ahead of the clock by the length of the chunk. *)
Theorem C2_interruption_skipped_when_audio_throws :
  let flagOnly := mkMessage None None None true in
  let flagAndAudio := mkMessage None None (Some silence100ms) true in
  let flagAndOddAudio := mkMessage None None (Some [Byte.x00]) true in
  let s := playingMachine in
  let a := snd (handleMessage pcm16Decoder flagOnly s) in
  let b := snd (handleMessage pcm16Decoder flagAndAudio s) in
  let c := snd (handleMessage pcm16Decoder flagAndOddAudio s) in
  (outputAudioContext (this s) = Some 1
   /\ audioQueue (this s) = [0]
   /\ (audible <$> sources (browser s)) = [true]
   /\ currentTime (browser s) 1 = (0 + (1 # 2))%Q
   /\ nextStartTime (this s) = ((1 # 2) + (2400 # 24000))%Q)
  /\ (fst (handleMessage pcm16Decoder flagOnly s) = Normal tt
      /\ audioQueue (this a) = []
      /\ (audible <$> sources (browser a)) = [false]
      /\ nextStartTime (this a) = currentTime (browser a) 1)
  /\ (fst (handleMessage pcm16Decoder flagAndAudio s) = Normal tt
      /\ audioQueue (this b) = []
      /\ (audible <$> sources (browser b)) = [false; false]
      /\ nextStartTime (this b) = currentTime (browser b) 1)
  /\ (interrupted flagAndOddAudio = true
      /\ fst (handleMessage pcm16Decoder flagAndOddAudio s) = Normal tt
      /\ calls c = calls s
      /\ audioQueue (this c) = [0]
      /\ (audible <$> sources (browser c)) = [true]
      /\ currentTime (browser c) 1 = (0 + (1 # 2))%Q
      /\ nextStartTime (this c) = ((1 # 2) + (2400 # 24000))%Q
      /\ ~ (nextStartTime (this c) == currentTime (browser c) 1)%Q).
Proof.
  cbv zeta. evaluate.
Qed.

(** ** Grading and the session record *)

Lemma gradeCall_resolves (transcript : string) (persona : Persona) (lang : Language)
      (p : Page) :
  exists g, gradeCall transcript persona lang p = (Normal g, p).
Proof.
  unfold gradeCall, tryCatch, bind, gets, JSON_parse.
  destruct (GEMINI_API_KEY (env (page_browser p))) as [k|]; [|eexists; reflexivity].
  destruct (String.eqb k ""); [eexists; reflexivity|].
  destruct (generateContent _ transcript persona lang) as [e|[ | |[|sc rb sm]]];
    eexists; reflexivity.
Qed.

Lemma gradeCall_degraded (transcript : string) (persona : Persona) (lang : Language)
      (p : Page) :
  gradingFails (env (page_browser p)) transcript persona lang = true ->
  gradeCall transcript persona lang p = (Normal degradedGrading, p).
Proof.
  unfold gradingFails, gradeCall, tryCatch, bind, gets, JSON_parse.
  destruct (GEMINI_API_KEY (env (page_browser p))) as [k|]; [|reflexivity].
  destruct (String.eqb k ""); [reflexivity|].
  destruct (generateContent _ transcript persona lang) as [e|[ | |[|sc rb sm]]];
    intros H; try discriminate; reflexivity.
Qed.

Lemma handleEndCall_runs (transcript : string) (p : Page) (selected : Persona) (g : Grading) :
  selectedPersona (app p) = Some selected ->
  gradeCall transcript selected (language (app p)) p = (Normal g, p) ->
  handleEndCall transcript p =
    (Normal tt,
     mkPage (page_browser p)
            (mkApp FEEDBACK (language (app p)) (selectedPersona (app p))
                   (Some (recordOf p selected transcript g))
                   (recordOf p selected transcript g :: sessions_history (app p))
                   (playerName (app p)) false
                   (Some (recordOf p selected transcript g :: sessions_history (app p))))
            (activeCall p)).
Proof.
  intros Hsel Hg.
  assert (Hg' : forall a,
             gradeCall transcript selected (language (app p))
               (mkPage (page_browser p) a (activeCall p))
             = (Normal g, mkPage (page_browser p) a (activeCall p))).
  { intros a. unfold gradeCall, tryCatch, bind, gets in *. cbn [page_browser] in *.
    destruct (GEMINI_API_KEY (env (page_browser p))) as [k|];
      [destruct (String.eqb k "");
       [|destruct (generateContent _ transcript selected _) as [e|[ | |[|sc rb sm]]]]|];
      cbn in *; inversion Hg; reflexivity. }
  destruct p as [b [ast lang sel cur hist name proc stored] ac].
  cbn [app selectedPersona page_browser activeCall language] in *. subst sel.
  unfold handleEndCall, bind at 1, gets. cbn [app selectedPersona].
  unfold bind at 1, onApp, modify. unfold bind at 1.
  cbn [app page_browser activeCall language set_isProcessing appState selectedPersona
       currentSession sessions_history playerName isProcessing coldcall_sessions].
  rewrite Hg'. reflexivity.
Qed.

(** C5. [gradeCall] resolves for every transcript, persona and language,
    whatever the grading service does.  When the call fails (no API key, a
    refused request, a response that does not parse to an object) it resolves
    to the degraded default: score 50, within [0,100], and a summary that is
    not empty.  [handleEndCall] then completes, stores exactly that score and
    summary in the session record, clears the processing flag and shows the
    feedback screen. *)
Theorem C5_grading_failure_degrades (p : Page) (transcript : string)
        (selected : Persona) :
  selectedPersona (app p) = Some selected ->
  gradingFails (env (page_browser p)) transcript selected (language (app p)) = true ->
  let p' := snd (handleEndCall transcript p) in
  (forall persona lang q, exists g, gradeCall transcript persona lang q = (Normal g, q))
  /\ gradeCall transcript selected (language (app p)) p = (Normal degradedGrading, p)
  /\ grading_score degradedGrading = 50%Z
  /\ (0 <= grading_score degradedGrading <= 100)%Z
  /\ grading_summary degradedGrading <> ""
  /\ fst (handleEndCall transcript p) = Normal tt
  /\ isProcessing (app p') = false
  /\ appState (app p') = FEEDBACK
  /\ currentSession (app p') = Some (recordOf p selected transcript degradedGrading)
  /\ sessions_history (app p') =
       recordOf p selected transcript degradedGrading :: sessions_history (app p)
  /\ overallScore (recordOf p selected transcript degradedGrading) = 50%Z
  /\ summary (recordOf p selected transcript degradedGrading)
     = "Error grading call. Please try again.".
Proof.
  intros Hsel Hfail. cbv zeta.
  pose proof (gradeCall_degraded transcript selected (language (app p)) p Hfail) as Hg.
  rewrite (handleEndCall_runs transcript p selected _ Hsel Hg). cbn [fst snd app].
  split; [intros; apply gradeCall_resolves|].
  split; [exact Hg|].
  repeat split; try reflexivity; try discriminate; cbn; lia.
Qed.

Lemma C5_grading_failure_degrades_witness :
  selectedPersona (app (samplePage envNoKey)) = Some samplePersona
  /\ gradingFails envNoKey "Mr. Johnson (Location): Hello." samplePersona en = true
  /\ appState (app (snd (handleEndCall "Mr. Johnson (Location): Hello."
                                       (samplePage envNoKey)))) = FEEDBACK.
Proof.
  assert (Hsel : selectedPersona (app (samplePage envNoKey)) = Some samplePersona)
    by reflexivity.
  assert (Hfail : gradingFails (env (page_browser (samplePage envNoKey)))
                    "Mr. Johnson (Location): Hello." samplePersona
                    (language (app (samplePage envNoKey))) = true) by reflexivity.
  split; [exact Hsel|]. split; [exact Hfail|].
  pose proof (C5_grading_failure_degrades (samplePage envNoKey)
                "Mr. Johnson (Location): Hello." samplePersona Hsel Hfail) as H.
  cbv zeta in H.
  exact (proj1 (proj2 (proj2 (proj2 (proj2 (proj2 (proj2 (proj2 H)))))))).
Defined.

(** ** Hanging up *)

Lemma handleEndCall_frame (transcript : string) (p : Page) :
  fst (handleEndCall transcript p) = Normal tt
  /\ page_browser (snd (handleEndCall transcript p)) = page_browser p
  /\ activeCall (snd (handleEndCall transcript p)) = activeCall p.
Proof.
  destruct (selectedPersona (app p)) as [selected|] eqn:Hsel.
  - destruct (gradeCall_resolves transcript selected (language (app p)) p) as [g Hg].
    rewrite (handleEndCall_runs transcript p selected _ Hsel Hg). repeat split.
  - unfold handleEndCall, bind, gets. rewrite Hsel. repeat split.
Qed.

Lemma onClient_disconnect (p : Page) (c : LiveClient) :
  clientObj (activeCall p) = Some c ->
  onClient disconnect p =
    (Normal tt,
     mkPage (browser (disconnected (mkMachine (page_browser p) c [])))
            (app p) (set_clientObj (Some (released c)) (activeCall p))).
Proof.
  intros Hc. unfold onClient. rewrite Hc, disconnect_runs. reflexivity.
Qed.

Lemma runs_hangup_disconnect :
  runs (c <- gets activeCall ;;
        when (liveClientRef c) (tryCatch (onClient disconnect) (fun _ => ret tt)))
       afterDisconnect.
Proof.
  intros p. unfold bind, gets, when, tryCatch, afterDisconnect.
  destruct (liveClientRef (activeCall p)); [|reflexivity].
  destruct (clientObj (activeCall p)) as [c|] eqn:Hc.
  - rewrite (onClient_disconnect p c Hc). reflexivity.
  - unfold onClient. rewrite Hc. reflexivity.
Qed.

Lemma runs_disarm :
  runs (c <- gets activeCall ;;
        match timerRef c with
        | Some _ => onCall (set_intervalArmed false)
        | None => ret tt
        end)
       (fun p => mkPage (page_browser p) (app p) (disarm (activeCall p))).
Proof.
  intros [b a ac]. unfold bind, gets, disarm. cbn [activeCall page_browser app].
  destruct (timerRef ac); reflexivity.
Qed.

Lemma handleHangUp_eq (p : Page) :
  handleHangUp p = handleEndCall (transcriptRef (activeCall p)) (hungUp p).
Proof.
  unfold handleHangUp.
  unfold bind at 1. rewrite runs_hangup_disconnect.
  unfold bind at 1. rewrite runs_disarm.
  unfold bind at 1, gets at 1, onEndCall, bind at 1, onCall, modify, hungUp.
  cbn [activeCall page_browser app].
  assert (Ht : forall a, transcriptRef (disarm a) = transcriptRef a)
    by (intros a; unfold disarm; destruct (timerRef a), a; reflexivity).
  assert (Hc : forall a, onEndCall_calls (disarm a) = onEndCall_calls a)
    by (intros a; unfold disarm; destruct (timerRef a), a; reflexivity).
  assert (Hd : transcriptRef (activeCall (afterDisconnect p)) = transcriptRef (activeCall p)).
  { unfold afterDisconnect.
    destruct (liveClientRef (activeCall p)), (clientObj (activeCall p));
      try reflexivity. }
  rewrite Ht, Hc, Hd. reflexivity.
Qed.

(** What [hungUp] keeps and what it changes. *)
Lemma hungUp_frame (p : Page) :
  page_browser (hungUp p) = page_browser (afterDisconnect p)
  /\ app (hungUp p) = app p
  /\ clientObj (activeCall (hungUp p)) = clientObj (activeCall (afterDisconnect p))
  /\ timeouts (activeCall (hungUp p)) = timeouts (activeCall p)
  /\ clock (activeCall (hungUp p)) = clock (activeCall p)
  /\ transcriptRef (activeCall (hungUp p)) = transcriptRef (activeCall p)
  /\ call_duration (activeCall (hungUp p)) = call_duration (activeCall p)
  /\ isMountedRef (activeCall (hungUp p)) = isMountedRef (activeCall p)
  /\ onEndCall_calls (activeCall (hungUp p))
     = onEndCall_calls (activeCall p) ++ [transcriptRef (activeCall p)].
Proof.
  destruct p as [b a ac]. unfold hungUp, afterDisconnect, disarm.
  cbn [activeCall page_browser app].
  destruct ac as [per st dur tr mu em [c|] [|] [tid|] ia trr mo ig tos ck ec];
    cbn; repeat split.
Qed.

(** [handleHangUp] never fails; it disconnects the client behind the ref,
    disarms the interval and calls [onEndCall] with the transcript ref. *)
Lemma handleHangUp_spec (p : Page) :
  fst (handleHangUp p) = Normal tt
  /\ page_browser (snd (handleHangUp p)) = page_browser (hungUp p)
  /\ activeCall (snd (handleHangUp p)) = activeCall (hungUp p).
Proof.
  rewrite handleHangUp_eq. apply handleEndCall_frame.
Qed.

(** C6. The record built when a call ends does not carry the elapsed
    duration: on a connected call whose per-second tick has counted five
    seconds, hanging up produces one record with the persona reference, the
    transcript, the score and the rubric, but with [durationSeconds] equal
    to the literal [0] of [handleEndCall], not to the five seconds shown on
    the call screen. *)
Theorem C6_record_drops_elapsed_duration :
  let p' := snd (handleHangUp fiveSecondCall) in
  status (activeCall fiveSecondCall) = connected
  /\ call_duration (activeCall fiveSecondCall) = 5
  /\ fst (handleHangUp fiveSecondCall) = Normal tt
  /\ length (sessions_history (app p')) = 1
  /\ (personaId <$> currentSession (app p')) = Some "p1"
  /\ (session_transcript <$> currentSession (app p'))
     = Some (transcriptRef (activeCall fiveSecondCall))
  /\ (overallScore <$> currentSession (app p')) = Some 87%Z
  /\ (durationSeconds <$> currentSession (app p')) = Some 0%Z
  /\ Z.of_nat (call_duration (activeCall p')) = 5%Z.
Proof.
  cbv zeta. evaluate.
Qed.

(** ** The end-of-call marker *)

Lemma onTranscript_runs (text : string) (isUser : bool) (p : Page) :
  isMountedRef (activeCall p) = true ->
  onTranscript text isUser p =
    (Normal tt,
     mkPage (page_browser p) (app p)
       (let line := transcriptLine (persona (activeCall p)) text isUser in
        let c := set_transcript (transcript (activeCall p) ++ line)
                   (set_transcriptRef (transcriptRef (activeCall p) ++ line)
                      (activeCall p)) in
        if negb isUser && includes END_CALL text
        then set_timeouts (timeouts c ++ [((clock c + 3000)%Z, HangUp)]) c
        else c)).
Proof.
  intros Hm. destruct p as [b a ac]. cbn [activeCall] in Hm.
  unfold onTranscript, bind at 1, gets. cbn [activeCall]. rewrite Hm.
  unfold when at 1. unfold bind, onCall, modify, when, setTimeout, onCall, modify, ret.
  cbn [activeCall page_browser app].
  destruct (negb isUser && includes END_CALL text); destruct ac; reflexivity.
Qed.

Lemma onTranscript_unmounted (text : string) (isUser : bool) (p : Page) :
  isMountedRef (activeCall p) = false -> onTranscript text isUser p = (Normal tt, p).
Proof.
  intros Hm. unfold onTranscript, bind, gets. rewrite Hm. reflexivity.
Qed.

(** Timeout callbacks complete and leave the pending timeouts and the clock
    as they are. *)
Lemma runActions_frame (l : list (Z * TimerAction)) (p : Page) :
  fst (forEach l (fun d => runAction (snd d)) p) = Normal tt
  /\ timeouts (activeCall (snd (forEach l (fun d => runAction (snd d)) p)))
     = timeouts (activeCall p)
  /\ clock (activeCall (snd (forEach l (fun d => runAction (snd d)) p)))
     = clock (activeCall p).
Proof.
  revert p. induction l as [|[due []] l IH]; intros p; [repeat split|].
  cbn [forEach runAction snd]. unfold bind.
  destruct (handleHangUp_spec p) as (Hok & _ & Hac).
  destruct (handleHangUp p) as [r q]. cbn [fst snd] in *. subst r.
  destruct (IH q) as (Hok' & Ht & Hc).
  destruct (hungUp_frame p) as (_ & _ & _ & Ht' & Hc' & _).
  rewrite Ht, Hc, Hac. repeat split; assumption.
Qed.

Lemma advanceTo_eq (t : Z) (p : Page) :
  advanceTo t p =
    let now := Z.max (clock (activeCall p)) t in
    forEach (List.filter (isDue now) (timeouts (activeCall p)))
            (fun d => runAction (snd d))
            (mkPage (page_browser p) (app p)
               (set_timeouts
                  (List.filter (fun d => negb (isDue now d)) (timeouts (activeCall p)))
                  (set_clock now (activeCall p)))).
Proof.
  destruct p as [b a ac]. destruct ac. reflexivity.
Qed.

Lemma advanceTo_timeouts (t : Z) (p : Page) :
  fst (advanceTo t p) = Normal tt
  /\ timeouts (activeCall (snd (advanceTo t p)))
     = List.filter (fun d => negb (isDue (Z.max (clock (activeCall p)) t) d))
                   (timeouts (activeCall p)).
Proof.
  rewrite advanceTo_eq. cbv zeta.
  match goal with
  | |- context [forEach ?l ?f ?q] =>
      destruct (runActions_frame l q) as (Hok & Ht & _)
  end.
  split; [exact Hok|]. rewrite Ht. destruct (activeCall p); reflexivity.
Qed.

(** C7. A transcript event terminates nothing at the moment it is handled:
    the client, the store, the application state and the calls made on
    [onEndCall] are as they were.  While the call screen is mounted, the event
    appends its line to the transcript, and if it is persona-side and its text
    contains the marker [[[END_CALL]]], exactly one timeout is registered, due
    3000 ms after the current clock, whose callback is the hang-up; that
    timeout is still pending at any earlier time, and once the clock has
    reached its due time it has run: the client behind the ref is
    disconnected and [onEndCall] has received the accumulated transcript.  A
    user-side event, and an event whose text lacks the marker, never register
    a timeout; after the screen has unmounted the callback does nothing. *)
Theorem C7_end_marker_schedules_hangup (p : Page) (text : string) (isUser : bool) :
  let c := activeCall p in
  let p' := snd (onTranscript text isUser p) in
  let due := (clock c + 3000)%Z in
  fst (onTranscript text isUser p) = Normal tt
  /\ page_browser p' = page_browser p
  /\ app p' = app p
  /\ clientObj (activeCall p') = clientObj c
  /\ onEndCall_calls (activeCall p') = onEndCall_calls c
  /\ (isMountedRef c = true ->
        transcriptRef (activeCall p')
        = (transcriptRef c ++ transcriptLine (persona c) text isUser)%string)
  /\ (isMountedRef c = true -> isUser = false -> includes END_CALL text = true ->
        timeouts (activeCall p') = timeouts c ++ [(due, HangUp)]
        /\ (forall t, (t < due)%Z ->
              In (due, HangUp) (timeouts (activeCall (snd (advanceTo t p')))))
        /\ (forall t, (due <= t)%Z -> timeouts c = [] ->
              let p'' := snd (advanceTo t p') in
              fst (advanceTo t p') = Normal tt
              /\ timeouts (activeCall p'') = []
              /\ onEndCall_calls (activeCall p'')
                 = onEndCall_calls c ++ [transcriptRef (activeCall p')]
              /\ (forall cl, liveClientRef c = true -> clientObj c = Some cl ->
                    clientObj (activeCall p'') = Some (released cl)
                    /\ page_browser p''
                       = browser (disconnected (mkMachine (page_browser p) cl [])))))
  /\ (isUser = true \/ includes END_CALL text = false ->
        timeouts (activeCall p') = timeouts c)
  /\ (isMountedRef c = false -> p' = p).
Proof.
  cbv zeta. destruct (isMountedRef (activeCall p)) eqn:Hm.
  2: { rewrite (onTranscript_unmounted text isUser p Hm). cbn [fst snd].
       repeat (split; [first [reflexivity | discriminate]|]). reflexivity. }
  rewrite (onTranscript_runs text isUser p Hm).
  cbn [fst snd page_browser app activeCall].
  split; [reflexivity|]. split; [reflexivity|]. split; [reflexivity|].
  split; [destruct (negb isUser && includes END_CALL text), (activeCall p); reflexivity|].
  split; [destruct (negb isUser && includes END_CALL text), (activeCall p); reflexivity|].
  split; [intros _;
          destruct (negb isUser && includes END_CALL text), (activeCall p); reflexivity|].
  split; [|split; [|discriminate]].
  - intros _ -> Hmark. rewrite Hmark. cbn [negb andb].
    set (line := transcriptLine (persona (activeCall p)) text false).
    set (due := (clock (activeCall p) + 3000)%Z).
    set (q := mkPage (page_browser p) (app p) _).
    assert (Hq : timeouts (activeCall q) = timeouts (activeCall p) ++ [(due, HangUp)])
      by (subst q due; destruct (activeCall p); reflexivity).
    assert (Hck : clock (activeCall q) = clock (activeCall p))
      by (subst q; destruct (activeCall p); reflexivity).
    split; [exact Hq|]. split.
    + intros t Ht. destruct (advanceTo_timeouts t q) as [_ ->].
      rewrite Hq, Hck. apply filter_In. split.
      * apply in_or_app. right. left. reflexivity.
      * unfold isDue. cbn [fst]. apply negb_true_iff, Z.leb_gt. subst due. lia.
    + intros t Ht Hnone.
      assert (Hnow : isDue (Z.max (clock (activeCall p)) t) (due, HangUp) = true)
        by (apply Z.leb_le; cbn [fst]; lia).
      rewrite advanceTo_eq. cbv zeta. rewrite Hq, Hck, Hnone, app_nil_l.
      cbn [List.filter isDue fst negb].
      rewrite Hnow. cbn [negb forEach runAction snd].
      set (q1 := mkPage (page_browser q) (app q) _).
      unfold bind. destruct (handleHangUp_spec q1) as (Hok & Hbr & Hac).
      destruct (handleHangUp q1) as [r q2]. cbn [fst snd] in *. subst r.
      unfold ret. cbn [fst snd].
      destruct (hungUp_frame q1) as (Hb1 & _ & Hc1 & Ht1 & _ & Htr1 & _ & _ & He1).
      rewrite Hac, Hbr, Ht1, He1, Hc1, Hb1.
      split; [reflexivity|].
      split; [subst q1; destruct (activeCall q); reflexivity|].
      split; [subst q1 q; destruct (activeCall p); reflexivity|].
      intros cl Hlr Hcl. unfold afterDisconnect.
      assert (Hlr1 : liveClientRef (activeCall q1) = true)
        by (subst q1 q; destruct (activeCall p); exact Hlr).
      assert (Hcl1 : clientObj (activeCall q1) = Some cl)
        by (subst q1 q; destruct (activeCall p); exact Hcl).
      rewrite Hlr1, Hcl1. split; [destruct (activeCall q1); reflexivity|reflexivity].
  - intros Hno.
    assert (Hb : negb isUser && includes END_CALL text = false)
      by (destruct Hno as [-> | ->]; [reflexivity|apply andb_false_r]).
    rewrite Hb. destruct (activeCall p); reflexivity.
Qed.

Lemma C7_end_marker_schedules_hangup_witness :
  isMountedRef (activeCall fiveSecondCall) = true
  /\ includes END_CALL "This training session has now come to a close. [[END_CALL]]" = true
  /\ timeouts (activeCall
       (snd (onTranscript "This training session has now come to a close. [[END_CALL]]"
                          false fiveSecondCall)))
     = timeouts (activeCall fiveSecondCall)
       ++ [((clock (activeCall fiveSecondCall) + 3000)%Z, HangUp)].
Proof.
  assert (Hm : isMountedRef (activeCall fiveSecondCall) = true) by reflexivity.
  assert (Hi : includes END_CALL
                 "This training session has now come to a close. [[END_CALL]]" = true)
    by reflexivity.
  split; [exact Hm|]. split; [exact Hi|].
  pose proof (C7_end_marker_schedules_hangup fiveSecondCall
                "This training session has now come to a close. [[END_CALL]]" false) as H.
  cbv zeta in H.
  exact (proj1 (proj1 (proj2 (proj2 (proj2 (proj2 (proj2 (proj2 H))))))
                  Hm eq_refl Hi)).
Defined.

(** ** A failed [connect] *)

Lemma two_new_lookup_0 {A : Type} (l : list A) (x y : A) :
  ((l ++ [x]) ++ [y]) !! length l = Some x.
Proof. induction l as [|z l IH]; [reflexivity|exact IH]. Qed.

Lemma two_new_lookup_1 {A : Type} (f : A -> A) (l : list A) (x y : A) :
  alter f (length l) ((l ++ [x]) ++ [y]) !! length (l ++ [x]) = Some y.
Proof. induction l as [|z l IH]; [reflexivity|exact IH]. Qed.

Lemma two_new_alter {A : Type} (f g : A -> A) (l : list A) (x y : A) :
  alter g (length (l ++ [x])) (alter f (length l) ((l ++ [x]) ++ [y]))
  = l ++ [f x; g y].
Proof. induction l as [|z l IH]; [reflexivity|]. cbn. f_equal. exact IH. Qed.

Lemma length_snoc {A : Type} (l : list A) (x : A) : length (l ++ [x]) = S (length l).
Proof. rewrite length_app. cbn. lia. Qed.

Lemma openPipelines_runs (b : Browser) (c : LiveClient) (cl : list ConfigCall) :
  audioContextSupported (env b) = true ->
  openPipelines (mkMachine b c cl) =
    (Normal tt,
     mkMachine (set_contexts (contexts b ++ [resumedContext b; resumedContext b]) b)
               (set_outputAudioContext (Some (S (length (contexts b))))
                  (set_inputAudioContext (Some (length (contexts b))) c))
               cl).
Proof.
  intros Hs. destruct b as [ctxs trs srcs nds sess proms mic e]. cbn [env contexts] in *.
  unfold openPipelines, bind at 1, gets. cbn [browser env]. rewrite Hs. cbn [negb].
  unfold newAudioContext, ctx_resume, field, deref, onThis, onBrowser, bind, gets,
    modify, ret.
  records. cbn [browser this env contexts].
  rewrite two_new_lookup_0. cbn [ctx_state ContextState_eqb]. records.
  rewrite two_new_lookup_1. cbn [ctx_state ContextState_eqb]. records.
  rewrite two_new_alter, length_snoc. reflexivity.
Qed.

Ltac js_unfold :=
  unfold requestMicrophone, openSession, deliverOpen, awaitSession,
    awaitSessionPromise, getUserMedia, live_connect, await, handleOpen,
    tryCatch, field, deref, onThis, onBrowser, bind, gets, modify, ret, throw.

Lemma connect_mic_refused (b : Browser) (cl : list ConfigCall) :
  audioContextSupported (env b) = true ->
  microphoneGranted (env b) = false ->
  connect (mkMachine b newLiveClient cl) = (Thrown NotAllowedError, micRefused b cl).
Proof.
  intros Hs Hm. unfold connect, bind at 1, gets. cbn [this newLiveClient isConnected].
  unfold bind at 1. rewrite (openPipelines_runs b _ cl Hs).
  destruct b as [ctxs trs srcs nds sess proms mic e]. cbn [env] in *.
  js_unfold. records. cbn [env]. rewrite Hm. reflexivity.
Qed.

Lemma connect_session_refused (b : Browser) (cl : list ConfigCall) :
  audioContextSupported (env b) = true ->
  microphoneGranted (env b) = true ->
  remoteAccepts (env b) = false ->
  connect (mkMachine b newLiveClient cl)
  = (Thrown (ErrorMsg "session rejected"), sessionRefused b cl).
Proof.
  intros Hs Hm Hr. unfold connect, bind at 1, gets. cbn [this newLiveClient isConnected].
  unfold bind at 1. rewrite (openPipelines_runs b _ cl Hs).
  destruct b as [ctxs trs srcs nds sess proms mic e]. cbn [env] in *.
  js_unfold. records. cbn [env]. rewrite Hm. records. cbn [env]. rewrite Hr. records.
  rewrite lookup_last. records. rewrite lookup_last. reflexivity.
Qed.

Lemma startCall_failed (p : Page) (k : string) (e : JsError) (m : Machine) :
  GEMINI_API_KEY (env (page_browser p)) = Some k ->
  String.eqb k "" = false ->
  connect (mkMachine (page_browser p) newLiveClient []) = (Thrown e, m) ->
  isMountedRef (activeCall p) = true ->
  ignore (activeCall p) = false ->
  startCall p = (Normal tt, failedCall p m e).
Proof.
  intros Hk Hne Hc Hm Hi. destruct p as [b a ac]. cbn [page_browser activeCall] in *.
  unfold startCall, tryCatch, bind at 1, gets. cbn [page_browser]. rewrite Hk, Hne.
  unfold bind at 1, onCall, modify. unfold bind at 1. cbn [page_browser app activeCall].
  unfold bind at 1, onClient. cbn [page_browser app activeCall].
  destruct ac as [per st dur tr mu em co lr tid ia trr mo ig tos ck ec].
  cbn [clientObj set_clientObj set_liveClientRef persona status call_duration transcript
       isMuted errorMessage liveClientRef timerRef intervalArmed transcriptRef
       isMountedRef ignore timeouts clock onEndCall_calls] in *.
  rewrite Hc. cbn [fst snd]. subst mo ig.
  reflexivity.
Qed.

Arguments disconnect : simpl never.
Arguments disconnected : simpl never.

Lemma cleanup_runs : runs cleanup unmounted.
Proof.
  intros [b a ac]. unfold cleanup, unmounted, stopTimer.
  destruct ac as [per st dur tr mu em co lr tid ia trr mo ig tos ck ec].
  destruct tid as [tid|], co as [cl|];
    unfold bind, gets, modify, ret, tryCatch, onClient, onCall, modify; cbn;
    try (pose proof (disconnect_runs (mkMachine b cl [])) as Hd; rewrite !Hd; cbn);
    reflexivity.
Qed.

Lemma connect_unsupported (b : Browser) (cl : list ConfigCall) :
  audioContextSupported (env b) = false ->
  connect (mkMachine b newLiveClient cl)
  = (Thrown (ErrorMsg "AudioContext not supported in this browser"),
     mkMachine b newLiveClient cl).
Proof.
  intros Hs. unfold connect, openPipelines, bind, gets.
  cbn [this browser newLiveClient isConnected]. rewrite Hs. reflexivity.
Qed.

Lemma startCall_no_credential (p : Page) :
  connectFailure (env (page_browser p)) = Some NoCredential ->
  isMountedRef (activeCall p) = true ->
  ignore (activeCall p) = false ->
  startCall p =
    (Normal tt,
     mkPage (page_browser p) (app p)
            (set_errorMessage API_KEY_NOT_FOUND (set_status error (activeCall p)))).
Proof.
  intros Hf Hm Hi. unfold connectFailure in Hf.
  destruct p as [b a ac]. cbn [page_browser activeCall] in *.
  unfold startCall, tryCatch, bind at 1, gets. cbn [page_browser].
  destruct (GEMINI_API_KEY (env b)) as [k|].
  - destruct (String.eqb k "") eqn:Hk.
    + unfold throw, bind, gets, when, onCall, modify. cbn [activeCall].
      rewrite Hm, Hi. reflexivity.
    + destruct (negb (audioContextSupported (env b))); [discriminate|].
      destruct (negb (microphoneGranted (env b))); [discriminate|].
      destruct (negb (remoteAccepts (env b))); discriminate.
  - unfold throw, bind, gets, when, onCall, modify. cbn [activeCall].
    rewrite Hm, Hi. reflexivity.
Qed.

(** A failed [connect], as [startCall] sees it. *)
Lemma connect_failure_outcome (p : Page) (f : ConnectFailure) (m : Machine) :
  connectFailure (env (page_browser p)) = Some f ->
  heldAtFailure f p = Some m ->
  exists k e,
    GEMINI_API_KEY (env (page_browser p)) = Some k
    /\ String.eqb k "" = false
    /\ connect (mkMachine (page_browser p) newLiveClient []) = (Thrown e, m)
    /\ error_message e =
       match f with
       | NoAudioContext => "AudioContext not supported in this browser"
       | MicrophoneRefused => "Permission denied"
       | _ => "session rejected"
       end.
Proof.
  unfold connectFailure, heldAtFailure. intros Hf Hheld.
  destruct (GEMINI_API_KEY (env (page_browser p))) as [k|];
    [|inversion Hf; subst f; discriminate].
  destruct (String.eqb k "") eqn:Hk; [inversion Hf; subst f; discriminate|].
  destruct (audioContextSupported (env (page_browser p))) eqn:Hs; cbn [negb] in Hf.
  2: { inversion Hf; subst f. inversion Hheld; subst m.
       eexists k, _. split; [reflexivity|]. split; [exact Hk|].
       split; [apply connect_unsupported; exact Hs|reflexivity]. }
  destruct (microphoneGranted (env (page_browser p))) eqn:Hg; cbn [negb] in Hf.
  2: { inversion Hf; subst f. inversion Hheld; subst m.
       eexists k, _. split; [reflexivity|]. split; [exact Hk|].
       split; [apply connect_mic_refused; assumption|reflexivity]. }
  destruct (remoteAccepts (env (page_browser p))) eqn:Hr; cbn [negb] in Hf;
    [discriminate|].
  inversion Hf; subst f. inversion Hheld; subst m.
  eexists k, _. split; [reflexivity|]. split; [exact Hk|].
  split; [apply connect_session_refused; assumption|reflexivity].
Qed.

Lemma two_new_running (b : Browser) (id : nat) :
  id = length (contexts b) \/ id = S (length (contexts b)) ->
  ctx_state <$> (contexts b ++ [resumedContext b; resumedContext b]) !! id = Some running.
Proof.
  intros [-> | ->].
  - rewrite (lookup_app_r (contexts b)) by lia. rewrite Nat.sub_diag. reflexivity.
  - rewrite (lookup_app_r (contexts b)) by lia.
    replace (S (length (contexts b)) - length (contexts b)) with 1 by lia. reflexivity.
Qed.

(** What the cleanup releases, whatever the client holds. *)
Lemma cleanup_releases (p : Page) (cl : LiveClient) :
  clientObj (activeCall p) = Some cl ->
  fst (cleanup p) = Normal tt
  /\ clientObj (activeCall (snd (cleanup p))) = Some (released cl)
  /\ (forall id ctx, inputAudioContext cl = Some id \/ outputAudioContext cl = Some id ->
        contexts (page_browser (snd (cleanup p))) !! id = Some ctx ->
        ctx_state ctx = closed)
  /\ (forall st id t, stream cl = Some st -> id ∈ getTracks st ->
        tracks (page_browser (snd (cleanup p))) !! id = Some t -> track_ended t = true).
Proof.
  intros Hcl. rewrite (cleanup_runs p). cbn [fst snd]. unfold unmounted. rewrite Hcl.
  cbn [page_browser activeCall].
  destruct (disconnected_releases (mkMachine (page_browser p) cl []))
    as (_ & _ & Htr & _ & Hctx).
  split; [reflexivity|].
  split; [unfold stopTimer; destruct (activeCall p) as [? ? ? ? ? ? ? ? [?|] ? ? ? ? ? ? ?];
          reflexivity|].
  split; [exact Hctx|exact Htr].
Qed.

(** C4, as amended. When [connect] fails at the start of a call (no
    credential, no AudioContext support, microphone refused, session
    rejected) on a mounted call screen, [startCall] completes with the call in
    the error state and a message.  Nothing is released at that point: the
    store and the client are exactly as the failure left them, so after a
    refused microphone both audio contexts are still running, and after a
    rejected session the microphone track is live as well; without a
    credential or without AudioContext support nothing had been acquired.
    The release happens in the effect's cleanup, whose [disconnect] closes
    every context and ends every track the client holds. *)
Theorem C4_failed_connect_surfaces_unreleased (p : Page) (f : ConnectFailure) :
  connectFailure (env (page_browser p)) = Some f ->
  isMountedRef (activeCall p) = true ->
  ignore (activeCall p) = false ->
  let p' := snd (startCall p) in
  let p'' := snd (cleanup p') in
  let i := length (contexts (page_browser p)) in
  fst (startCall p) = Normal tt
  /\ status (activeCall p') = error
  /\ errorMessage (activeCall p') <> ""
  /\ match heldAtFailure f p with
     | None => page_browser p' = page_browser p
               /\ clientObj (activeCall p') = clientObj (activeCall p)
     | Some m => page_browser p' = browser m
                 /\ clientObj (activeCall p') = Some (this m)
     end
  /\ (f = MicrophoneRefused \/ f = SessionRejected ->
        forall id, id = i \/ id = S i ->
          ctx_state <$> contexts (page_browser p') !! id = Some running)
  /\ (f = SessionRejected ->
        track_ended <$> tracks (page_browser p') !! length (tracks (page_browser p))
        = Some false)
  /\ (forall cl, clientObj (activeCall p') = Some cl ->
        fst (cleanup p') = Normal tt
        /\ clientObj (activeCall p'') = Some (released cl)
        /\ (forall id ctx,
              inputAudioContext cl = Some id \/ outputAudioContext cl = Some id ->
              contexts (page_browser p'') !! id = Some ctx -> ctx_state ctx = closed)
        /\ (forall st id t, stream cl = Some st -> id ∈ getTracks st ->
              tracks (page_browser p'') !! id = Some t -> track_ended t = true)).
Proof.
  intros Hf Hm Hi. cbv zeta.
  assert (Hlast : forall q cl, clientObj (activeCall q) = Some cl ->
            fst (cleanup q) = Normal tt
            /\ clientObj (activeCall (snd (cleanup q))) = Some (released cl)
            /\ (forall id ctx,
                  inputAudioContext cl = Some id \/ outputAudioContext cl = Some id ->
                  contexts (page_browser (snd (cleanup q))) !! id = Some ctx ->
                  ctx_state ctx = closed)
            /\ (forall st id t, stream cl = Some st -> id ∈ getTracks st ->
                  tracks (page_browser (snd (cleanup q))) !! id = Some t ->
                  track_ended t = true))
    by exact cleanup_releases.
  destruct (heldAtFailure f p) as [m|] eqn:Hheld.
  - destruct (connect_failure_outcome p f m Hf Hheld) as (k & e & Hk & Hne & Hc & Hmsg).
    rewrite (startCall_failed p k e m Hk Hne Hc Hm Hi). cbn [fst snd].
    set (p' := failedCall p m e).
    assert (Hb : page_browser p' = browser m) by reflexivity.
    assert (Hcl : clientObj (activeCall p') = Some (this m))
      by (subst p'; unfold failedCall; destruct (activeCall p); reflexivity).
    split; [reflexivity|].
    split; [subst p'; unfold failedCall; destruct (activeCall p); reflexivity|].
    split.
    { subst p'; unfold failedCall; destruct (activeCall p); cbn.
      rewrite Hmsg. destruct f; discriminate. }
    split; [split; assumption|].
    split.
    { intros Hkind id Hid. rewrite Hb.
      destruct Hkind as [-> | ->]; inversion Hheld; subst m;
        apply two_new_running; exact Hid. }
    split.
    { intros ->. rewrite Hb. inversion Hheld; subst m. cbn [sessionRefused browser tracks].
      rewrite lookup_last. reflexivity. }
    exact (Hlast p').
  - destruct f; try discriminate.
    rewrite (startCall_no_credential p Hf Hm Hi). cbn [fst snd].
    set (p' := mkPage _ _ _).
    split; [reflexivity|].
    split; [subst p'; destruct (activeCall p); reflexivity|].
    split; [subst p'; destruct (activeCall p); discriminate|].
    split; [split; [reflexivity|subst p'; destruct (activeCall p); reflexivity]|].
    split; [intros [?|?]; discriminate|].
    split; [discriminate|].
    exact (Hlast p').
Qed.

Lemma C4_failed_connect_surfaces_unreleased_witness :
  connectFailure (env (page_browser (samplePage envRejected))) = Some SessionRejected
  /\ isMountedRef (activeCall (samplePage envRejected)) = true
  /\ ignore (activeCall (samplePage envRejected)) = false
  /\ status (activeCall (snd (startCall (samplePage envRejected)))) = error.
Proof.
  assert (Hf : connectFailure (env (page_browser (samplePage envRejected)))
               = Some SessionRejected) by reflexivity.
  assert (Hm : isMountedRef (activeCall (samplePage envRejected)) = true) by reflexivity.
  assert (Hi : ignore (activeCall (samplePage envRejected)) = false) by reflexivity.
  split; [exact Hf|]. split; [exact Hm|]. split; [exact Hi|].
  exact (proj1 (proj2 (C4_failed_connect_surfaces_unreleased
                         (samplePage envRejected) SessionRejected Hf Hm Hi))).
Defined.

(** The claim fails when the microphone is refused: the call is in the error
    state, the failure has been surfaced, and both audio contexts that
    [connect] had opened are still running and still referenced by the
    client.  It fails in the same way when the session is rejected, with the
    microphone track still live. *)
Lemma C4_counterexample_contexts_left_open :
  let p' := snd (startCall (samplePage envMicDenied)) in
  let q' := snd (startCall (samplePage envRejected)) in
  fst (startCall (samplePage envMicDenied)) = Normal tt
  /\ status (activeCall p') = error
  /\ errorMessage (activeCall p') = "Permission denied"
  /\ (ctx_state <$> contexts (page_browser p')) = [running; running]
  /\ (inputAudioContext <$> clientObj (activeCall p')) = Some (Some 0)
  /\ (outputAudioContext <$> clientObj (activeCall p')) = Some (Some 1)
  /\ status (activeCall q') = error
  /\ (ctx_state <$> contexts (page_browser q')) = [running; running]
  /\ (track_ended <$> tracks (page_browser q')) = [false].
Proof.
  cbv zeta. evaluate.
Qed.

(** ** The capture callback *)

Section CaptureFacts.

Import Capture.
Local Open Scope R_scope.

Lemma sumSquares_from (inputData : list R) (acc : R) :
  0 <= acc -> 0 <= fold_left (fun sum x => sum + x * x) inputData acc.
Proof.
  revert acc. induction inputData as [|x l IH]; intros acc Hacc; simpl.
  - exact Hacc.
  - apply IH. pose proof (Rle_0_sqr x) as Hx. unfold Rsqr in Hx. lra.
Qed.

Lemma rms_nonneg (inputData : list R) : 0 <= rms inputData.
Proof. unfold rms. apply sqrt_pos. Qed.

Lemma level_in_range (inputData : list R) :
  0 <= Rmin 1 (rms inputData * 5) <= 1.
Proof.
  pose proof (rms_nonneg inputData) as Hr. split.
  - apply Rmin_glb; lra.
  - apply Rmin_l.
Qed.

Lemma reported_levels (s : Machine) (inputData : list R) (ctx : nat) (v : R) :
  inputAudioContext (this s) = Some ctx ->
  In (onAudioData v) (onaudioprocess s inputData) <->
  1 / 100 < rms inputData /\ v = Rmin 1 (rms inputData * 5).
Proof.
  intros Hctx. unfold onaudioprocess. rewrite Hctx. split.
  - intros Hin. apply in_app_or in Hin. destruct Hin as [Hin|Hin].
    + destruct (Rlt_dec (1 / 100) (rms inputData)) as [Hlt|Hge]; [|inversion Hin].
      destruct Hin as [Heq|[]]. inversion Heq. split; [exact Hlt|reflexivity].
    + destruct (sessionPromise (this s)) as [p|]; [|inversion Hin].
      destruct (promises (browser s) !! p) as [[sid|e]|]; try solve [inversion Hin].
      destruct Hin as [Heq|[]]. discriminate.
  - intros [Hlt ->]. apply in_or_app. left.
    destruct (Rlt_dec (1 / 100) (rms inputData)) as [_|Hge]; [|contradiction].
    left. reflexivity.
Qed.

(** C9, as amended. For every captured frame handled while the input context
    exists, the callback reports a visualizer level if and only if the
    root-mean-square of the frame exceeds the noise floor 0.01; the level it
    reports is not the RMS itself but the RMS with a gain of 5, clamped to 1,
    [min(1, 5 * rms)], which lies in [0,1]. *)
Theorem C9_level_reported_above_noise_floor
        (s : Machine) (inputData : list R) (ctx : nat) :
  inputAudioContext (this s) = Some ctx ->
  ((exists v, In (onAudioData v) (onaudioprocess s inputData))
   <-> rms inputData > 1 / 100)
  /\ (forall v, In (onAudioData v) (onaudioprocess s inputData) ->
        v = Rmin 1 (rms inputData * 5) /\ 0 <= v <= 1)
  /\ 0 <= rms inputData.
Proof.
  intros Hctx. split; [split|split].
  - intros [v Hv]. apply (reported_levels s inputData ctx v Hctx) in Hv.
    destruct Hv as [Hlt _]. exact Hlt.
  - intros Hgt. exists (Rmin 1 (rms inputData * 5)).
    apply (reported_levels s inputData ctx _ Hctx). split; [exact Hgt|reflexivity].
  - intros v Hv. apply (reported_levels s inputData ctx v Hctx) in Hv.
    destruct Hv as [_ ->]. split; [reflexivity|apply level_in_range].
  - apply rms_nonneg.
Qed.

Lemma rms_tenth : rms [1 / 10] = 1 / 10.
Proof.
  unfold rms, sumSquares. simpl.
  replace ((0 + 1 / 10 * (1 / 10)) / 1) with ((1 / 10) * (1 / 10)) by lra.
  apply sqrt_square. lra.
Qed.

Lemma C9_level_reported_above_noise_floor_witness :
  inputAudioContext (this connectedMachine) = Some 0%nat
  /\ 0 <= rms [1 / 10].
Proof.
  assert (H : inputAudioContext (this connectedMachine) = Some 0%nat) by reflexivity.
  split; [exact H|].
  exact (proj2 (proj2 (C9_level_reported_above_noise_floor
                         connectedMachine [1 / 10] 0%nat H))).
Defined.

(** The claim fails on a frame of one sample of amplitude 0.1: its RMS, the
    loudness estimate of the spec, is 0.1, above the noise floor, and the
    level reported is 0.5. *)
Lemma C9_counterexample_level_is_scaled :
  rms [1 / 10] = 1 / 10
  /\ In (onAudioData (1 / 2)) (onaudioprocess connectedMachine [1 / 10])
  /\ 1 / 2 <> rms [1 / 10].
Proof.
  split; [exact rms_tenth|]. split.
  - apply (reported_levels connectedMachine [1 / 10] 0%nat (1 / 2) eq_refl).
    rewrite rms_tenth. split; [lra|].
    unfold Rmin. destruct (Rle_dec 1 (1 / 10 * 5)); lra.
  - rewrite rms_tenth. lra.
Qed.

End CaptureFacts.

(** ** A connection that goes through *)

Lemma connect_established (b : Browser) (cl : list ConfigCall) :
  audioContextSupported (env b) = true ->
  microphoneGranted (env b) = true ->
  remoteAccepts (env b) = true ->
  connect (mkMachine b newLiveClient cl) = (Normal tt, established b cl).
Proof.
  intros Hs Hm Hr. unfold connect, bind at 1, gets. cbn [this newLiveClient isConnected].
  unfold bind at 1. rewrite (openPipelines_runs b _ cl Hs).
  destruct b as [ctxs trs srcs nds sess proms mic e]. cbn [env] in *.
  js_unfold. records. cbn [env]. rewrite Hm. records. cbn [env]. rewrite Hr. records.
  rewrite lookup_last. records.
  unfold createNode, node_connect, onBrowser, bind, gets, modify, ret. records.
  rewrite two_new_alter. rewrite lookup_last. rewrite length_snoc.
  reflexivity.
Qed.

Lemma alter_two_new {A : Type} (f g : A -> A) (l : list A) (x y : A) :
  alter g (S (length l)) (alter f (length l) (l ++ [x; y])) = l ++ [f x; g y].
Proof. induction l as [|z l IH]; [reflexivity|]. cbn. f_equal. exact IH. Qed.

Lemma disconnected_established (b : Browser) (cl : list ConfigCall) :
  disconnected (established b cl) = torndown b cl.
Proof.
  destruct b as [ctxs trs srcs nds sess proms mic e].
  unfold disconnected, established, torndown, closeCtx, discNode, stopTracks,
    closeSettled, getTracks, alterAll, resumedContext.
  records. cbn [fold_left env].
  rewrite !alter_two_new, alter_last, lookup_last, alter_last. reflexivity.
Qed.

(** X1. On a new client, when the platform has audio contexts, the
    microphone is granted and the remote end accepts the session, [connect]
    completes normally with the client connected.  It has then created
    exactly: two audio contexts, both resumed, held as the input and the
    output context; one microphone stream with one live, enabled audio
    track, asked for once; one session behind a fulfilled promise; and the
    capture chain of [handleOpen], a stream source and a script processor
    with a 2048-sample buffer, each connected once.  What the store held
    before is still there, nothing is queued for playback, and no callback
    of the configuration has been invoked. *)
Theorem X1_connect_acquires_pipeline (b : Browser) (cl : list ConfigCall) :
  audioContextSupported (env b) = true ->
  microphoneGranted (env b) = true ->
  remoteAccepts (env b) = true ->
  let s' := snd (connect (mkMachine b newLiveClient cl)) in
  let i := length (contexts b) in
  let t := length (tracks b) in
  let n := length (nodes b) in
  fst (connect (mkMachine b newLiveClient cl)) = Normal tt
  /\ isConnected (this s') = true
  /\ inputAudioContext (this s') = Some i
  /\ outputAudioContext (this s') = Some (S i)
  /\ contexts (browser s') = contexts b ++ [resumedContext b; resumedContext b]
  /\ stream (this s') = Some [t]
  /\ tracks (browser s') = tracks b ++ [mkTrack AudioTrack true false]
  /\ micTracks s' = [t]
  /\ micRequests (browser s') = S (micRequests b)
  /\ sessionPromise (this s') = Some (length (promises b))
  /\ promises (browser s') = promises b ++ [fulfilled (length (sessions b))]
  /\ sessions (browser s') = sessions b ++ [mkSession false]
  /\ sourceNode (this s') = Some n
  /\ scriptProcessor (this s') = Some (S n)
  /\ nodes (browser s') = nodes b ++ [mkNode (MediaStreamSource [t]) 1;
                                      mkNode (ScriptProcessor 2048 1 1) 1]
  /\ sources (browser s') = sources b
  /\ audioQueue (this s') = []
  /\ calls s' = cl.
Proof.
  intros Hs Hm Hr. cbv zeta. rewrite (connect_established b cl Hs Hm Hr).
  cbn [fst snd]. unfold established. records.
  repeat (split; [reflexivity|]).
  split.
  { unfold micTracks, getAudioTracks, is_audio. records. cbn [List.filter].
    rewrite lookup_last. reflexivity. }
  repeat (split; [reflexivity|]). reflexivity.
Qed.

Lemma X1_connect_acquires_pipeline_witness :
  audioContextSupported (env (emptyBrowser sampleEnv)) = true
  /\ microphoneGranted (env (emptyBrowser sampleEnv)) = true
  /\ remoteAccepts (env (emptyBrowser sampleEnv)) = true
  /\ isConnected (this (snd (connect (freshMachine sampleEnv)))) = true.
Proof.
  split; [reflexivity|]. split; [reflexivity|]. split; [reflexivity|].
  exact (proj1 (proj2 (X1_connect_acquires_pipeline (emptyBrowser sampleEnv) []
                         eq_refl eq_refl eq_refl))).
Defined.

(** X2. [connect] followed by [disconnect] is a round trip on the client
    and leaks nothing: the client is back to the values of a new one, both
    contexts are closed, the microphone track has ended, both capture nodes
    have no connection left and the session is closed, while every entry the
    store held before the connection is as it was.  Only the microphone
    request stays counted. *)
Theorem X2_connect_disconnect_round_trip (b : Browser) (cl : list ConfigCall) :
  audioContextSupported (env b) = true ->
  microphoneGranted (env b) = true ->
  remoteAccepts (env b) = true ->
  let s1 := snd (connect (mkMachine b newLiveClient cl)) in
  let s2 := snd (disconnect s1) in
  let shut := mkAudioContext closed 0 (deviceSampleRate (env b)) in
  fst (disconnect s1) = Normal tt
  /\ this s2 = newLiveClient
  /\ contexts (browser s2) = contexts b ++ [shut; shut]
  /\ tracks (browser s2) = tracks b ++ [mkTrack AudioTrack true true]
  /\ nodes (browser s2)
     = nodes b ++ [mkNode (MediaStreamSource [length (tracks b)]) 0;
                   mkNode (ScriptProcessor 2048 1 1) 0]
  /\ sessions (browser s2) = sessions b ++ [mkSession true]
  /\ sources (browser s2) = sources b
  /\ micRequests (browser s2) = S (micRequests b)
  /\ calls s2 = cl.
Proof.
  intros Hs Hm Hr. cbv zeta. rewrite (connect_established b cl Hs Hm Hr).
  cbn [fst snd]. rewrite (disconnect_runs (established b cl)).
  rewrite disconnected_established. cbn [fst snd]. unfold torndown. records.
  repeat (split; [reflexivity|]). reflexivity.
Qed.

Lemma X2_connect_disconnect_round_trip_witness :
  audioContextSupported (env (emptyBrowser sampleEnv)) = true
  /\ microphoneGranted (env (emptyBrowser sampleEnv)) = true
  /\ remoteAccepts (env (emptyBrowser sampleEnv)) = true
  /\ this (snd (disconnect (snd (connect (freshMachine sampleEnv))))) = newLiveClient.
Proof.
  split; [reflexivity|]. split; [reflexivity|]. split; [reflexivity|].
  exact (proj1 (proj2 (X2_connect_disconnect_round_trip (emptyBrowser sampleEnv) []
                         eq_refl eq_refl eq_refl))).
Defined.

(** ** Every inbound message *)

Section InboundOutcomeFacts.

Variable decodeAudioData : list Byte.byte -> positive -> nat -> Completion AudioBuffer.

Local Abbreviation handle := (handleMessage decodeAudioData).
Local Abbreviation after := (afterMessage decodeAudioData).
Local Abbreviation step1 := (step decodeAudioData).
Local Abbreviation runs_through := (run decodeAudioData).

Lemma playChunk_runs (data : list Byte.byte) (s : Machine) (octx : nat) :
  outputAudioContext (this s) = Some octx ->
  playChunk decodeAudioData data s =
    if Nat.odd (length data) then (Thrown RangeError, s)
    else
      let s1 := mkMachine (browser s) (this s) (calls s ++ [onAudioData_model data]) in
      match decodeAudioData data 24000%positive 1 with
      | Normal buf => (Normal tt, scheduledMachine octx buf s1)
      | Thrown e => (Thrown e, s1)
      end.
Proof.
  intros Ho. destruct s as [b c cl]. cbn [this] in Ho.
  unfold playChunk. unfold bind at 1. destruct (Nat.odd (length data)); [reflexivity|].
  unfold ret at 1. unfold bind at 1, call, modify. unfold bind at 1.
  cbn [browser this calls].
  destruct (decodeAudioData data 24000%positive 1) as [buf|e]; [|reflexivity].
  rewrite (scheduleBuffer_runs buf octx) by exact Ho. reflexivity.
Qed.

Lemma handleMessage_runs (m : LiveServerMessage) (s : Machine) :
  handle m s = (Normal tt, after s m).
Proof.
  unfold handleMessage, afterMessage, tryCatch, field, bind at 1, gets.
  destruct (outputAudioContext (this s)) as [octx|] eqn:Ho; [|reflexivity].
  phase (runs_transcript (inputTranscription m) true).
  phase (runs_transcript (outputTranscription m) false).
  rewrite <- app_assoc.
  set (s0 := mkMachine (browser s) (this s) _).
  assert (Ho0 : outputAudioContext (this s0) = Some octx) by exact Ho.
  unfold bind at 1, callbacksOf.
  destruct (modelAudio m) as [data|].
  - rewrite (playChunk_runs data s0 octx Ho0).
    destruct (Nat.odd (length data)).
    { unfold ret, s0. rewrite !app_nil_r. reflexivity. }
    cbv zeta. unfold s0. cbn [browser this calls]. rewrite <- !app_assoc.
    set (s1 := mkMachine (browser s) (this s) _).
    destruct (decodeAudioData data 24000%positive 1) as [buf|e]; [|reflexivity].
    destruct (interrupted m); [|reflexivity].
    unfold when.
    rewrite (handleInterruption_runs octx (scheduledMachine octx buf s1))
      by (unfold scheduledMachine; exact Ho).
    reflexivity.
  - unfold ret at 1. rewrite app_nil_r.
    destruct (interrupted m); [|reflexivity].
    unfold when. rewrite (handleInterruption_runs octx s0 Ho0). reflexivity.
Qed.

Lemma afterMessage_frame (m : LiveServerMessage) (s : Machine) :
  set_sources (sources (browser s)) (browser (after s m)) = browser s
  /\ set_nextStartTime (nextStartTime (this s))
       (set_audioQueue (audioQueue (this s)) (this (after s m))) = this s.
Proof.
  destruct s as [[ctxs trs srcs nds sess proms mic e] [ic oc nst st sp scp sn con q] cl].
  unfold afterMessage, interruptedMachine, scheduledMachine. records.
  destruct oc as [octx|]; [|split; reflexivity].
  destruct (modelAudio m) as [data|];
    [destruct (Nat.odd (length data));
     [|destruct (decodeAudioData data 24000%positive 1)]|];
    destruct (interrupted m); split; reflexivity.
Qed.

Lemma afterMessage_sources (m : LiveServerMessage) (s : Machine) (i : nat)
      (src : AudioBufferSourceNode) :
  sources (browser s) !! i = Some src ->
  sources (browser (after s m)) !! i = Some src
  \/ sources (browser (after s m)) !! i = Some (stopIfStarted src).
Proof.
  intros Hi.
  assert (Hflush : forall octx x,
             sources (browser x) !! i = Some src ->
             sources (browser (if interrupted m then interruptedMachine octx x else x)) !! i
             = Some src
             \/ sources (browser (if interrupted m then interruptedMachine octx x else x)) !! i
                = Some (stopIfStarted src)).
  { intros octx x Hx. destruct (interrupted m); [|left; exact Hx].
    unfold interruptedMachine. records.
    rewrite alterAll_lookup by apply stopIfStarted_idem. rewrite Hx.
    destruct (bool_decide _); [right|left]; reflexivity. }
  unfold afterMessage.
  destruct (outputAudioContext (this s)) as [octx|]; [|left; exact Hi].
  cbv zeta.
  destruct (modelAudio m) as [data|]; [|apply Hflush; exact Hi].
  destruct (Nat.odd (length data)); [left; exact Hi|].
  destruct (decodeAudioData data 24000%positive 1) as [buf|e]; [|left; exact Hi].
  apply Hflush. unfold scheduledMachine. records.
  apply lookup_app_l_Some. exact Hi.
Qed.

Lemma afterMessage_calls (m : LiveServerMessage) (s : Machine) :
  calls (after s m) =
    match outputAudioContext (this s) with
    | Some _ => calls s ++ callbacksOf m
    | None => calls s
    end.
Proof.
  unfold afterMessage, interruptedMachine, scheduledMachine.
  destruct (outputAudioContext (this s)) as [octx|]; [|reflexivity].
  destruct (modelAudio m) as [data|];
    [destruct (Nat.odd (length data));
     [|destruct (decodeAudioData data 24000%positive 1)]|];
    destruct (interrupted m); reflexivity.
Qed.

(** X3. [handleMessage] never throws, whatever the message, the state of
    the client and the behaviour of the decoder: the handler's own [catch]
    absorbs every failure.  It touches the playback side only: of the store
    only the table of buffer sources, of the client only the cursor and the
    queue.  A source that exists is never removed nor restarted; at most it
    is stopped. *)
Theorem X3_handleMessage_never_throws (m : LiveServerMessage) (s : Machine) :
  let s' := snd (handle m s) in
  fst (handle m s) = Normal tt
  /\ set_sources (sources (browser s)) (browser s') = browser s
  /\ set_nextStartTime (nextStartTime (this s))
       (set_audioQueue (audioQueue (this s)) (this s')) = this s
  /\ (forall i src, sources (browser s) !! i = Some src ->
        sources (browser s') !! i = Some src
        \/ sources (browser s') !! i = Some (stopIfStarted src)).
Proof.
  cbv zeta. rewrite (handleMessage_runs m s). cbn [fst snd].
  split; [reflexivity|].
  split; [exact (proj1 (afterMessage_frame m s))|].
  split; [exact (proj2 (afterMessage_frame m s))|].
  intros i src. apply afterMessage_sources.
Qed.

(** X4. A message that arrives when the client has no output context is
    dropped whole: nothing is forwarded to the callbacks, nothing is
    scheduled, the state is unchanged.  This is the case for every message
    delivered after [disconnect]. *)
Theorem X4_message_after_disconnect_ignored (m : LiveServerMessage) (s : Machine) :
  (outputAudioContext (this s) = None -> handle m s = (Normal tt, s))
  /\ handle m (snd (disconnect s)) = (Normal tt, snd (disconnect s)).
Proof.
  assert (H : forall x, outputAudioContext (this x) = None -> handle m x = (Normal tt, x)).
  { intros x Hx. rewrite (handleMessage_runs m x). unfold afterMessage. rewrite Hx.
    reflexivity. }
  split; [apply H|]. apply H.
  rewrite (disconnect_runs s). reflexivity.
Qed.

(** X5. On a client with an output context, one message makes the handler
    invoke exactly these callbacks, in this order: [onTranscript] with the
    input transcription and [isUser] true, [onTranscript] with the output
    transcription and [isUser] false, then [onAudioData] for an audio
    payload of even length.  The texts are passed on unchanged.  This holds
    whether or not the payload decodes and whether or not the message is an
    interruption. *)
Theorem X5_callbacks_in_order (m : LiveServerMessage) (s : Machine) (octx : nat) :
  outputAudioContext (this s) = Some octx ->
  calls (snd (handle m s)) = calls s ++ callbacksOf m.
Proof.
  intros Ho. rewrite (handleMessage_runs m s). cbn [snd].
  rewrite afterMessage_calls, Ho. reflexivity.
Qed.

Lemma removeFirst_elem (x y : nat) (l : list nat) :
  y ∈ removeFirst x l -> y ∈ l.
Proof.
  induction l as [|z l IH]; cbn; [intros H; exact H|].
  destruct (Nat.eqb x z).
  - intros H. apply list_elem_of_further. exact H.
  - rewrite !elem_of_cons. intros [->|H]; [left; reflexivity|right; apply IH; exact H].
Qed.

Lemma removeFirst_filter (x : nat) (l : list nat) :
  NoDup l -> removeFirst x l = List.filter (fun id => negb (Nat.eqb x id)) l.
Proof.
  induction 1 as [|z l Hz Hl IH]; cbn; [reflexivity|].
  destruct (Nat.eqb x z) eqn:E; cbn.
  - apply Nat.eqb_eq in E. subst z. clear IH Hl. symmetry.
    induction l as [|y l IH]; cbn; [reflexivity|].
    destruct (Nat.eqb x y) eqn:E; cbn.
    + apply Nat.eqb_eq in E. subst y. exfalso. apply Hz. apply list_elem_of_here.
    + f_equal. apply IH. intros H. apply Hz. apply list_elem_of_further. exact H.
  - f_equal. exact IH.
Qed.

Lemma removeFirst_NoDup (x : nat) (l : list nat) : NoDup l -> NoDup (removeFirst x l).
Proof.
  induction 1 as [|z l Hz Hl IH]; cbn; [constructor|].
  destruct (Nat.eqb x z); [exact Hl|].
  constructor; [|exact IH]. intros H. apply Hz. exact (removeFirst_elem x z l H).
Qed.

Lemma removeFirst_absent (x : nat) (l : list nat) : x ∉ l -> removeFirst x l = l.
Proof.
  induction l as [|z l IH]; cbn; [reflexivity|]. intros Hx.
  destruct (Nat.eqb x z) eqn:E.
  - apply Nat.eqb_eq in E. subst z. exfalso. apply Hx. apply list_elem_of_here.
  - f_equal. apply IH. intros H. apply Hx. apply list_elem_of_further. exact H.
Qed.

End InboundOutcomeFacts.

Lemma X5_callbacks_in_order_witness :
  let m := mkMessage (Some "Hello?") (Some "Hi, this is Mr. Johnson.")
                     (Some silence100ms) true in
  outputAudioContext (this connectedMachine) = Some 1
  /\ calls (snd (handleMessage pcm16Decoder m connectedMachine))
     = [onTranscript_call "Hello?" true;
        onTranscript_call "Hi, this is Mr. Johnson." false;
        onAudioData_model silence100ms].
Proof.
  cbv zeta. split; [reflexivity|].
  exact (X5_callbacks_in_order pcm16Decoder
           (mkMessage (Some "Hello?") (Some "Hi, this is Mr. Johnson.")
                      (Some silence100ms) true)
           connectedMachine 1 eq_refl).
Defined.

(** ** The playback queue *)

Lemma queue_inv_scheduled (octx : nat) (buf : AudioBuffer) (s : Machine) :
  queue_inv s -> queue_inv (scheduledMachine octx buf s).
Proof.
  intros [Hnd Hvalid]. unfold queue_inv, scheduledMachine. records. split.
  - apply NoDup_app. split; [exact Hnd|]. split; [|apply NoDup_singleton].
    intros id Hid Hnew. apply list_elem_of_singleton in Hnew. subst id.
    destruct (Hvalid _ Hid) as (src & Hsrc & _).
    apply lookup_lt_Some in Hsrc. lia.
  - intros id Hid. apply elem_of_app in Hid. destruct Hid as [Hid|Hid].
    + destruct (Hvalid _ Hid) as (src & Hsrc & Hst). exists src. split; [|exact Hst].
      apply lookup_app_l_Some. exact Hsrc.
    + apply list_elem_of_singleton in Hid. subst id. eexists. split; [apply lookup_last|].
      cbn [src_startAt]. eexists. reflexivity.
Qed.

Lemma queue_inv_interrupted (octx : nat) (s : Machine) :
  queue_inv (interruptedMachine octx s).
Proof.
  unfold queue_inv, interruptedMachine. records. split; [apply NoDup_nil_2|].
  intros id Hid. apply elem_of_nil in Hid. destruct Hid.
Qed.

Section QueueFacts.

Variable decodeAudioData : list Byte.byte -> positive -> nat -> Completion AudioBuffer.

Local Abbreviation handle := (handleMessage decodeAudioData).
Local Abbreviation after := (afterMessage decodeAudioData).
Local Abbreviation step1 := (step decodeAudioData).
Local Abbreviation runs_through := (run decodeAudioData).

Lemma queue_inv_afterMessage (m : LiveServerMessage) (s : Machine) :
  queue_inv s -> queue_inv (after s m).
Proof.
  intros H. unfold afterMessage.
  destruct (outputAudioContext (this s)) as [octx|]; [|exact H].
  cbv zeta. set (s1 := mkMachine (browser s) (this s) _).
  assert (H1 : queue_inv s1) by exact H.
  assert (Hflush : forall x, queue_inv x ->
             queue_inv (if interrupted m then interruptedMachine octx x else x)).
  { intros x Hx. destruct (interrupted m); [apply queue_inv_interrupted|exact Hx]. }
  destruct (modelAudio m) as [data|]; [|apply Hflush; exact H1].
  destruct (Nat.odd (length data)); [exact H1|].
  destruct (decodeAudioData data 24000%positive 1) as [buf|e]; [|exact H1].
  apply Hflush. apply queue_inv_scheduled. exact H1.
Qed.

Lemma queue_inv_step (e : Event) (s : Machine) : queue_inv s -> queue_inv (step1 s e).
Proof.
  intros H. destruct e as [dt|m|src]; cbn [step].
  - exact H.
  - rewrite (handleMessage_runs decodeAudioData m s). cbn [snd].
    apply queue_inv_afterMessage. exact H.
  - destruct H as [Hnd Hvalid]. unfold onended, onThis, modify, queue_inv. records.
    split; [apply removeFirst_NoDup; exact Hnd|].
    intros id Hid. apply Hvalid. exact (removeFirst_elem src id _ Hid).
Qed.

Lemma queue_inv_run (es : list Event) (s : Machine) :
  queue_inv s -> queue_inv (runs_through s es).
Proof.
  revert s. induction es as [|e es IH]; intros s H; [exact H|].
  cbn [run fold_left]. apply IH. apply queue_inv_step. exact H.
Qed.

(** X6. Along any stretch of a session (time passing, messages of any
    kind, sources ending), the playback queue never holds a source twice
    and holds only sources that exist and have been started.  So [stop()] on
    a queued source cannot throw: the [catch] around it, in the interruption
    handler and in [disconnect], is never taken, and after either every
    source that was queued is stopped. *)
Theorem X6_queue_holds_started_sources (s : Machine) (es : list Event) :
  queue_inv s ->
  let s' := runs_through s es in
  NoDup (audioQueue (this s'))
  /\ (forall id, id ∈ audioQueue (this s') ->
        (exists src, sources (browser s') !! id = Some src /\ is_Some (src_startAt src))
        /\ fst (source_stop id s') = Normal tt
        /\ src_stopped <$> sources (browser (snd (disconnect s'))) !! id = Some true
        /\ (is_Some (outputAudioContext (this s')) ->
            src_stopped <$> sources (browser (snd (handle interruption s'))) !! id
            = Some true)).
Proof.
  intros H. cbv zeta. pose proof (queue_inv_run es s H) as [Hnd Hvalid].
  split; [exact Hnd|]. intros id Hid.
  destruct (Hvalid id Hid) as (src & Hsrc & t & Ht).
  assert (Hstopped : src_stopped
                       <$> alterAll stopIfStarted (audioQueue (this (runs_through s es)))
                             (sources (browser (runs_through s es))) !! id
                     = Some true).
  { rewrite alterAll_lookup by apply stopIfStarted_idem.
    rewrite bool_decide_eq_true_2 by exact Hid. rewrite Hsrc. cbn.
    unfold stopIfStarted. rewrite Ht. reflexivity. }
  split; [exists src; split; [exact Hsrc|exists t; exact Ht]|].
  split.
  { unfold source_stop, bind, gets. rewrite Hsrc, Ht. reflexivity. }
  split.
  { rewrite (disconnect_runs (runs_through s es)). cbn [snd]. unfold disconnected.
    records. exact Hstopped. }
  intros [octx Ho]. rewrite (handleMessage_runs decodeAudioData interruption _).
  cbn [snd]. unfold afterMessage. rewrite Ho. cbn [interruption modelAudio interrupted].
  unfold interruptedMachine. records. exact Hstopped.
Qed.

End QueueFacts.

Lemma queue_inv_playing : queue_inv playingMachine.
Proof.
  split.
  - vm_compute. apply NoDup_singleton.
  - intros id Hid. vm_compute in Hid. apply list_elem_of_singleton in Hid. subst id.
    eexists. split; [vm_compute; reflexivity|]. eexists. reflexivity.
Defined.

Lemma X6_queue_holds_started_sources_witness :
  NoDup (audioQueue (this (run pcm16Decoder playingMachine sampleEvents))).
Proof.
  exact (proj1 (X6_queue_holds_started_sources pcm16Decoder playingMachine sampleEvents
                  queue_inv_playing)).
Defined.

(** X7. When a scheduled source ends, its [onended] callback takes it out
    of the playback queue and leaves the other queued sources in their
    order; the store and the callback log are untouched.  A source that is
    not queued any more, for one because an interruption has emptied the
    queue, changes nothing.  (The callback removes one occurrence; no source
    is queued twice.) *)
Theorem X7_onended_unqueues_source (s : Machine) (source : nat) :
  NoDup (audioQueue (this s)) ->
  let s' := snd (onended source s) in
  fst (onended source s) = Normal tt
  /\ browser s' = browser s
  /\ calls s' = calls s
  /\ audioQueue (this s')
     = List.filter (fun id => negb (Nat.eqb source id)) (audioQueue (this s))
  /\ (source ∉ audioQueue (this s'))
  /\ NoDup (audioQueue (this s'))
  /\ (source ∉ audioQueue (this s) -> s' = s).
Proof.
  intros Hnd. cbv zeta. unfold onended, onThis, modify. cbn [fst snd]. records.
  split; [reflexivity|]. split; [reflexivity|]. split; [reflexivity|].
  split; [apply removeFirst_filter; exact Hnd|].
  split.
  { rewrite (removeFirst_filter source _ Hnd). intros Hin.
    apply list_elem_of_In, filter_In in Hin. destruct Hin as [_ Hne].
    rewrite Nat.eqb_refl in Hne. discriminate. }
  split; [apply removeFirst_NoDup; exact Hnd|].
  intros Habs. rewrite (removeFirst_absent source _ Habs).
  destruct s as [b [ic oc nst st sp scp sn con q] cl]. reflexivity.
Qed.

Lemma X7_onended_unqueues_source_witness :
  NoDup (audioQueue (this playingMachine))
  /\ audioQueue (this (snd (onended 0 playingMachine))) = [].
Proof.
  assert (H : NoDup (audioQueue (this playingMachine))) by exact (proj1 queue_inv_playing).
  split; [exact H|].
  exact (proj1 (proj2 (proj2 (proj2 (X7_onended_unqueues_source playingMachine 0 H))))).
Defined.

(** ** The call screen: a call that connects *)

Lemma startCall_connected (p : Page) (k : string) (m : Machine) :
  GEMINI_API_KEY (env (page_browser p)) = Some k ->
  String.eqb k "" = false ->
  connect (mkMachine (page_browser p) newLiveClient []) = (Normal tt, m) ->
  startCall p =
    (Normal tt,
     if ignore (activeCall p) then abandonedCall p m
     else if isMountedRef (activeCall p) then connectedCall p m
          else mkPage (browser m) (app p)
                 (set_clientObj (Some (this m))
                    (set_liveClientRef true
                       (set_clientObj (Some newLiveClient) (activeCall p))))).
Proof.
  intros Hk Hne Hc. destruct p as [b a ac]. cbn [page_browser activeCall app] in *.
  unfold startCall, tryCatch, bind at 1, gets. cbn [page_browser]. rewrite Hk, Hne.
  unfold bind at 1, onCall, modify. unfold bind at 1. cbn [page_browser app activeCall].
  unfold bind at 1, onClient. cbn [page_browser app activeCall].
  destruct ac as [per st dur tr mu em co lr tid ia trr mo ig tos ck ec].
  cbn [clientObj set_clientObj set_liveClientRef persona status call_duration transcript
       isMuted errorMessage liveClientRef timerRef intervalArmed transcriptRef
       isMountedRef ignore timeouts clock onEndCall_calls] in *.
  rewrite Hc. cbn [fst snd]. unfold bind at 1, gets.
  destruct ig.
  - unfold onClient.
    cbn [page_browser app activeCall clientObj set_clientObj set_liveClientRef ignore].
    rewrite (disconnect_runs (mkMachine (browser m) (this m) [])). reflexivity.
  - destruct mo; reflexivity.
Qed.

Lemma connectFailure_none (e : Environment) :
  connectFailure e = None ->
  exists k, GEMINI_API_KEY e = Some k /\ String.eqb k "" = false
            /\ audioContextSupported e = true
            /\ microphoneGranted e = true
            /\ remoteAccepts e = true.
Proof.
  unfold connectFailure. destruct (GEMINI_API_KEY e) as [k|]; [|discriminate].
  destruct (String.eqb k "") eqn:Ek; [discriminate|].
  destruct (audioContextSupported e); [|discriminate].
  destruct (microphoneGranted e); [|discriminate].
  destruct (remoteAccepts e); [|discriminate].
  intros _. exists k. repeat split; try reflexivity. exact Ek.
Qed.

Lemma tick_counts (p : Page) :
  intervalArmed (activeCall p) = true ->
  isMountedRef (activeCall p) = true ->
  tick p = (Normal tt,
            mkPage (page_browser p) (app p)
                   (set_call_duration (S (call_duration (activeCall p))) (activeCall p))).
Proof.
  intros Ha Hm. unfold tick, bind, gets, when, onCall, modify. rewrite Ha, Hm. reflexivity.
Qed.

Lemma ticks_counts (k : nat) (p : Page) :
  intervalArmed (activeCall p) = true ->
  isMountedRef (activeCall p) = true ->
  ticks k p = (Normal tt,
               mkPage (page_browser p) (app p)
                      (set_call_duration (k + call_duration (activeCall p)) (activeCall p))).
Proof.
  revert p. induction k as [|k IH]; intros [b a ac] Ha Hm.
  - destruct ac. reflexivity.
  - cbn [ticks]. unfold bind. rewrite (tick_counts _ Ha Hm).
    destruct ac as [per st dur tr mu em co lr tid ia trr mo ig tos ck ec].
    cbn [page_browser app activeCall call_duration set_call_duration] in *.
    rewrite IH by assumption.
    cbn [page_browser app activeCall call_duration set_call_duration].
    rewrite Nat.add_succ_r. reflexivity.
Qed.

Lemma ticks_idle (k : nat) (p : Page) :
  intervalArmed (activeCall p) && isMountedRef (activeCall p) = false ->
  ticks k p = (Normal tt, p).
Proof.
  intros H. induction k as [|k IH]; [reflexivity|].
  cbn [ticks]. unfold bind at 1, tick, bind, gets, when. rewrite H. unfold ret at 1.
  exact IH.
Qed.

(** X8. On a mounted call screen, with the API key set, audio contexts
    available, the microphone granted and the session accepted, [startCall]
    completes with the call connected, the client connected and held in
    [liveClientRef], no error message written, and the one-second interval
    armed: from then on every tick adds one second to the duration shown.
    Before that, while no interval is armed, ticks count nothing. *)
Theorem X8_startCall_connects_and_counts (p : Page) :
  connectFailure (env (page_browser p)) = None ->
  isMountedRef (activeCall p) = true ->
  ignore (activeCall p) = false ->
  let p' := snd (startCall p) in
  fst (startCall p) = Normal tt
  /\ status (activeCall p') = connected
  /\ errorMessage (activeCall p') = errorMessage (activeCall p)
  /\ app p' = app p
  /\ page_browser p' = browser (established (page_browser p) [])
  /\ (isConnected <$> clientObj (activeCall p')) = Some true
  /\ liveClientRef (activeCall p') = true
  /\ call_duration (activeCall p') = call_duration (activeCall p)
  /\ (forall k, fst (ticks k p') = Normal tt
                /\ call_duration (activeCall (snd (ticks k p')))
                   = k + call_duration (activeCall p))
  /\ (intervalArmed (activeCall p) = false -> forall k, ticks k p = (Normal tt, p)).
Proof.
  intros Hf Hm Hi. cbv zeta.
  destruct (connectFailure_none _ Hf) as (key & Hk & Hne & Hs & Hmic & Hr).
  rewrite (startCall_connected p key _ Hk Hne
             (connect_established (page_browser p) [] Hs Hmic Hr)).
  rewrite Hi, Hm. cbn [fst snd]. unfold connectedCall.
  destruct p as [b a ac].
  destruct ac as [per st dur tr mu em co lr tid ia trr mo ig tos ck ec].
  cbn [page_browser app activeCall isMountedRef ignore] in *. subst mo ig.
  repeat (split; [reflexivity|]).
  split.
  - intros k. rewrite ticks_counts by reflexivity. cbn [fst snd]. split; reflexivity.
  - cbn [intervalArmed]. intros -> k. apply ticks_idle. reflexivity.
Qed.

Lemma X8_startCall_connects_and_counts_witness :
  connectFailure (env (page_browser (samplePage sampleEnv))) = None
  /\ isMountedRef (activeCall (samplePage sampleEnv)) = true
  /\ ignore (activeCall (samplePage sampleEnv)) = false
  /\ status (activeCall (snd (startCall (samplePage sampleEnv)))) = connected.
Proof.
  split; [reflexivity|]. split; [reflexivity|]. split; [reflexivity|].
  exact (proj1 (proj2 (X8_startCall_connects_and_counts (samplePage sampleEnv)
                         eq_refl eq_refl eq_refl))).
Defined.

Lemma startCall_failed_silent (p : Page) (k : string) (e : JsError) (m : Machine) :
  GEMINI_API_KEY (env (page_browser p)) = Some k ->
  String.eqb k "" = false ->
  connect (mkMachine (page_browser p) newLiveClient []) = (Thrown e, m) ->
  isMountedRef (activeCall p) && negb (ignore (activeCall p)) = false ->
  startCall p =
    (Normal tt,
     mkPage (browser m) (app p)
            (set_clientObj (Some (this m))
               (set_liveClientRef true
                  (set_clientObj (Some newLiveClient) (activeCall p))))).
Proof.
  intros Hk Hne Hc Hsilent. destruct p as [b a ac].
  cbn [page_browser activeCall app] in *.
  unfold startCall, tryCatch, bind at 1, gets. cbn [page_browser]. rewrite Hk, Hne.
  unfold bind at 1, onCall, modify. unfold bind at 1. cbn [page_browser app activeCall].
  unfold bind at 1, onClient. cbn [page_browser app activeCall].
  destruct ac as [per st dur tr mu em co lr tid ia trr mo ig tos ck ec].
  cbn [clientObj set_clientObj set_liveClientRef persona status call_duration transcript
       isMuted errorMessage liveClientRef timerRef intervalArmed transcriptRef
       isMountedRef ignore timeouts clock onEndCall_calls] in *.
  rewrite Hc. cbn [fst snd]. unfold bind, gets, when.
  cbn [activeCall isMountedRef ignore set_clientObj set_liveClientRef].
  rewrite Hsilent. reflexivity.
Qed.

Lemma startCall_no_credential_silent (p : Page) :
  connectFailure (env (page_browser p)) = Some NoCredential ->
  isMountedRef (activeCall p) && negb (ignore (activeCall p)) = false ->
  startCall p = (Normal tt, p).
Proof.
  intros Hf Hsilent. destruct p as [b a ac]. cbn [page_browser activeCall] in *.
  unfold startCall, tryCatch, bind at 1, gets. cbn [page_browser].
  unfold connectFailure in Hf.
  destruct (GEMINI_API_KEY (env b)) as [k|].
  - destruct (String.eqb k "").
    + unfold throw, bind, gets, when. cbn [activeCall]. rewrite Hsilent. reflexivity.
    + destruct (negb (audioContextSupported (env b))); [discriminate|].
      destruct (negb (microphoneGranted (env b))); [discriminate|].
      destruct (negb (remoteAccepts (env b))); discriminate.
  - unfold throw, bind, gets, when. cbn [activeCall]. rewrite Hsilent. reflexivity.
Qed.

(** X9. When the effect has been cleaned up (the flag [ignore] is set),
    [startCall] leaves the screen as it was: the status, the error message,
    the timer and the duration do not change, whether [connect] fails or
    goes through.  If it goes through, the connection is undone at once:
    the client is disconnected and back to the values of a new one, and the
    store holds the two contexts closed, the microphone track ended, the
    capture nodes disconnected and the session closed.  (Each [async]
    method runs without interleaving here, so the flag is set from the
    start.) *)
Theorem X9_startCall_abandoned_when_ignored (p : Page) :
  ignore (activeCall p) = true ->
  let p' := snd (startCall p) in
  fst (startCall p) = Normal tt
  /\ status (activeCall p') = status (activeCall p)
  /\ errorMessage (activeCall p') = errorMessage (activeCall p)
  /\ timerRef (activeCall p') = timerRef (activeCall p)
  /\ intervalArmed (activeCall p') = intervalArmed (activeCall p)
  /\ call_duration (activeCall p') = call_duration (activeCall p)
  /\ app p' = app p
  /\ (connectFailure (env (page_browser p)) = None ->
        page_browser p' = browser (torndown (page_browser p) [])
        /\ clientObj (activeCall p') = Some newLiveClient).
Proof.
  intros Hi. cbv zeta.
  assert (Hsilent : isMountedRef (activeCall p) && negb (ignore (activeCall p)) = false).
  { rewrite Hi. apply andb_false_r. }
  destruct (connectFailure (env (page_browser p))) as [f|] eqn:Hf.
  - assert (Hframe : exists q,
               startCall p = (Normal tt, q)
               /\ status (activeCall q) = status (activeCall p)
               /\ errorMessage (activeCall q) = errorMessage (activeCall p)
               /\ timerRef (activeCall q) = timerRef (activeCall p)
               /\ intervalArmed (activeCall q) = intervalArmed (activeCall p)
               /\ call_duration (activeCall q) = call_duration (activeCall p)
               /\ app q = app p).
    { destruct (heldAtFailure f p) as [m|] eqn:Hheld.
      - destruct (connect_failure_outcome p f m Hf Hheld) as (k & e & Hk & Hne & Hc & _).
        eexists. split; [exact (startCall_failed_silent p k e m Hk Hne Hc Hsilent)|].
        destruct p as [b a [per st dur tr mu em co lr tid ia trr mo ig tos ck ec]].
        repeat split; reflexivity.
      - destruct f; try discriminate.
        exists p. split; [exact (startCall_no_credential_silent p Hf Hsilent)|].
        repeat split; reflexivity. }
    destruct Hframe as (q & -> & Hst & Hem & Htid & Hia & Hdur & Happ).
    cbn [fst snd]. do 7 (split; [assumption || reflexivity|]). discriminate.
  - destruct (connectFailure_none _ Hf) as (key & Hk & Hne & Hs & Hmic & Hr).
    rewrite (startCall_connected p key _ Hk Hne
               (connect_established (page_browser p) [] Hs Hmic Hr)).
    rewrite Hi. cbn [fst snd]. unfold abandonedCall.
    change (mkMachine (browser (established (page_browser p) []))
                      (this (established (page_browser p) [])) [])
      with (established (page_browser p) []).
    rewrite disconnected_established.
    destruct p as [b a [per st dur tr mu em co lr tid ia trr mo ig tos ck ec]].
    do 7 (split; [reflexivity|]). intros _. split; reflexivity.
Qed.

Lemma X9_startCall_abandoned_when_ignored_witness :
  let p := mkPage (emptyBrowser sampleEnv) (app (samplePage sampleEnv))
                  (set_isMountedRef false (set_ignore true (mountedCall samplePersona))) in
  ignore (activeCall p) = true
  /\ status (activeCall (snd (startCall p))) = connecting.
Proof.
  cbv zeta. split; [reflexivity|].
  exact (proj1 (proj2 (X9_startCall_abandoned_when_ignored
                         (mkPage (emptyBrowser sampleEnv) (app (samplePage sampleEnv))
                            (set_isMountedRef false
                               (set_ignore true (mountedCall samplePersona))))
                         eq_refl))).
Defined.

(** ** The call screen: muting *)

Lemma handleToggleMute_runs (p : Page) (c : LiveClient) :
  liveClientRef (activeCall p) = true ->
  clientObj (activeCall p) = Some c ->
  handleToggleMute p =
    (Normal tt,
     mkPage (set_tracks
               (alterAll (with_enabled (isMuted (activeCall p)))
                         (micTracks (mkMachine (page_browser p) c []))
                         (tracks (page_browser p)))
               (page_browser p))
            (app p)
            (set_isMuted (negb (isMuted (activeCall p))) (activeCall p))).
Proof.
  intros Hl Hc. destruct p as [b a ac].
  destruct ac as [per st dur tr mu em co lr tid ia trr mo ig tos ck ec].
  cbn [page_browser app activeCall liveClientRef clientObj isMuted] in *. subst lr co.
  unfold handleToggleMute, bind, gets, onCall, modify, when, onClient.
  cbn [page_browser app activeCall liveClientRef clientObj isMuted set_isMuted].
  rewrite (setMute_runs (negb mu) (mkMachine b c [])). cbn [fst snd].
  rewrite negb_involutive. reflexivity.
Qed.

(** X10. The mute button, on a call whose client is held in
    [liveClientRef]: [handleToggleMute] flips [isMuted] and sets every
    audio track of the client's stream to enabled exactly when the call is
    not muted, so the flag shown and the microphone agree afterwards.
    Nothing else in the store changes, no track is ended, and the client is
    the same.  A second press flips both back. *)
Theorem X10_toggle_mute_keeps_flag_and_tracks_in_step (p : Page) (c : LiveClient) :
  liveClientRef (activeCall p) = true ->
  clientObj (activeCall p) = Some c ->
  let mic := micTracks (mkMachine (page_browser p) c []) in
  let p1 := snd (handleToggleMute p) in
  let p2 := snd (handleToggleMute p1) in
  fst (handleToggleMute p) = Normal tt
  /\ isMuted (activeCall p1) = negb (isMuted (activeCall p))
  /\ clientObj (activeCall p1) = Some c
  /\ app p1 = app p
  /\ set_tracks (tracks (page_browser p)) (page_browser p1) = page_browser p
  /\ (forall id, tracks (page_browser p1) !! id =
        if bool_decide (id ∈ mic)
        then with_enabled (negb (isMuted (activeCall p1))) <$> tracks (page_browser p) !! id
        else tracks (page_browser p) !! id)
  /\ fst (handleToggleMute p1) = Normal tt
  /\ isMuted (activeCall p2) = isMuted (activeCall p)
  /\ (forall id, tracks (page_browser p2) !! id =
        if bool_decide (id ∈ mic)
        then with_enabled (negb (isMuted (activeCall p))) <$> tracks (page_browser p) !! id
        else tracks (page_browser p) !! id).
Proof.
  intros Hl Hc. cbv zeta. rewrite (handleToggleMute_runs p c Hl Hc). cbn [fst snd].
  set (mic := micTracks (mkMachine (page_browser p) c [])).
  set (p1 := mkPage _ (app p) _).
  assert (Hl1 : liveClientRef (activeCall p1) = true).
  { unfold p1. destruct p as [b a []]. exact Hl. }
  assert (Hc1 : clientObj (activeCall p1) = Some c).
  { unfold p1. destruct p as [b a []]. exact Hc. }
  assert (Hmu1 : isMuted (activeCall p1) = negb (isMuted (activeCall p))).
  { unfold p1. destruct p as [b a []]. reflexivity. }
  assert (Hmic1 : micTracks (mkMachine (page_browser p1) c []) = mic).
  { exact (micTracks_onTracks_enabled (isMuted (activeCall p)) mic
             (mkMachine (page_browser p) c [])). }
  assert (Htr1 : forall id, tracks (page_browser p1) !! id =
             if bool_decide (id ∈ mic)
             then with_enabled (isMuted (activeCall p)) <$> tracks (page_browser p) !! id
             else tracks (page_browser p) !! id).
  { intros id. unfold p1. cbn [page_browser tracks set_tracks].
    apply alterAll_lookup. intros x. apply with_enabled_idem. }
  split; [reflexivity|]. split; [exact Hmu1|]. split; [exact Hc1|].
  split; [reflexivity|].
  split; [unfold p1; destruct p as [[] a ac]; reflexivity|].
  split; [intros id; rewrite Hmu1, negb_involutive; apply Htr1|].
  rewrite (handleToggleMute_runs p1 c Hl1 Hc1). cbn [fst snd]. rewrite Hmic1.
  split; [reflexivity|].
  split; [destruct p as [b a []]; cbn; apply negb_involutive|].
  intros id. cbn [page_browser tracks set_tracks].
  rewrite alterAll_lookup by (intros x; apply with_enabled_idem).
  rewrite Htr1, Hmu1. destruct (bool_decide (id ∈ mic)); [|reflexivity].
  destruct (tracks (page_browser p) !! id) as [t|]; [|reflexivity].
  destruct t. reflexivity.
Qed.

Lemma X10_toggle_mute_keeps_flag_and_tracks_in_step_witness :
  let p := snd (startCall (samplePage sampleEnv)) in
  liveClientRef (activeCall p) = true
  /\ clientObj (activeCall p) = Some (this connectedMachine)
  /\ isMuted (activeCall (snd (handleToggleMute p))) = negb (isMuted (activeCall p)).
Proof.
  cbv zeta.
  assert (Hl : liveClientRef (activeCall (snd (startCall (samplePage sampleEnv)))) = true)
    by (vm_compute; reflexivity).
  assert (Hc : clientObj (activeCall (snd (startCall (samplePage sampleEnv))))
               = Some (this connectedMachine)) by (vm_compute; reflexivity).
  split; [exact Hl|]. split; [exact Hc|].
  exact (proj1 (proj2 (X10_toggle_mute_keeps_flag_and_tracks_in_step
                         (snd (startCall (samplePage sampleEnv)))
                         (this connectedMachine) Hl Hc))).
Defined.

(** ** The call screen: leaving the error screen *)

Lemma startCall_error_frame (p : Page) (f : ConnectFailure) :
  connectFailure (env (page_browser p)) = Some f ->
  isMountedRef (activeCall p) = true ->
  ignore (activeCall p) = false ->
  exists q,
    startCall p = (Normal tt, q)
    /\ status (activeCall q) = error
    /\ app q = app p
    /\ env (page_browser q) = env (page_browser p)
    /\ onEndCall_calls (activeCall q) = onEndCall_calls (activeCall p).
Proof.
  intros Hf Hm Hi. destruct (heldAtFailure f p) as [m|] eqn:Hheld.
  - destruct (connect_failure_outcome p f m Hf Hheld) as (k & e & Hk & Hne & Hc & _).
    eexists. split; [exact (startCall_failed p k e m Hk Hne Hc Hm Hi)|].
    assert (He : env (browser m) = env (page_browser p)).
    { destruct f; cbn in Hheld; inversion Hheld; reflexivity. }
    destruct p as [b a [per st dur tr mu em co lr tid ia trr mo ig tos ck ec]].
    repeat split; try reflexivity. exact He.
  - destruct f; try discriminate.
    eexists. split; [exact (startCall_no_credential p Hf Hm Hi)|].
    destruct p as [b a [per st dur tr mu em co lr tid ia trr mo ig tos ck ec]].
    repeat split; reflexivity.
Qed.

Lemma gradeCall_runs (t : string) (persona : Persona) (lang : Language) (p : Page) :
  gradeCall t persona lang p
  = (Normal (gradingOf (env (page_browser p)) t persona lang), p).
Proof.
  unfold gradeCall, gradingOf, gradingFails, tryCatch, bind at 1, gets.
  destruct (GEMINI_API_KEY (env (page_browser p))) as [k|]; [|reflexivity].
  destruct (String.eqb k ""); [reflexivity|].
  destruct (generateContent (env (page_browser p)) t persona lang) as [e|text];
    [reflexivity|].
  destruct text as [| |[|score rub sm]]; reflexivity.
Qed.

Lemma onEndCall_runs (t : string) (p : Page) (selected : Persona) :
  selectedPersona (app p) = Some selected ->
  onEndCall t p =
    (Normal tt,
     let r := recordOf p selected t
                (gradingOf (env (page_browser p)) t selected (language (app p))) in
     mkPage (page_browser p)
            (mkApp FEEDBACK (language (app p)) (selectedPersona (app p))
                   (Some r) (r :: sessions_history (app p))
                   (playerName (app p)) false
                   (Some (r :: sessions_history (app p))))
            (set_onEndCall_calls (onEndCall_calls (activeCall p) ++ [t])
                                 (activeCall p))).
Proof.
  intros Hsel. unfold onEndCall, bind at 1, onCall, modify.
  set (q := mkPage (page_browser p) (app p) _).
  rewrite (handleEndCall_runs t q selected _ Hsel
             (gradeCall_runs t selected (language (app q)) q)).
  reflexivity.
Qed.

Lemma no_credential_grading_fails (e : Environment) (t : string) (persona : Persona)
      (lang : Language) :
  connectFailure e = Some NoCredential -> gradingFails e t persona lang = true.
Proof.
  unfold connectFailure, gradingFails.
  destruct (GEMINI_API_KEY e) as [k|]; [|reflexivity].
  destruct (String.eqb k ""); [reflexivity|].
  destruct (negb (audioContextSupported e)); [discriminate|].
  destruct (negb (microphoneGranted e)); [discriminate|].
  destruct (negb (remoteAccepts e)); discriminate.
Qed.

(** X11. The button of the error screen calls [onEndCall] with the empty
    transcript.  After a [connect] that failed, pressing it therefore has
    the empty transcript graded and stored like a call: a record with an
    empty transcript is put at the head of the history and into local
    storage, and the application shows the feedback screen.  When the call
    failed for lack of an API key the grading fails for the same reason, so
    the record carries the fixed score 50.  The button releases nothing: the
    store and the client stay as the failure left them. *)
Theorem X11_error_screen_button_records_empty_call
        (p : Page) (f : ConnectFailure) (selected : Persona) :
  connectFailure (env (page_browser p)) = Some f ->
  isMountedRef (activeCall p) = true ->
  ignore (activeCall p) = false ->
  selectedPersona (app p) = Some selected ->
  let p1 := snd (startCall p) in
  let p2 := snd (returnToDashboard p1) in
  let r := recordOf p selected ""
             (gradingOf (env (page_browser p)) "" selected (language (app p))) in
  status (activeCall p1) = error
  /\ fst (returnToDashboard p1) = Normal tt
  /\ appState (app p2) = FEEDBACK
  /\ currentSession (app p2) = Some r
  /\ sessions_history (app p2) = r :: sessions_history (app p)
  /\ coldcall_sessions (app p2) = Some (r :: sessions_history (app p))
  /\ session_transcript r = ""
  /\ personaId r = persona_id selected
  /\ (f = NoCredential ->
        overallScore r = 50%Z /\ summary r = "Error grading call. Please try again.")
  /\ onEndCall_calls (activeCall p2) = onEndCall_calls (activeCall p) ++ [""]
  /\ page_browser p2 = page_browser p1
  /\ clientObj (activeCall p2) = clientObj (activeCall p1).
Proof.
  intros Hf Hm Hi Hsel. cbv zeta.
  destruct (startCall_error_frame p f Hf Hm Hi) as (q & -> & Hst & Happ & Henv & Hcalls).
  cbn [fst snd]. unfold returnToDashboard.
  assert (Hselq : selectedPersona (app q) = Some selected) by (rewrite Happ; exact Hsel).
  rewrite (onEndCall_runs "" q selected Hselq). cbv zeta. cbn [fst snd app page_browser].
  assert (Hr : recordOf q selected ""
                 (gradingOf (env (page_browser q)) "" selected (language (app q)))
               = recordOf p selected ""
                   (gradingOf (env (page_browser p)) "" selected (language (app p)))).
  { unfold recordOf. rewrite Henv, Happ. reflexivity. }
  rewrite Hr, Happ.
  cbn [appState currentSession sessions_history coldcall_sessions activeCall].
  split; [exact Hst|]. do 7 (split; [reflexivity|]).
  split.
  { intros ->. unfold gradingOf.
    rewrite (no_credential_grading_fails _ "" selected (language (app p)) Hf).
    split; reflexivity. }
  split; [destruct (activeCall q); cbn in *; rewrite Hcalls; reflexivity|].
  split; [reflexivity|]. destruct (activeCall q); reflexivity.
Qed.

Lemma X11_error_screen_button_records_empty_call_witness :
  connectFailure (env (page_browser (samplePage envNoKey))) = Some NoCredential
  /\ isMountedRef (activeCall (samplePage envNoKey)) = true
  /\ ignore (activeCall (samplePage envNoKey)) = false
  /\ selectedPersona (app (samplePage envNoKey)) = Some samplePersona
  /\ appState (app (snd (returnToDashboard (snd (startCall (samplePage envNoKey))))))
     = FEEDBACK.
Proof.
  split; [reflexivity|]. split; [reflexivity|]. split; [reflexivity|].
  split; [reflexivity|].
  exact (proj1 (proj2 (proj2 (X11_error_screen_button_records_empty_call
                                (samplePage envNoKey) NoCredential samplePersona
                                eq_refl eq_refl eq_refl eq_refl)))).
Defined.

(** ** The call screen: the timer after the call *)

Lemma hungUp_disarmed (p : Page) :
  (intervalArmed (activeCall p) = true -> is_Some (timerRef (activeCall p))) ->
  intervalArmed (activeCall (hungUp p)) = false.
Proof.
  intros Harm. unfold hungUp, afterDisconnect, disarm.
  destruct p as [b a [per st dur tr mu em co lr tid ia trr mo ig tos ck ec]].
  cbn [activeCall intervalArmed timerRef liveClientRef clientObj] in *.
  destruct lr, co as [c|], tid as [n|]; cbn; try reflexivity.
  all: destruct ia; [destruct (Harm eq_refl) as [? H]; discriminate H|reflexivity].
Qed.

(** X12. Once the call has been hung up, the duration shown stands still:
    [handleHangUp] clears the interval, so later ticks change nothing, and
    the duration is the one reached at the hang-up.  The same holds once the
    screen is unmounted: after the effect's cleanup no tick counts.  (The
    interval is armed only by [startCall], which records it in
    [timerRef].) *)
Theorem X12_duration_stands_still_after_hangup (p : Page) (k : nat) :
  (intervalArmed (activeCall p) = true -> is_Some (timerRef (activeCall p))) ->
  let q := snd (handleHangUp p) in
  let u := snd (cleanup p) in
  ticks k q = (Normal tt, q)
  /\ call_duration (activeCall q) = call_duration (activeCall p)
  /\ ticks k u = (Normal tt, u)
  /\ call_duration (activeCall u) = call_duration (activeCall p).
Proof.
  intros Harm. cbv zeta.
  destruct (handleHangUp_spec p) as (_ & _ & Hac).
  destruct (hungUp_frame p) as (_ & _ & _ & _ & _ & _ & Hdur & _).
  split.
  { apply ticks_idle. rewrite Hac, (hungUp_disarmed p Harm). reflexivity. }
  split; [rewrite Hac; exact Hdur|].
  rewrite (cleanup_runs p). cbn [snd].
  assert (Hu : isMountedRef (activeCall (unmounted p)) = false
               /\ call_duration (activeCall (unmounted p)) = call_duration (activeCall p)).
  { unfold unmounted, stopTimer.
    destruct p as [b a [per st dur tr mu em co lr tid ia trr mo ig tos ck ec]].
    cbn [activeCall clientObj]. destruct co, tid; split; reflexivity. }
  split; [apply ticks_idle; rewrite (proj1 Hu); apply andb_false_r|exact (proj2 Hu)].
Qed.

Lemma X12_duration_stands_still_after_hangup_witness :
  (intervalArmed (activeCall fiveSecondCall) = true
   -> is_Some (timerRef (activeCall fiveSecondCall)))
  /\ call_duration (activeCall (snd (handleHangUp fiveSecondCall)))
     = call_duration (activeCall fiveSecondCall).
Proof.
  assert (H : intervalArmed (activeCall fiveSecondCall) = true
              -> is_Some (timerRef (activeCall fiveSecondCall))).
  { intros _. exists 1. vm_compute. reflexivity. }
  split; [exact H|].
  exact (proj1 (proj2 (X12_duration_stands_still_after_hangup fiveSecondCall 3 H))).
Defined.

(** ** Grading and the end of a call *)

Lemma stringOr_nonempty (x : option string) (d : string) :
  d <> "" -> stringOr x d <> "".
Proof.
  intros Hd. unfold stringOr. destruct x as [s|]; [|exact Hd].
  destruct (String.eqb s "") eqn:E; [exact Hd|].
  intros ->. discriminate E.
Qed.

Lemma numberOr_zero (x : option Z) : numberOr x 0 = default 0%Z x.
Proof.
  unfold numberOr. destruct x as [z|]; [|reflexivity].
  destruct (Z.eqb z 0) eqn:E; [|reflexivity].
  apply Z.eqb_eq in E. subst z. reflexivity.
Qed.

(** X13. [gradeCall] always resolves, leaves the page alone, and never
    returns an empty summary, whatever the model replies.  With an API key
    and a reply that parses to an object, the score is the reply's score as
    it is (not clamped to 0-100; 0 when the field is missing), the rubric
    is the reply's rubric (empty when missing), and the summary is the
    reply's unless that is missing or empty, in which case it reads
    "No summary available.".  A reply without text counts as the empty
    object. *)
Theorem X13_gradeCall_defaults_and_summary
        (t : string) (persona : Persona) (lang : Language) (p : Page) :
  let e := env (page_browser p) in
  exists g,
    gradeCall t persona lang p = (Normal g, p)
    /\ grading_summary g <> ""
    /\ (validateApiKey e = true ->
        forall score rubric summary,
          generateContent e t persona lang
          = Response (Parses (JsonObject score rubric summary)) ->
          grading_score g = default 0%Z score
          /\ grading_rubric g = default [] rubric
          /\ grading_summary g
             = match summary with
               | Some s => if String.eqb s "" then "No summary available." else s
               | None => "No summary available."
               end)
    /\ (validateApiKey e = true ->
        generateContent e t persona lang = Response NoText ->
        g = mkGrading 0 [] "No summary available.").
Proof.
  cbv zeta. eexists. split; [apply gradeCall_runs|].
  unfold gradingOf, gradingFails, validateApiKey.
  destruct (GEMINI_API_KEY (env (page_browser p))) as [k|].
  2: { split; [discriminate|]. split; intros; discriminate. }
  destruct (String.eqb k "").
  { split; [discriminate|]. split; intros; discriminate. }
  destruct (generateContent (env (page_browser p)) t persona lang) as [err|text].
  { split; [discriminate|]. split; intros; discriminate. }
  destruct text as [| |[|score rub sm]].
  - split; [discriminate|]. split; [intros; discriminate|]. intros _ _. reflexivity.
  - split; [discriminate|]. split; intros; discriminate.
  - split; [discriminate|]. split; intros; discriminate.
  - split; [apply stringOr_nonempty; discriminate|].
    split; [|intros; discriminate].
    intros _ score' rub' sm' H. inversion H; subst. cbn [grading_score grading_rubric
      grading_summary]. split; [apply numberOr_zero|]. split; [destruct rub'|]; reflexivity.
Qed.

(** X14. The three places that look for the API key agree.  When
    [validateApiKey] is false, [startCall] on a mounted screen fails before
    any client exists: the call is in the error state with the
    "API Key not found" message, the store is untouched (no audio context,
    no microphone request), and no client is created; and [gradeCall]
    returns the fixed grading of its [catch] branch for every transcript.
    When it is true, a reply that parses to an object is not degraded. *)
Theorem X14_api_key_checks_agree (p : Page) :
  let e := env (page_browser p) in
  (validateApiKey e = false <-> connectFailure e = Some NoCredential)
  /\ (validateApiKey e = false ->
        (forall t persona lang,
           gradeCall t persona lang p = (Normal degradedGrading, p))
        /\ (isMountedRef (activeCall p) = true -> ignore (activeCall p) = false ->
            startCall p =
              (Normal tt,
               mkPage (page_browser p) (app p)
                      (set_errorMessage API_KEY_NOT_FOUND
                         (set_status error (activeCall p))))))
  /\ (validateApiKey e = true ->
        forall t persona lang score rubric summary,
          generateContent e t persona lang
          = Response (Parses (JsonObject score rubric summary)) ->
          gradingFails e t persona lang = false).
Proof.
  cbv zeta.
  assert (Hiff : validateApiKey (env (page_browser p)) = false
                 <-> connectFailure (env (page_browser p)) = Some NoCredential).
  { unfold validateApiKey, connectFailure.
    destruct (GEMINI_API_KEY (env (page_browser p))) as [k|]; [|split; reflexivity].
    destruct (String.eqb k ""); cbn [negb]; [split; reflexivity|].
    split; [discriminate|].
    destruct (negb (audioContextSupported (env (page_browser p)))); [discriminate|].
    destruct (negb (microphoneGranted (env (page_browser p)))); [discriminate|].
    destruct (negb (remoteAccepts (env (page_browser p)))); discriminate. }
  split; [exact Hiff|]. split.
  - intros Hv. apply Hiff in Hv. split.
    + intros t persona lang. apply gradeCall_degraded.
      apply no_credential_grading_fails. exact Hv.
    + intros Hm Hi. exact (startCall_no_credential p Hv Hm Hi).
  - unfold validateApiKey, gradingFails.
    destruct (GEMINI_API_KEY (env (page_browser p))) as [k|]; [|discriminate].
    destruct (String.eqb k ""); [discriminate|].
    intros _ t persona lang score rub sm ->. reflexivity.
Qed.

(** X15. [handleEndCall] on any page: without a selected persona it does
    nothing at all.  With one, it completes with the new record at the head
    of the history, every earlier record kept in place, the whole history
    written to local storage, the record shown as the current session, the
    processing flag cleared and the feedback screen up.  The record takes
    its score, rubric and summary from [gradeCall], its player name and
    persona from the application state, and its id and timestamp from the
    same clock reading.  Neither the store nor the call screen is
    touched. *)
Theorem X15_handleEndCall_prepends_and_persists (t : string) (p : Page) :
  let p' := snd (handleEndCall t p) in
  fst (handleEndCall t p) = Normal tt
  /\ page_browser p' = page_browser p
  /\ activeCall p' = activeCall p
  /\ match selectedPersona (app p) with
     | None => p' = p
     | Some selected =>
         let g := gradingOf (env (page_browser p)) t selected (language (app p)) in
         exists r,
           sessions_history (app p') = r :: sessions_history (app p)
           /\ coldcall_sessions (app p') = Some (sessions_history (app p'))
           /\ currentSession (app p') = Some r
           /\ appState (app p') = FEEDBACK
           /\ isProcessing (app p') = false
           /\ language (app p') = language (app p)
           /\ selectedPersona (app p') = selectedPersona (app p)
           /\ playerName (app p') = playerName (app p)
           /\ gradeCall t selected (language (app p)) p = (Normal g, p)
           /\ overallScore r = grading_score g
           /\ rubric r = grading_rubric g
           /\ summary r = grading_summary g
           /\ session_transcript r = t
           /\ session_playerName r = playerName (app p)
           /\ personaId r = persona_id selected
           /\ timestamp r = dateNow (env (page_browser p))
           /\ session_id r = NilZero.string_of_int (Z.to_int (timestamp r))
     end.
Proof.
  cbv zeta. destruct (handleEndCall_frame t p) as (Hn & Hb & Hac).
  split; [exact Hn|]. split; [exact Hb|]. split; [exact Hac|].
  destruct (selectedPersona (app p)) as [selected|] eqn:Hsel.
  - rewrite (handleEndCall_runs t p selected _ Hsel
               (gradeCall_runs t selected (language (app p)) p)).
    cbn [snd app]. eexists. split; [reflexivity|].
    rewrite Hsel.
    repeat (split; [reflexivity|]). split; [apply gradeCall_runs|].
    repeat (split; [reflexivity|]). reflexivity.
  - unfold handleEndCall, bind, gets. rewrite Hsel. reflexivity.
Qed.

(** ** The duration shown *)

Lemma padStart_two_digits (secs : nat) :
  secs < 60 ->
  padStart 2 "0" (toString secs)
  = String (digit (Nat.div secs 10)) (String (digit (Nat.modulo secs 10)) "").
Proof.
  intros H. do 60 (destruct secs as [|secs]; [vm_compute; reflexivity|]). lia.
Qed.

Lemma string_length_append (a b : string) :
  String.length (a ++ b) = String.length a + String.length b.
Proof. induction a as [|c a IH]; cbn; [reflexivity|]. rewrite IH. reflexivity. Qed.

Lemma string_append_inj (a b x y : string) :
  String.length a = String.length b -> (a ++ x = b ++ y)%string -> a = b /\ x = y.
Proof.
  revert b. induction a as [|c a IH]; intros [|d b] Hlen Heq; cbn in *;
    try discriminate.
  - split; [reflexivity|exact Heq].
  - injection Heq as -> Heq. injection Hlen as Hlen.
    destruct (IH b Hlen Heq) as [-> ->]. split; reflexivity.
Qed.

Lemma to_uint_nonnil (n : nat) : Nat.to_uint n <> Decimal.Nil.
Proof.
  rewrite <- (DecimalNat.Unsigned.of_to n) at 1.
  rewrite DecimalNat.Unsigned.to_of. unfold Decimal.unorm.
  destruct (Decimal.nzhead (Nat.to_uint n)); discriminate.
Qed.

Lemma toString_inj (n m : nat) : toString n = toString m -> n = m.
Proof.
  unfold toString. intros H. apply DecimalNat.Unsigned.to_uint_inj.
  pose proof (NilZero.usu (Nat.to_uint n) (to_uint_nonnil n)) as Hn.
  pose proof (NilZero.usu (Nat.to_uint m) (to_uint_nonnil m)) as Hm.
  rewrite H in Hn. rewrite Hn in Hm. injection Hm as Hm. exact Hm.
Qed.

Lemma digit_inj (a b : nat) : a < 10 -> b < 10 -> digit a = digit b -> a = b.
Proof.
  intros Ha Hb H. unfold digit in H.
  assert (E : nat_of_ascii (ascii_of_nat (48 + a)) = nat_of_ascii (ascii_of_nat (48 + b)))
    by (rewrite H; reflexivity).
  rewrite !nat_ascii_embedding in E by lia. lia.
Qed.

(** X16. The duration on the call screen reads minutes, a colon, and the
    seconds always in two digits, the first below six: [formatTime] pads
    the seconds to two characters and never wraps the minutes into hours.
    Two different durations are never shown alike. *)
Theorem X16_formatTime_two_digit_seconds (seconds other : nat) :
  let mins := Nat.div seconds 60 in
  let secs := Nat.modulo seconds 60 in
  formatTime seconds
  = (toString mins ++ ":"
       ++ String (digit (Nat.div secs 10)) (String (digit (Nat.modulo secs 10)) ""))%string
  /\ Nat.div secs 10 < 6
  /\ seconds = 60 * mins + 10 * Nat.div secs 10 + Nat.modulo secs 10
  /\ String.length (formatTime seconds) = String.length (toString mins) + 3
  /\ (formatTime seconds = formatTime other -> seconds = other).
Proof.
  cbv zeta.
  assert (Hfmt : forall n,
             formatTime n
             = (toString (Nat.div n 60) ++ ":"
                  ++ String (digit (Nat.div (Nat.modulo n 60) 10))
                       (String (digit (Nat.modulo (Nat.modulo n 60) 10)) ""))%string).
  { intros n. unfold formatTime. cbv zeta.
    rewrite (padStart_two_digits (Nat.modulo n 60))
      by (apply Nat.mod_upper_bound; discriminate).
    reflexivity. }
  assert (Hlen : forall n,
             String.length (formatTime n) = String.length (toString (Nat.div n 60)) + 3).
  { intros n. rewrite Hfmt, string_length_append. reflexivity. }
  assert (Hsecs : forall n, Nat.modulo n 60 < 60)
    by (intros n; apply Nat.mod_upper_bound; discriminate).
  assert (Hdecomp : forall n,
             n = 60 * Nat.div n 60 + 10 * Nat.div (Nat.modulo n 60) 10
                 + Nat.modulo (Nat.modulo n 60) 10).
  { intros n. pose proof (Nat.div_mod_eq n 60). pose proof (Nat.div_mod_eq (Nat.modulo n 60) 10).
    lia. }
  split; [apply Hfmt|].
  split; [pose proof (Hsecs seconds); apply Nat.Div0.div_lt_upper_bound; lia|].
  split; [apply Hdecomp|].
  split; [apply Hlen|].
  intros Heq.
  assert (Hl : String.length (toString (Nat.div seconds 60))
               = String.length (toString (Nat.div other 60))).
  { pose proof (Hlen seconds) as H1. pose proof (Hlen other) as H2.
    rewrite Heq in H1. lia. }
  rewrite (Hfmt seconds), (Hfmt other) in Heq.
  destruct (string_append_inj _ _ _ _ Hl Heq) as [Hmins Hrest].
  apply toString_inj in Hmins.
  assert (Hq : forall n, Nat.div (Nat.modulo n 60) 10 < 10).
  { intros n. pose proof (Hsecs n). apply Nat.Div0.div_lt_upper_bound. lia. }
  assert (Hr : forall n, Nat.modulo (Nat.modulo n 60) 10 < 10)
    by (intros n; apply Nat.mod_upper_bound; discriminate).
  pose proof (Hq seconds) as Hq1. pose proof (Hq other) as Hq2.
  pose proof (Hr seconds) as Hr1. pose proof (Hr other) as Hr2.
  pose proof (Hdecomp seconds) as D1. pose proof (Hdecomp other) as D2.
  remember (Nat.div (Nat.modulo seconds 60) 10) as q1.
  remember (Nat.div (Nat.modulo other 60) 10) as q2.
  remember (Nat.modulo (Nat.modulo seconds 60) 10) as r1.
  remember (Nat.modulo (Nat.modulo other 60) 10) as r2.
  injection Hrest as Hd1 Hd2.
  apply digit_inj in Hd1; [|exact Hq1|exact Hq2].
  apply digit_inj in Hd2; [|exact Hr1|exact Hr2].
  lia.
Qed.

(** ** The level meter *)

Section MeterFacts.

Import Meter.
Local Open Scope R_scope.












End MeterFacts.

(** ** The capture callback on an open connection *)

Section CaptureOnConnection.

Import Capture.
Local Open Scope R_scope.

Lemma onaudioprocess_established (b : Browser) (cl : list ConfigCall) (inputData : list R) :
  onaudioprocess (established b cl) inputData
  = (if Rlt_dec (1 / 100) (rms inputData)
     then [onAudioData (Rmin 1 (rms inputData * 5))]
     else [])
    ++ [sendRealtimeInput (createPcmBlob inputData (deviceSampleRate (env b)))].
Proof.
  unfold onaudioprocess, established, sampleRate. records.
  rewrite lookup_last.
  rewrite (list_lookup_middle (contexts b) [resumedContext b] (resumedContext b) _ eq_refl).
  reflexivity.
Qed.

(** X18. On a connection that [connect] has just established, the capture
    callback hands every frame of the microphone, unchanged and with the
    sample rate of the input context, which is the device's rate, to
    [createPcmBlob], and sends the blob to the session; the send follows
    the level report, if the frame is loud enough for one, and there is
    exactly one per frame.  After [disconnect] the callback does nothing:
    no level, no send. *)
Theorem X18_capture_streams_at_device_rate
        (b : Browser) (cl : list ConfigCall) (inputData : list R) :
  audioContextSupported (env b) = true ->
  microphoneGranted (env b) = true ->
  remoteAccepts (env b) = true ->
  let s := snd (connect (mkMachine b newLiveClient cl)) in
  onaudioprocess s inputData
  = (if Rlt_dec (1 / 100) (rms inputData)
     then [onAudioData (Rmin 1 (rms inputData * 5))]
     else [])
    ++ [sendRealtimeInput (createPcmBlob inputData (deviceSampleRate (env b)))]
  /\ (forall media, In (sendRealtimeInput media) (onaudioprocess s inputData) ->
        blob_samples media = inputData
        /\ blob_sampleRate media = deviceSampleRate (env b))
  /\ onaudioprocess (snd (disconnect s)) inputData = []
  /\ (forall s0, onaudioprocess (snd (disconnect s0)) inputData = []).
Proof.
  intros Hs Hm Hr. cbv zeta. rewrite (connect_established b cl Hs Hm Hr). cbn [snd].
  assert (Hoff : forall s0, onaudioprocess (snd (disconnect s0)) inputData = []).
  { intros s0. rewrite (disconnect_runs s0). reflexivity. }
  split; [apply onaudioprocess_established|].
  split; [|split; [apply Hoff|exact Hoff]].
  intros media Hin. rewrite onaudioprocess_established in Hin.
  apply in_app_or in Hin. destruct Hin as [Hin|[Hin|[]]].
  - destruct (Rlt_dec (1 / 100) (rms inputData)); [|destruct Hin].
    destruct Hin as [Hin|[]]. discriminate Hin.
  - injection Hin as <-. split; reflexivity.
Qed.

End CaptureOnConnection.

Lemma X18_capture_streams_at_device_rate_witness :
  audioContextSupported (env (emptyBrowser sampleEnv)) = true
  /\ microphoneGranted (env (emptyBrowser sampleEnv)) = true
  /\ remoteAccepts (env (emptyBrowser sampleEnv)) = true
  /\ Capture.onaudioprocess
       (snd (disconnect (snd (connect (freshMachine sampleEnv))))) [] = [].
Proof.
  split; [reflexivity|]. split; [reflexivity|]. split; [reflexivity|].
  exact (proj1 (proj2 (proj2 (X18_capture_streams_at_device_rate
                                (emptyBrowser sampleEnv) [] [] eq_refl eq_refl eq_refl)))).
Defined.

(** ** The leaderboard *)

Section SortFacts.

Context {A : Type} (compareFn : A -> A -> Z) (R : A -> A -> Prop).

Hypothesis compare_spec : forall a b, (compareFn a b <= 0)%Z <-> R a b.
Hypothesis R_total : forall a b, R a b \/ R b a.
Hypothesis R_trans : forall a b c, R a b -> R b c -> R a c.

Lemma insertSorted_perm (x : A) (l : list A) : insertSorted compareFn x l ≡ₚ x :: l.
Proof.
  induction l as [|y l IH]; cbn; [reflexivity|].
  destruct (compareFn x y <=? 0)%Z; [reflexivity|].
  rewrite IH. apply Permutation_swap.
Qed.

Lemma sort_perm (l : list A) : sort compareFn l ≡ₚ l.
Proof.
  induction l as [|x l IH]; cbn; [reflexivity|].
  rewrite insertSorted_perm, IH. reflexivity.
Qed.

Lemma insertSorted_sorted (x : A) (l : list A) :
  Sorted.StronglySorted R l -> Sorted.StronglySorted R (insertSorted compareFn x l).
Proof.
  induction 1 as [|y l Hl IH Hy]; cbn.
  - constructor; constructor.
  - destruct (compareFn x y <=? 0)%Z eqn:E.
    + apply Z.leb_le, compare_spec in E. constructor.
      * constructor; assumption.
      * constructor; [exact E|].
        rewrite List.Forall_forall in Hy |- *. intros z Hz. exact (R_trans _ _ _ E (Hy z Hz)).
    + apply Z.leb_gt in E. constructor; [exact IH|].
      assert (Hyx : R y x).
      { destruct (R_total x y) as [H|H]; [|exact H].
        apply compare_spec in H. lia. }
      rewrite (insertSorted_perm x l). constructor; assumption.
Qed.

Lemma sort_sorted (l : list A) : Sorted.StronglySorted R (sort compareFn l).
Proof.
  induction l as [|x l IH]; cbn; [constructor|]. apply insertSorted_sorted. exact IH.
Qed.

Lemma StronglySorted_lookup (l : list A) :
  Sorted.StronglySorted R l ->
  forall i j a b, i < j -> l !! i = Some a -> l !! j = Some b -> R a b.
Proof.
  induction 1 as [|x l Hl IH Hx]; intros i j a b Hij Hi Hj; [discriminate Hi|].
  destruct j as [|j]; [lia|]. cbn in Hj. destruct i as [|i]; cbn in Hi.
  - injection Hi as <-. rewrite List.Forall_forall in Hx. apply Hx.
    apply list_elem_of_In. exact (list_elem_of_lookup_2 _ _ _ Hj).
  - apply (IH i j); [lia|assumption|assumption].
Qed.

End SortFacts.

Lemma byScoreThenTime_spec (a b : CallSession) :
  (byScoreThenTime a b <= 0)%Z <-> ranksAbove a b.
Proof.
  unfold byScoreThenTime, ranksAbove.
  destruct (Z.eqb (overallScore b) (overallScore a)) eqn:E; cbn [negb].
  - apply Z.eqb_eq in E. lia.
  - apply Z.eqb_neq in E. lia.
Qed.

Lemma ranksAbove_total (a b : CallSession) : ranksAbove a b \/ ranksAbove b a.
Proof. unfold ranksAbove. lia. Qed.

Lemma ranksAbove_trans (a b c : CallSession) :
  ranksAbove a b -> ranksAbove b c -> ranksAbove a c.
Proof. unfold ranksAbove. lia. Qed.

(** X19. The leaderboard shows exactly the sessions it is given, each as
    often as it occurs, ordered by score from high to low and, within a
    score, from the most recent to the oldest; so the entry at the top has
    the highest score of all.  After [handleEndCall] has stored a call, the
    board built from the new history carries the new record and every
    earlier one. *)
Theorem X19_leaderboard_ranks_by_score_then_time (sessions : list CallSession) :
  sorted sessions ≡ₚ sessions
  /\ length (sorted sessions) = length sessions
  /\ (forall i j a b, i < j ->
        sorted sessions !! i = Some a -> sorted sessions !! j = Some b ->
        ranksAbove a b)
  /\ (forall a b, sorted sessions !! 0 = Some a -> b ∈ sessions ->
        (overallScore b <= overallScore a)%Z)
  /\ (forall t p selected,
        selectedPersona (app p) = Some selected ->
        let board := sorted (sessions_history (app (snd (handleEndCall t p)))) in
        (exists r, r ∈ board /\ session_transcript r = t
                   /\ personaId r = persona_id selected)
        /\ (forall old, old ∈ sessions_history (app p) -> old ∈ board)).
Proof.
  pose proof (sort_perm byScoreThenTime sessions) as Hperm.
  pose proof (StronglySorted_lookup ranksAbove _
                (sort_sorted byScoreThenTime ranksAbove byScoreThenTime_spec
                   ranksAbove_total ranksAbove_trans sessions)) as Hord.
  fold (sorted sessions) in Hperm, Hord.
  split; [exact Hperm|]. split; [rewrite Hperm; reflexivity|]. split; [exact Hord|].
  split.
  - intros a b Ha Hb. rewrite <- Hperm in Hb.
    apply list_elem_of_lookup_1 in Hb. destruct Hb as [j Hj].
    destruct j as [|j].
    + rewrite Ha in Hj. injection Hj as <-. lia.
    + assert (H : ranksAbove a b) by (apply (Hord 0 (S j)); [lia|assumption|assumption]).
      unfold ranksAbove in H. lia.
  - intros t p selected Hsel. cbv zeta.
    rewrite (handleEndCall_runs t p selected _ Hsel
               (gradeCall_runs t selected (language (app p)) p)).
    cbn [snd app sessions_history].
    set (r := recordOf p selected t _).
    pose proof (sort_perm byScoreThenTime (r :: sessions_history (app p))) as Hp.
    fold (sorted (r :: sessions_history (app p))) in Hp.
    split.
    + exists r. split; [rewrite Hp; apply list_elem_of_here|]. split; reflexivity.
    + intros old Hold. rewrite Hp. apply list_elem_of_further. exact Hold.
Qed.

(** ** The global leaderboard *)

Section BoardFacts.

Variable toISOString : Z -> Completion string.

Lemma byScore_spec (a b : LeaderboardEntry) :
  (byScore a b <= 0)%Z <-> (score b <= score a)%Z.
Proof. unfold byScore. lia. Qed.

Lemma mapEntries_scores (sessions : list CallSession) (entries : list LeaderboardEntry) :
  mapEntries toISOString sessions = Normal entries ->
  score <$> entries = overallScore <$> sessions.
Proof.
  revert entries. induction sessions as [|s rest IH]; intros entries H; cbn in H.
  - injection H as <-. reflexivity.
  - unfold entryOf in H. destruct (toISOString (timestamp s)) as [iso|e]; [|discriminate].
    destruct (mapEntries toISOString rest) as [l|e]; [|discriminate].
    injection H as <-. cbn. f_equal. apply IH. reflexivity.
Qed.

(** X20. The global leaderboard shows at most twenty entries, ordered by
    score from high to low.  Each comes from the remote board or from the
    calls saved locally, and none is shown more often than it was
    received; an entry that is left out scores no higher than any entry
    shown.  When the remote service is not configured, returns an error or
    throws, the board is built from the local calls alone; when the local
    item is missing or unreadable, from the remote entries alone.  A local
    call keeps its score, player and persona on the board. *)
Theorem X20_global_board_shows_top_twenty (supabase : Supabase) (saved : SavedItem) :
  let globalData := getLeaderboard supabase 20 in
  let locals := localData toISOString saved in
  let entries := fetchLeaderboard toISOString supabase saved in
  length entries <= 20
  /\ (forall i j a b, i < j -> entries !! i = Some a -> entries !! j = Some b ->
        (score b <= score a)%Z)
  /\ entries ⊆+ globalData ++ locals
  /\ (forall e shown, e ∈ globalData ++ locals -> e ∉ entries -> shown ∈ entries ->
        (score e <= score shown)%Z)
  /\ (length (globalData ++ locals) <= 20 -> entries ≡ₚ globalData ++ locals)
  /\ ((supabase = None
       \/ exists query, supabase = Some query
            /\ (query 20 = QueryReturns None false
                \/ (exists data, query 20 = QueryReturns data true)
                \/ exists err, query 20 = QueryThrows err)) ->
      globalData = [])
  /\ (saved = Absent \/ saved = Unparsable -> locals = [])
  /\ (forall sessions, saved = Saved sessions ->
        locals = []
        \/ (score <$> locals = overallScore <$> sessions
            /\ player_name <$> locals = session_playerName <$> sessions
            /\ entry_persona_id <$> locals = personaId <$> sessions)).
Proof.
  cbv zeta. unfold fetchLeaderboard. cbv zeta.
  set (combined := getLeaderboard supabase 20 ++ localData toISOString saved).
  pose proof (sort_perm byScore combined) as Hperm.
  assert (Htotal : forall a b : LeaderboardEntry,
             (score b <= score a)%Z \/ (score a <= score b)%Z) by (intros; lia).
  assert (Htrans : forall a b c : LeaderboardEntry,
             (score b <= score a)%Z -> (score c <= score b)%Z -> (score c <= score a)%Z)
    by (intros; lia).
  pose proof (StronglySorted_lookup (fun a b => (score b <= score a)%Z) _
                (sort_sorted byScore (fun a b => (score b <= score a)%Z) byScore_spec
                   Htotal Htrans combined)) as Hord.
  cbv beta in Hord.
  split; [rewrite length_take; lia|].
  split.
  { intros i j a b Hij Ha Hb.
    apply lookup_take_Some in Ha. apply lookup_take_Some in Hb.
    exact (Hord i j a b Hij (proj1 Ha) (proj1 Hb)). }
  split.
  { transitivity (sort byScore combined);
      [apply sublist_submseteq, sublist_take|apply Permutation_submseteq, Hperm]. }
  split.
  { intros e shown He Hnot Hshown.
    assert (He' : e ∈ sort byScore combined) by (rewrite Hperm; exact He).
    clear He. rename He' into He.
    rewrite <- (take_drop 20 (sort byScore combined)) in He.
    apply elem_of_app in He. destruct He as [He|He]; [contradiction|].
    apply list_elem_of_lookup_1 in He. destruct He as [j Hj].
    rewrite lookup_drop in Hj.
    apply list_elem_of_lookup_1 in Hshown. destruct Hshown as [i Hi].
    apply lookup_take_Some in Hi. destruct Hi as [Hi Hlt].
    apply (Hord i (20 + j)); [lia|exact Hi|exact Hj]. }
  split.
  { intros Hlen. rewrite take_ge; [exact Hperm|].
    rewrite (Permutation_length Hperm). exact Hlen. }
  split.
  { unfold getLeaderboard. intros [->|(query & -> & [H|[[data H]|[err H]]])];
      [reflexivity|rewrite H; reflexivity..]. }
  split; [intros [->| ->]; reflexivity|].
  intros sessions ->. unfold localData.
  destruct (mapEntries toISOString sessions) as [l|e] eqn:E; [right|left; reflexivity].
  split; [exact (mapEntries_scores sessions l E)|].
  clear -E. revert l E. induction sessions as [|s rest IH]; intros l H; cbn in H.
  - injection H as <-. split; reflexivity.
  - unfold entryOf in H. destruct (toISOString (timestamp s)) as [iso|e]; [|discriminate].
    destruct (mapEntries toISOString rest) as [l'|e]; [|discriminate].
    injection H as <-. destruct (IH l' eq_refl) as [H1 H2]. cbn. rewrite H1, H2.
    split; reflexivity.
Qed.

End BoardFacts.

(** ** From the client's callbacks to the record *)

Lemma string_append_assoc (a b c : string) : ((a ++ b) ++ c = a ++ (b ++ c))%string.
Proof. induction a as [|x a IH]; cbn; [reflexivity|]. rewrite IH. reflexivity. Qed.

Lemma string_append_nil_r (a : string) : (a ++ "")%string = a.
Proof. induction a as [|x a IH]; cbn; [reflexivity|]. rewrite IH. reflexivity. Qed.

Lemma deliver_all (cs : list ConfigCall) (p : Page) :
  isMountedRef (activeCall p) = true ->
  exists tos,
    forEach cs deliver p =
      (Normal tt,
       mkPage (page_browser p) (app p)
         (set_timeouts tos
            (set_transcript
               (transcript (activeCall p) ++ linesOf (persona (activeCall p)) cs)
               (set_transcriptRef
                  (transcriptRef (activeCall p) ++ linesOf (persona (activeCall p)) cs)
                  (activeCall p))))).
Proof.
  revert p. induction cs as [|c cs IH]; intros p Hm.
  - exists (timeouts (activeCall p)). cbn [forEach linesOf].
    rewrite !string_append_nil_r. destruct p as [b a []]. reflexivity.
  - destruct p as [b a [per st dur tr mu em co lr tid ia trr mo ig tos ck ec]].
    cbn [activeCall isMountedRef] in Hm. subst mo.
    cbn [forEach]. unfold bind at 1.
    set (p0 := mkPage b a (mkActiveCall per st dur tr mu em co lr tid ia trr true ig
                                        tos ck ec)).
    destruct c as [payload|text isUser|]; cbn [deliver linesOf].
    + exact (IH p0 eq_refl).
    + rewrite (onTranscript_runs text isUser p0 eq_refl). unfold p0.
      cbn [activeCall page_browser app persona transcript transcriptRef timeouts clock
           set_transcript set_transcriptRef set_timeouts].
      destruct (negb isUser && includes END_CALL text);
        (match goal with
         | |- context [forEach cs deliver ?q] => destruct (IH q eq_refl) as [tos' ->]
         end);
        exists tos'; cbn; rewrite !string_append_assoc; reflexivity.
    + exact (IH p0 eq_refl).
Qed.

(** X21. Transcripts reach the record in the order they were reported.
    On a mounted call screen, a sequence of the client's callbacks appends
    one line per transcript to the screen's transcript, in the order of the
    calls, a user's line headed "You", a model's line headed with the
    persona's name; level reports and the close notice add nothing.  The
    state shown and the ref agree on what is appended.  A hang-up after
    that hands exactly the accumulated text to [onEndCall], and with a
    persona selected it is the transcript of the record that is stored. *)
Theorem X21_transcript_reaches_the_record (cs : list ConfigCall) (p : Page) :
  isMountedRef (activeCall p) = true ->
  let p1 := snd (forEach cs deliver p) in
  let p2 := snd (handleHangUp p1) in
  let text := (transcriptRef (activeCall p) ++ linesOf (persona (activeCall p)) cs)%string in
  fst (forEach cs deliver p) = Normal tt
  /\ transcriptRef (activeCall p1) = text
  /\ transcript (activeCall p1)
     = (transcript (activeCall p) ++ linesOf (persona (activeCall p)) cs)%string
  /\ page_browser p1 = page_browser p
  /\ app p1 = app p
  /\ fst (handleHangUp p1) = Normal tt
  /\ onEndCall_calls (activeCall p2) = onEndCall_calls (activeCall p) ++ [text]
  /\ (is_Some (selectedPersona (app p)) ->
      (session_transcript <$> currentSession (app p2)) = Some text
      /\ (session_transcript <$> head (sessions_history (app p2))) = Some text).
Proof.
  intros Hm. cbv zeta.
  destruct (deliver_all cs p Hm) as [tos ->]. cbn [fst snd].
  set (p1 := mkPage (page_browser p) (app p) _).
  assert (Hr : transcriptRef (activeCall p1)
               = (transcriptRef (activeCall p) ++ linesOf (persona (activeCall p)) cs)%string)
    by (unfold p1; destruct p as [b a []]; reflexivity).
  assert (Hec : onEndCall_calls (activeCall p1) = onEndCall_calls (activeCall p))
    by (unfold p1; destruct p as [b a []]; reflexivity).
  split; [reflexivity|]. split; [exact Hr|].
  split; [unfold p1; destruct p as [b a []]; reflexivity|].
  split; [reflexivity|]. split; [reflexivity|].
  destruct (handleHangUp_spec p1) as (Hn & _ & Hac).
  destruct (hungUp_frame p1) as (_ & Happ & _ & _ & _ & _ & _ & _ & Hcalls).
  split; [exact Hn|].
  split; [rewrite Hac, Hcalls, Hec, Hr; reflexivity|].
  intros [selected Hsel]. rewrite (handleHangUp_eq p1).
  assert (Hsel1 : selectedPersona (app (hungUp p1)) = Some selected)
    by (rewrite Happ; exact Hsel).
  rewrite (handleEndCall_runs _ (hungUp p1) selected _ Hsel1
             (gradeCall_runs _ selected (language (app (hungUp p1))) (hungUp p1))).
  cbn [snd app currentSession sessions_history]. rewrite Hr. split; reflexivity.
Qed.

Lemma X21_transcript_reaches_the_record_witness :
  let cs := [onTranscript_call "Hello?" true;
             onAudioData_model silence100ms;
             onTranscript_call "Hi, this is Mr. Johnson." false] in
  isMountedRef (activeCall (samplePage sampleEnv)) = true
  /\ transcriptRef (activeCall (snd (forEach cs deliver (samplePage sampleEnv))))
     = (transcriptRef (activeCall (samplePage sampleEnv))
          ++ linesOf (persona (activeCall (samplePage sampleEnv))) cs)%string.
Proof.
  cbv zeta. split; [reflexivity|].
  exact (proj1 (proj2 (X21_transcript_reaches_the_record
                         [onTranscript_call "Hello?" true;
                          onAudioData_model silence100ms;
                          onTranscript_call "Hi, this is Mr. Johnson." false]
                         (samplePage sampleEnv) eq_refl))).
Defined.

(** ** A session closed by the remote end *)

(** X22. When the remote end closes the session, the client marks itself
    as not connected and calls [onClose] once, and that is all: the call
    screen's [onClose] changes nothing, so the screen keeps its status, an
    armed interval keeps counting seconds, and nothing is released; the
    store is exactly as before, and the client still holds its contexts,
    its stream and its session promise.  Releasing them is left to a later
    hang-up or unmount. *)
Theorem X22_remote_close_changes_only_the_flag (p : Page) (c : LiveClient) (k : nat) :
  clientObj (activeCall p) = Some c ->
  let p' := snd (remoteClose p) in
  fst (remoteClose p) = Normal tt
  /\ calls (snd (handleClose (mkMachine (page_browser p) c []))) = [onClose_call]
  /\ clientObj (activeCall p') = Some (set_isConnected false c)
  /\ page_browser p' = page_browser p
  /\ app p' = app p
  /\ status (activeCall p') = status (activeCall p)
  /\ transcriptRef (activeCall p') = transcriptRef (activeCall p)
  /\ onEndCall_calls (activeCall p') = onEndCall_calls (activeCall p)
  /\ timeouts (activeCall p') = timeouts (activeCall p)
  /\ (intervalArmed (activeCall p) = true -> isMountedRef (activeCall p) = true ->
      call_duration (activeCall (snd (ticks k p'))) = k + call_duration (activeCall p))
  /\ clientObj (activeCall (snd (cleanup p'))) = Some (released c).
Proof.
  intros Hc. cbv zeta.
  assert (Hrun : remoteClose p
                 = (Normal tt,
                    mkPage (page_browser p) (app p)
                           (set_clientObj (Some (set_isConnected false c)) (activeCall p)))).
  { unfold remoteClose, bind, onClient, deliver, ret. rewrite Hc. reflexivity. }
  rewrite Hrun. cbn [fst snd].
  destruct p as [b a [per st dur tr mu em co lr tid ia trr mo ig tos ck ec]].
  cbn [activeCall clientObj page_browser app] in *. subst co.
  do 9 (split; [reflexivity|]).
  split.
  - cbn [intervalArmed isMountedRef]. intros -> ->.
    rewrite ticks_counts by reflexivity. reflexivity.
  - rewrite (cleanup_runs _). cbn [snd]. unfold unmounted.
    cbn [activeCall clientObj set_clientObj]. destruct tid; destruct c; reflexivity.
Qed.

Lemma X22_remote_close_changes_only_the_flag_witness :
  let p := snd (startCall (samplePage sampleEnv)) in
  clientObj (activeCall p) = Some (this connectedMachine)
  /\ status (activeCall (snd (remoteClose p))) = status (activeCall p).
Proof.
  cbv zeta.
  assert (Hc : clientObj (activeCall (snd (startCall (samplePage sampleEnv))))
               = Some (this connectedMachine)) by (vm_compute; reflexivity).
  split; [exact Hc|].
  pose proof (X22_remote_close_changes_only_the_flag
                (snd (startCall (samplePage sampleEnv))) (this connectedMachine) 0 Hc) as H.
  cbv zeta in H.
  exact (proj1 (proj2 (proj2 (proj2 (proj2 (proj2 H)))))).
Defined.

(** ** Playback across interruptions *)

Lemma currentTime_advance (dt : Q) (b : Browser) (octx : nat) :
  (0 <= dt)%Q -> (currentTime b octx <= currentTime (advanceClock dt b) octx)%Q.
Proof.
  intros Hdt. unfold currentTime, advanceClock. cbn [contexts set_contexts].
  rewrite list_lookup_fmap. destruct (contexts b !! octx) as [c|]; cbn; [|apply Qle_refl].
  destruct (ctx_state c); cbn; try apply Qle_refl.
  rewrite <- (Qplus_0_r (ctx_currentTime c)) at 1.
  apply Qplus_le_r. exact Hdt.
Qed.

Lemma removeFirst_keeps (x y : nat) (l : list nat) :
  y ∈ l -> y ∈ removeFirst x l \/ y = x.
Proof.
  induction l as [|z l IH]; cbn; [intros H; apply elem_of_nil in H; destruct H|].
  rewrite elem_of_cons. destruct (Nat.eqb x z) eqn:E.
  - apply Nat.eqb_eq in E. subst z. intros [->|H]; [right; reflexivity|left; exact H].
  - intros [->|H]; [left; apply list_elem_of_here|].
    destruct (IH H) as [H'|H']; [left; apply list_elem_of_further; exact H'|right; exact H'].
Qed.

Lemma sounding_inv_scheduled (n octx : nat) (buf : AudioBuffer) (s : Machine) :
  n <= length (sources (browser s)) ->
  sounding_inv n octx s -> sounding_inv n octx (scheduledMachine octx buf s).
Proof.
  intros Hn (Ho & Hends & Hord).
  pose proof (lifted_ge_cursor (nextStartTime (this s)) (currentTime (browser s) octx))
    as Hgc.
  pose proof (lifted_ge_now (nextStartTime (this s)) (currentTime (browser s) octx))
    as Hgn.
  pose proof (duration_nonneg buf) as Hdur.
  set (start := lifted (nextStartTime (this s)) (currentTime (browser s) octx)) in *.
  assert (Hnew : forall id src,
             (sources (browser s)
                ++ [mkSource octx (Some buf) true (Some start) false]) !! id = Some src ->
             (id < length (sources (browser s)) /\ sources (browser s) !! id = Some src)
             \/ (id = length (sources (browser s))
                 /\ src = mkSource octx (Some buf) true (Some start) false)).
  { intros id src H. apply lookup_snoc_Some in H. destruct H as [[? ?]|[? ?]];
      [left|right]; split; auto. }
  assert (Hold : forall id src a b,
             n <= id -> sources (browser s) !! id = Some src -> audible src = true ->
             interval src = Some (a, b) -> (b <= start)%Q).
  { intros id src a b Hid Hsrc Haud Hint.
    destruct (Hends id src Hid Hsrc Haud) as (a0 & b0 & Hint0 & [Hb|Hb] & _);
      rewrite Hint in Hint0; injection Hint0 as <- <-.
    - exact (Qle_trans _ _ _ Hb Hgc).
    - exact (Qle_trans _ _ _ Hb Hgn). }
  unfold sounding_inv, scheduledMachine. fold start. records.
  assert (Hclock : currentTime
                     (set_sources
                        (sources (browser s)
                           ++ [mkSource octx (Some buf) true (Some start) false])
                        (browser s)) octx
                   = currentTime (browser s) octx) by reflexivity.
  rewrite Hclock.
  split; [exact Ho|]. split.
  - intros id src Hid Hsrc Haud. destruct (Hnew id src Hsrc) as [[Hlt Hsrc']|[-> ->]].
    + destruct (Hends id src Hid Hsrc' Haud) as (a & b & Hint & _ & Hq).
      exists a, b. split; [exact Hint|]. split.
      * left. apply (Qle_trans _ start); [exact (Hold id src a b Hid Hsrc' Haud Hint)|].
        rewrite <- (Qplus_0_r start) at 1. apply Qplus_le_r. exact Hdur.
      * destruct Hq as [Hq|Hq]; [left; apply elem_of_app; left; exact Hq|right; exact Hq].
    + exists start, (start + duration buf)%Q. split; [reflexivity|].
      split; [left; apply Qle_refl|]. left. apply elem_of_app. right.
      apply list_elem_of_here.
  - intros i j si sj a b a' b' Hi Hij Hsi Hsj Hai Haj Hinti Hintj.
    destruct (Hnew j sj Hsj) as [[Hjlt Hsj']|[-> ->]].
    + destruct (Hnew i si Hsi) as [[_ Hsi']|[-> _]]; [|lia].
      exact (Hord i j si sj a b a' b' Hi Hij Hsi' Hsj' Hai Haj Hinti Hintj).
    + destruct (Hnew i si Hsi) as [[_ Hsi']|[Heq _]]; [|lia].
      cbn in Hintj. injection Hintj as <- <-.
      exact (Hold i si a b Hi Hsi' Hai Hinti).
Qed.

Lemma sounding_inv_interrupted (n octx : nat) (s : Machine) :
  sounding_inv n octx s -> sounding_inv n octx (interruptedMachine octx s).
Proof.
  intros (Ho & Hends & Hord). unfold sounding_inv, interruptedMachine. records.
  assert (Hclock : currentTime
                     (set_sources
                        (alterAll stopIfStarted (audioQueue (this s)) (sources (browser s)))
                        (browser s)) octx
                   = currentTime (browser s) octx) by reflexivity.
  rewrite Hclock.
  assert (Hkept : forall id src,
             alterAll stopIfStarted (audioQueue (this s)) (sources (browser s)) !! id
             = Some src ->
             audible src = true ->
             sources (browser s) !! id = Some src /\ id ∉ audioQueue (this s)).
  { intros id src Hsrc Haud.
    rewrite alterAll_lookup in Hsrc by apply stopIfStarted_idem.
    destruct (bool_decide (id ∈ audioQueue (this s))) eqn:E.
    - destruct (sources (browser s) !! id) as [src0|]; [|discriminate].
      cbn in Hsrc. injection Hsrc as <-. rewrite stopIfStarted_silent in Haud.
      discriminate.
    - apply bool_decide_eq_false in E. split; [exact Hsrc|exact E]. }
  split; [exact Ho|]. split.
  - intros id src Hid Hsrc Haud. destruct (Hkept id src Hsrc Haud) as [Hsrc' Hnot].
    destruct (Hends id src Hid Hsrc' Haud) as (a & b & Hint & _ & [Hq|Hq]);
      [contradiction|].
    exists a, b. split; [exact Hint|]. split; right; exact Hq.
  - intros i j si sj a b a' b' Hi Hij Hsi Hsj Hai Haj Hinti Hintj.
    destruct (Hkept i si Hsi Hai) as [Hsi' _]. destruct (Hkept j sj Hsj Haj) as [Hsj' _].
    exact (Hord i j si sj a b a' b' Hi Hij Hsi' Hsj' Hai Haj Hinti Hintj).
Qed.

Section SoundingFacts.

Variable decodeAudioData : list Byte.byte -> positive -> nat -> Completion AudioBuffer.

Local Abbreviation after := (afterMessage decodeAudioData).
Local Abbreviation step1 := (step decodeAudioData).
Local Abbreviation runs_through := (run decodeAudioData).

Lemma afterMessage_grows (m : LiveServerMessage) (s : Machine) :
  length (sources (browser s)) <= length (sources (browser (after s m))).
Proof.
  unfold afterMessage, interruptedMachine, scheduledMachine.
  destruct (outputAudioContext (this s)) as [octx|]; [|reflexivity].
  destruct (modelAudio m) as [data|];
    [destruct (Nat.odd (length data));
     [|destruct (decodeAudioData data 24000%positive 1)]|];
    destruct (interrupted m); records;
    rewrite ?alterAll_length, ?length_app; cbn [length]; lia.
Qed.

Lemma sounding_inv_afterMessage (n octx : nat) (m : LiveServerMessage) (s : Machine) :
  n <= length (sources (browser s)) ->
  sounding_inv n octx s -> sounding_inv n octx (after s m).
Proof.
  intros Hn H. unfold afterMessage. rewrite (proj1 H). cbv zeta.
  set (s1 := mkMachine (browser s) (this s) _).
  assert (H1 : sounding_inv n octx s1) by exact H.
  assert (Hflush : forall x, sounding_inv n octx x ->
             sounding_inv n octx (if interrupted m then interruptedMachine octx x else x)).
  { intros x Hx. destruct (interrupted m); [apply sounding_inv_interrupted|]; exact Hx. }
  destruct (modelAudio m) as [data|]; [|apply Hflush; exact H1].
  destruct (Nat.odd (length data)); [exact H1|].
  destruct (decodeAudioData data 24000%positive 1) as [buf|e]; [|exact H1].
  apply Hflush. apply sounding_inv_scheduled; [exact Hn|exact H1].
Qed.

Lemma sounding_inv_step (n octx : nat) (e : Event) (s : Machine) :
  n <= length (sources (browser s)) ->
  timely s octx e ->
  sounding_inv n octx s ->
  sounding_inv n octx (step1 s e)
  /\ n <= length (sources (browser (step1 s e))).
Proof.
  intros Hn Ht H. destruct e as [dt|m|id0]; cbn [step timely] in *.
  - split; [|exact Hn]. destruct H as (Ho & Hends & Hord).
    pose proof (currentTime_advance dt (browser s) octx Ht) as Hclock.
    split; [exact Ho|]. split; [|exact Hord].
    intros id src Hid Hsrc Haud.
    destruct (Hends id src Hid Hsrc Haud) as (a & b & Hint & Hb & Hq).
    exists a, b. split; [exact Hint|]. cbn [browser this].
    split.
    + destruct Hb as [Hb|Hb]; [left; exact Hb|right; exact (Qle_trans _ _ _ Hb Hclock)].
    + destruct Hq as [Hq|Hq]; [left; exact Hq|right; exact (Qle_trans _ _ _ Hq Hclock)].
  - rewrite (handleMessage_runs decodeAudioData m s). cbn [snd].
    split; [apply sounding_inv_afterMessage; assumption|].
    pose proof (afterMessage_grows m s). lia.
  - split; [|exact Hn]. destruct H as (Ho & Hends & Hord).
    unfold onended, onThis, modify. cbn [snd]. unfold sounding_inv. records.
    split; [destruct s as [b [] cl]; exact Ho|]. split; [|exact Hord].
    intros id src Hid Hsrc Haud.
    destruct (Hends id src Hid Hsrc Haud) as (a & b & Hint & Hb & Hq).
    exists a, b. split; [exact Hint|]. split; [exact Hb|].
    destruct Hq as [Hq|Hq]; [|right; exact Hq].
    destruct (removeFirst_keeps id0 id _ Hq) as [Hkeep| ->]; [left; exact Hkeep|].
    right. specialize (Ht src Hsrc). unfold ended_by_now in Ht. rewrite Hint in Ht.
    exact Ht.
Qed.

Lemma sounding_inv_run (n octx : nat) (es : list Event) (s : Machine) :
  n <= length (sources (browser s)) ->
  timely_run decodeAudioData s octx es ->
  sounding_inv n octx s ->
  sounding_inv n octx (runs_through s es).
Proof.
  revert s. induction es as [|e es IH]; intros s Hn Ht H; [exact H|].
  cbn [run fold_left]. destruct Ht as [Hte Htrest].
  destruct (sounding_inv_step n octx e s Hn Hte H) as [H' Hn'].
  apply IH; assumption.
Qed.

(** X23. Whatever the traffic, no two chunks sound at once.  Take a client
    with an output context and any sequence of events in which time does
    not run backwards and a source reports its end only once it has played
    to the end: messages with audio, with transcripts, interruptions,
    undecodable payloads.  Of the sources created along the way, any two
    that have been started and not stopped play one after the other: the
    earlier one ends no later than the later one starts.  An interruption
    does not break this: what it leaves unstopped has already played to
    the end, and it restarts the cursor at the clock. *)
Theorem X23_no_two_chunks_sound_at_once
        (s : Machine) (octx : nat) (es : list Event) :
  outputAudioContext (this s) = Some octx ->
  timely_run decodeAudioData s octx es ->
  let s' := runs_through s es in
  let n := length (sources (browser s)) in
  outputAudioContext (this s') = Some octx
  /\ (forall i j si sj a b a' b',
        n <= i -> i < j ->
        sources (browser s') !! i = Some si -> sources (browser s') !! j = Some sj ->
        audible si = true -> audible sj = true ->
        interval si = Some (a, b) -> interval sj = Some (a', b') -> (b <= a')%Q)
  /\ (forall id src, n <= id -> sources (browser s') !! id = Some src ->
        audible src = true ->
        id ∈ audioQueue (this s') \/ ended_by_now s' octx src).
Proof.
  intros Ho Ht. cbv zeta.
  assert (Hinit : sounding_inv (length (sources (browser s))) octx s).
  { split; [exact Ho|]. split.
    - intros id src Hid Hsrc. apply lookup_lt_Some in Hsrc. lia.
    - intros i j si sj a b a' b' Hi Hij Hsi. apply lookup_lt_Some in Hsi. lia. }
  destruct (sounding_inv_run _ octx es s (le_n _) Ht Hinit) as (Ho' & Hends & Hord).
  split; [exact Ho'|]. split; [exact Hord|].
  intros id src Hid Hsrc Haud.
  destruct (Hends id src Hid Hsrc Haud) as (a & b & Hint & _ & Hq).
  destruct Hq as [Hq|Hq]; [left; exact Hq|right].
  unfold ended_by_now. rewrite Hint. exact Hq.
Qed.

End SoundingFacts.

Lemma interruptedEvents_timely :
  timely_run pcm16Decoder connectedMachine 1 interruptedEvents.
Proof.
  unfold interruptedEvents. cbn [timely_run timely].
  split; [vm_compute; discriminate|]. split; [exact I|]. split; [exact I|].
  split; [vm_compute; discriminate|].
  split.
  { intros src Hsrc. vm_compute in Hsrc. injection Hsrc as <-.
    vm_compute. discriminate. }
  split; [exact I|]. split; [exact I|]. exact I.
Defined.

Lemma X23_no_two_chunks_sound_at_once_witness :
  outputAudioContext (this connectedMachine) = Some 1
  /\ timely_run pcm16Decoder connectedMachine 1 interruptedEvents
  /\ outputAudioContext (this (run pcm16Decoder connectedMachine interruptedEvents))
     = Some 1.
Proof.
  assert (Ho : outputAudioContext (this connectedMachine) = Some 1)
    by (vm_compute; reflexivity).
  split; [exact Ho|]. split; [exact interruptedEvents_timely|].
  exact (proj1 (X23_no_two_chunks_sound_at_once pcm16Decoder connectedMachine 1
                  interruptedEvents Ho interruptedEvents_timely)).
Defined.

(** ** A whole call *)

Lemma linesOf_app (persona : Persona) (cs cs' : list ConfigCall) :
  linesOf persona (cs ++ cs') = (linesOf persona cs ++ linesOf persona cs')%string.
Proof.
  induction cs as [|[payload|text isUser|] cs IH]; cbn [List.app linesOf];
    [reflexivity|exact IH| |exact IH].
  rewrite IH, string_append_assoc. reflexivity.
Qed.

Lemma hangUpsDue_app (now : Z) (cs cs' : list ConfigCall) :
  hangUpsDue now (cs ++ cs') = hangUpsDue now cs ++ hangUpsDue now cs'.
Proof.
  induction cs as [|[payload|text isUser|] cs IH]; cbn [List.app hangUpsDue];
    [reflexivity|exact IH| |exact IH].
  rewrite IH, app_assoc. reflexivity.
Qed.

Lemma clientEvents_app (es es' : list CallEvent) :
  clientEvents (es ++ es') = clientEvents es ++ clientEvents es'.
Proof.
  induction es as [|[e|] es IH]; cbn [List.app clientEvents]; [reflexivity| |exact IH].
  rewrite IH. reflexivity.
Qed.

Lemma seconds_app (es es' : list CallEvent) :
  seconds (es ++ es') = seconds es + seconds es'.
Proof.
  induction es as [|[e|] es IH]; cbn [List.app seconds]; [reflexivity|exact IH|].
  rewrite IH. reflexivity.
Qed.

(** What a sequence of callbacks leaves of a mounted screen, the timeouts
    included. *)
Lemma deliver_runs (cs : list ConfigCall) (p : Page) :
  isMountedRef (activeCall p) = true ->
  forEach cs deliver p =
    (Normal tt,
     mkPage (page_browser p) (app p)
       (set_timeouts (timeouts (activeCall p) ++ hangUpsDue (clock (activeCall p)) cs)
          (set_transcript
             (transcript (activeCall p) ++ linesOf (persona (activeCall p)) cs)
             (set_transcriptRef
                (transcriptRef (activeCall p) ++ linesOf (persona (activeCall p)) cs)
                (activeCall p))))).
Proof.
  revert p. induction cs as [|c cs IH]; intros p Hm.
  - cbn [forEach linesOf hangUpsDue].
    rewrite !string_append_nil_r, app_nil_r. destruct p as [b a []]. reflexivity.
  - destruct p as [b a [per st dur tr mu em co lr tid ia trr mo ig tos ck ec]].
    cbn [activeCall isMountedRef] in Hm. subst mo.
    cbn [forEach]. unfold bind at 1.
    set (p0 := mkPage b a (mkActiveCall per st dur tr mu em co lr tid ia trr true ig
                                        tos ck ec)).
    destruct c as [payload|text isUser|]; cbn [deliver linesOf hangUpsDue].
    + exact (IH p0 eq_refl).
    + rewrite (onTranscript_runs text isUser p0 eq_refl). unfold p0.
      cbn [activeCall page_browser app persona transcript transcriptRef timeouts clock
           set_transcript set_transcriptRef set_timeouts].
      destruct (negb isUser && includes END_CALL text);
        (match goal with
         | |- context [forEach cs deliver ?q] => rewrite (IH q eq_refl)
         end);
        cbn; rewrite !string_append_assoc, <- ?app_assoc; reflexivity.
    + exact (IH p0 eq_refl).
Qed.

Section CallFacts.

Variable decodeAudioData : list Byte.byte -> positive -> nat -> Completion AudioBuffer.

(** The callback log a handler starts from is only ever extended. *)
Lemma step_calls (b : Browser) (c : LiveClient) (cl : list ConfigCall) (e : Event) :
  step decodeAudioData (mkMachine b c cl) e
  = mkMachine (browser (step decodeAudioData (mkMachine b c []) e))
              (this (step decodeAudioData (mkMachine b c []) e))
              (cl ++ calls (step decodeAudioData (mkMachine b c []) e)).
Proof.
  destruct e as [dt|m|src]; cbn [step].
  - cbn. rewrite app_nil_r. reflexivity.
  - rewrite !handleMessage_runs. cbn [snd]. unfold afterMessage.
    cbn [this browser calls].
    destruct (outputAudioContext c) as [octx|]; [|cbn; rewrite app_nil_r; reflexivity].
    cbn [List.app].
    destruct (modelAudio m) as [audioData|].
    + destruct (Nat.odd (length audioData)); [reflexivity|].
      destruct (decodeAudioData audioData 24000%positive 1) as [buf|err];
        [|reflexivity].
      destruct (interrupted m); reflexivity.
    + destruct (interrupted m); reflexivity.
  - cbn. rewrite app_nil_r. reflexivity.
Qed.

Lemma callRun_runs (p : Page) (c : LiveClient) (es : list CallEvent) :
  clientObj (activeCall p) = Some c ->
  isMountedRef (activeCall p) = true ->
  intervalArmed (activeCall p) = true ->
  callRun decodeAudioData p es
  = duringCall (app p) (activeCall p)
      (run decodeAudioData (mkMachine (page_browser p) c []) (clientEvents es))
      (seconds es).
Proof.
  intros Hc Hm Hi.
  destruct p as [b ap [per st dur tr mu em co lr tid ia trr mo ig tos ck ec]].
  cbn [activeCall clientObj isMountedRef intervalArmed page_browser app] in *.
  subst co mo ia.
  induction es as [|e es IH] using rev_ind.
  - unfold callRun, run, duringCall. cbn.
    rewrite !string_append_nil_r, app_nil_r. reflexivity.
  - unfold callRun, run in *. rewrite fold_left_app, IH.
    rewrite clientEvents_app, seconds_app, fold_left_app.
    generalize (fold_left (step decodeAudioData) (clientEvents es) (mkMachine b c [])).
    intros [b' c' cl']. destruct e as [e|]; cbn [fold_left clientEvents seconds callStep].
    + rewrite Nat.add_0_r. unfold clientEvent, duringCall.
      cbn [activeCall clientObj set_call_duration set_timeouts set_transcript
           set_transcriptRef set_clientObj page_browser browser this calls].
      rewrite (step_calls b' c' cl' e).
      set (t := step decodeAudioData (mkMachine b' c' []) e).
      rewrite deliver_runs by reflexivity.
      cbn. rewrite linesOf_app, hangUpsDue_app, !string_append_assoc, <- !app_assoc.
      reflexivity.
    + rewrite tick_counts by reflexivity. unfold duringCall. cbn.
      rewrite Nat.add_1_r. reflexivity.
Qed.

Lemma sameHoldings_refl (s : Machine) : sameHoldings s s.
Proof. repeat split. Qed.

Lemma sameHoldings_trans (a b c : Machine) :
  sameHoldings a b -> sameHoldings b c -> sameHoldings a c.
Proof.
  unfold sameHoldings.
  intros (A1 & A2 & A3 & A4 & A5 & A6 & A7 & A8 & A9 & A10 & A11)
         (B1 & B2 & B3 & B4 & B5 & B6 & B7 & B8 & B9 & B10 & B11).
  rewrite A1, A2, A3, A4, A5, A6, A7, A8, A9, A10, A11.
  repeat split; assumption.
Qed.

Lemma advanceClock_states (dt : Q) (b : Browser) :
  (ctx_state <$> contexts (advanceClock dt b)) = (ctx_state <$> contexts b).
Proof.
  unfold advanceClock. cbn [contexts set_contexts].
  induction (contexts b) as [|c l IH]; [reflexivity|].
  cbn [List.map]. rewrite !fmap_cons, IH.
  destruct (ctx_state c) eqn:E; cbn; rewrite ?E; reflexivity.
Qed.

Lemma step_holdings (s : Machine) (e : Event) :
  sameHoldings (step decodeAudioData s e) s.
Proof.
  destruct e as [dt|m|src]; cbn [step].
  - unfold sameHoldings. cbn [browser this]. rewrite advanceClock_states.
    repeat split.
  - rewrite handleMessage_runs. cbn [snd].
    destruct (afterMessage_frame decodeAudioData m s) as [Hb Ht].
    unfold sameHoldings.
    split; [exact (f_equal tracks Hb)|]. split; [exact (f_equal nodes Hb)|].
    split; [exact (f_equal sessions Hb)|]. split; [exact (f_equal promises Hb)|].
    split; [exact (f_equal (fun x => ctx_state <$> contexts x) Hb)|].
    split; [exact (f_equal inputAudioContext Ht)|].
    split; [exact (f_equal outputAudioContext Ht)|].
    split; [exact (f_equal stream Ht)|].
    split; [exact (f_equal sessionPromise Ht)|].
    split; [exact (f_equal scriptProcessor Ht)|exact (f_equal sourceNode Ht)].
  - repeat split.
Qed.

Lemma run_holdings (s : Machine) (es : list Event) :
  sameHoldings (run decodeAudioData s es) s.
Proof.
  revert s. induction es as [|e es IH]; intros s; [apply sameHoldings_refl|].
  cbn [run fold_left]. eapply sameHoldings_trans; [apply IH|apply step_holdings].
Qed.

Lemma closeCtx_states (f : option nat) (l : list AudioContext) :
  (ctx_state <$> closeCtx f l)
  = match f with
    | Some id => alter (fun _ => closed) id (ctx_state <$> l)
    | None => ctx_state <$> l
    end.
Proof.
  destruct f as [id|]; [|reflexivity]. unfold closeCtx.
  apply list_fmap_alter. apply Forall_forall. intros x _. reflexivity.
Qed.

Lemma disconnected_holdings (s s0 : Machine) :
  sameHoldings s s0 -> sameHoldings (disconnected s) (disconnected s0).
Proof.
  unfold sameHoldings.
  intros (A1 & A2 & A3 & A4 & A5 & A6 & A7 & A8 & A9 & A10 & A11).
  unfold disconnected. cbn [browser this tracks nodes sessions promises contexts].
  rewrite !closeCtx_states, A1, A2, A5, A6, A7, A8, A9, A10, A11.
  unfold closeSettled. rewrite A3, A4.
  repeat split.
Qed.

(** X24. A call from start to record.  On a mounted screen with a persona
    selected and everything available, let [startCall] connect; let the
    client live through any events (the output clock moves, messages
    arrive and are handled, sources end) while its callbacks run on the
    screen and the interval fires, no timeout falling due; then hang up.
    Up to the hang-up the screen is connected, the duration has grown by
    the number of firings, the screen's client and store are those of the
    client's own run, the transcript has grown by the lines of the
    callbacks the client made, and one hang-up is pending for every line
    of the persona with the end marker.  The hang-up completes normally,
    hands the accumulated text to [onEndCall], and puts one record at the
    head of the history, with that transcript, the selected persona and
    the player's name; it is the current session on the feedback screen.
    The interval is cleared, but the pending hang-ups stay pending.  The
    client has dropped every reference and keeps its cursor; the store is
    the one [disconnect] leaves of the client's run: the microphone track
    has ended, the session is closed, the capture nodes are disconnected,
    both contexts are closed, and every source still queued is silent. *)
Theorem X24_call_from_start_to_record
        (p : Page) (selected : Persona) (es : list CallEvent) :
  connectFailure (env (page_browser p)) = None ->
  isMountedRef (activeCall p) = true ->
  ignore (activeCall p) = false ->
  selectedPersona (app p) = Some selected ->
  let b := page_browser p in
  let p1 := snd (startCall p) in
  let p3 := callRun decodeAudioData p1 es in
  let p4 := snd (handleHangUp p3) in
  let s3 := run decodeAudioData (established b []) (clientEvents es) in
  let lines := linesOf (persona (activeCall p)) (calls s3) in
  let text := (transcriptRef (activeCall p) ++ lines)%string in
  (status (activeCall p3) = connected
   /\ call_duration (activeCall p3) = seconds es + call_duration (activeCall p)
   /\ page_browser p3 = browser s3
   /\ clientObj (activeCall p3) = Some (this s3)
   /\ transcriptRef (activeCall p3) = text
   /\ transcript (activeCall p3) = (transcript (activeCall p) ++ lines)%string
   /\ timeouts (activeCall p3)
      = timeouts (activeCall p) ++ hangUpsDue (clock (activeCall p)) (calls s3))
  /\ fst (handleHangUp p3) = Normal tt
  /\ onEndCall_calls (activeCall p4) = onEndCall_calls (activeCall p) ++ [text]
  /\ (exists r,
        sessions_history (app p4) = r :: sessions_history (app p)
        /\ currentSession (app p4) = Some r
        /\ session_transcript r = text
        /\ personaId r = persona_id selected
        /\ session_playerName r = playerName (app p))
  /\ appState (app p4) = FEEDBACK
  /\ intervalArmed (activeCall p4) = false
  /\ timeouts (activeCall p4) = timeouts (activeCall p3)
  /\ clientObj (activeCall p4) = Some (released (this s3))
  /\ page_browser p4 = browser (snd (disconnect s3))
  /\ tracks (page_browser p4) = tracks b ++ [mkTrack AudioTrack true true]
  /\ sessions (page_browser p4) = sessions b ++ [mkSession true]
  /\ nodes (page_browser p4)
     = nodes b ++ [mkNode (MediaStreamSource [length (tracks b)]) 0;
                   mkNode (ScriptProcessor 2048 1 1) 0]
  /\ (ctx_state <$> contexts (page_browser p4))
     = (ctx_state <$> contexts b) ++ [closed; closed]
  /\ (forall id src, id ∈ audioQueue (this s3) ->
        sources (page_browser p4) !! id = Some src -> audible src = false).
Proof.
  intros Hf Hm Hi Hsel. cbv zeta.
  destruct (connectFailure_none _ Hf) as (key & Hk & Hne & Hs & Hmic & Hr).
  pose proof (connect_established (page_browser p) [] Hs Hmic Hr) as Hconn.
  pose proof (startCall_connected p key _ Hk Hne Hconn) as Hstart.
  rewrite Hi, Hm in Hstart. rewrite Hstart. cbn [snd].
  rewrite (callRun_runs (connectedCall p (established (page_browser p) []))
             (this (established (page_browser p) [])))
    by (destruct p as [b a []]; first [reflexivity|exact Hm]).
  change (mkMachine (page_browser (connectedCall p (established (page_browser p) [])))
            (this (established (page_browser p) [])) [])
    with (established (page_browser p) []).
  pose proof (run_holdings (established (page_browser p) []) (clientEvents es)) as Hold.
  set (s3 := run decodeAudioData (established (page_browser p) []) (clientEvents es)) in *.
  set (k := seconds es).
  set (p3 := duringCall _ _ s3 k).
  split.
  { unfold p3. destruct p as [b a []]. repeat split. }
  destruct (handleHangUp_spec p3) as (Hn & Hpb & Hac).
  destruct (hungUp_frame p3) as (Hb & Happ & Hcl & Hto & _ & Htr & _ & _ & Hcalls).
  assert (Hp3 : transcriptRef (activeCall p3)
                = (transcriptRef (activeCall p)
                     ++ linesOf (persona (activeCall p)) (calls s3))%string
                /\ onEndCall_calls (activeCall p3) = onEndCall_calls (activeCall p)
                /\ app p3 = app p
                /\ liveClientRef (activeCall p3) = true
                /\ clientObj (activeCall p3) = Some (this s3)
                /\ page_browser p3 = browser s3
                /\ timerRef (activeCall p3) = Some 1%nat)
    by (unfold p3; destruct p as [b a []]; repeat split).
  destruct Hp3 as (Hr3 & Hec3 & Happ3 & Hlr3 & Hco3 & Hpb3 & Htid3).
  assert (Haft : afterDisconnect p3
                 = mkPage (browser (disconnected s3)) (app p3)
                          (set_clientObj (Some (released (this s3))) (activeCall p3))).
  { unfold afterDisconnect. rewrite Hlr3, Hco3, Hpb3. destruct s3; reflexivity. }
  split; [exact Hn|].
  split; [rewrite Hac, Hcalls, Hec3, Hr3; reflexivity|].
  assert (Hsel3 : selectedPersona (app (hungUp p3)) = Some selected)
    by (rewrite Happ, Happ3; exact Hsel).
  pose proof (handleEndCall_runs (transcriptRef (activeCall p3)) (hungUp p3) selected _
                Hsel3 (gradeCall_runs _ selected (language (app (hungUp p3))) (hungUp p3)))
    as Hend.
  rewrite <- (handleHangUp_eq p3) in Hend.
  split.
  { rewrite Hend. cbn [snd app sessions_history currentSession].
    eexists. split; [rewrite Happ, Happ3; reflexivity|]. split; [reflexivity|].
    split; [exact Hr3|]. split; [reflexivity|].
    cbn [recordOf session_playerName]. rewrite Happ, Happ3. reflexivity. }
  split; [rewrite Hend; reflexivity|].
  split.
  { rewrite Hac. apply hungUp_disarmed. intros _. rewrite Htid3. eexists; reflexivity. }
  split; [rewrite Hac; exact Hto|].
  split; [rewrite Hac, Hcl, Haft; reflexivity|].
  assert (Hstore : page_browser (snd (handleHangUp p3)) = browser (disconnected s3))
    by (rewrite Hpb, Hb, Haft; reflexivity).
  rewrite Hstore, (disconnect_runs s3). cbn [snd].
  split; [reflexivity|].
  pose proof (disconnected_holdings _ _ Hold) as Hd.
  rewrite disconnected_established in Hd.
  destruct Hd as (D1 & D2 & D3 & _ & D5 & _).
  split; [exact D1|]. split; [exact D3|]. split; [exact D2|].
  split.
  { rewrite D5. cbn [torndown browser contexts]. rewrite fmap_app. reflexivity. }
  intros id src Hid Hsrc.
  destruct (disconnect_releases_what_is_held s3) as (_ & _ & Hq & _).
  rewrite (disconnect_runs s3) in Hq. exact (Hq id src Hid Hsrc).
Qed.

End CallFacts.

Lemma X24_call_from_start_to_record_witness :
  connectFailure (env (page_browser (samplePage sampleEnv))) = None
  /\ isMountedRef (activeCall (samplePage sampleEnv)) = true
  /\ ignore (activeCall (samplePage sampleEnv)) = false
  /\ selectedPersona (app (samplePage sampleEnv)) = Some samplePersona
  /\ fst (handleHangUp
            (callRun pcm16Decoder (snd (startCall (samplePage sampleEnv))) sampleCall))
     = Normal tt.
Proof.
  split; [reflexivity|]. split; [reflexivity|]. split; [reflexivity|].
  split; [reflexivity|].
  exact (proj1 (proj2 (X24_call_from_start_to_record pcm16Decoder
                         (samplePage sampleEnv) samplePersona sampleCall
                         eq_refl eq_refl eq_refl eq_refl))).
Defined.

(** ** A [disconnect] while [connect] is suspended *)


